(** * news-world-monitor: rollup engine, query layer and article cache

    A shallow embedding of
      - [news_processor/firestore_rollup.py]  (FirestoreRollup.apply_for_article),
      - [news_processor/firestore_writer.py]  (FirestoreWriter.write_article),
      - [news_processor/entity_extractor.py]  (EntityExtractor.build),
      - [news_processor/ai_api_loader.py]     (the plaintext branch of
                                               AIAPILoader.extract_entities),
      - [news_atlas/news_data_loader.py]      (NewsDataLoader),
      - [news_atlas/article_smart_cache.py]   (SmartArticleCache),
    together with the properties the specification states about them and
    further properties of the code.

    Conventions.  Python values that travel through Firestore documents and
    JSON stores are modelled by [pyval]; a document is a finite map from field
    names to values; a Firestore database is a finite map from document paths
    to documents.  A string holds the UTF-8 bytes of a Python [str]:
    equality, concatenation, prefixes and the order of code points are
    those of the bytes.  What depends on characters -- case mappings, the
    classes of [re], [strip], slices -- is defined on ASCII strings, where
    bytes are characters, and goes through a Section variable on any other
    string.  Numbers are integers.  Library functions whose exact behaviour
    is outside the repository (ISO-8601 parsing, [strftime],
    [pandas.to_datetime], the order [sorted] leaves keys in that [<] does
    not order, [str], [int] and [float] on non-trivial values, SHA-256, the
    value order Firestore sorts by) are Section variables as well: nothing
    is assumed about them. *)

From Stdlib Require Import ZArith Ascii String List Permutation Sorted Lia.
From stdpp Require Import base option gmap strings list fin_maps.

Set Warnings "-register-all".

Local Open Scope string_scope.
Local Open Scope Z_scope.

(* ===================================================================== *)
(** ** Python values, truthiness, exceptions *)
(* ===================================================================== *)

Module Py.

(** The values that occur in article and counter documents.  [PTime] is a
    [datetime] with a time zone, as the writer stores them and Firestore
    returns them (seconds since the epoch, UTC). *)
Inductive pyval : Type :=
| PNone
| PBool (b : bool)
| PInt (z : Z)
| PStr (s : string)
| PTime (t : Z)
| PList (l : list pyval)
| PDict (d : list (string * pyval)).

Inductive exn : Type :=
| TypeError
| AttributeError
| ValueError
| StoreError (msg : string).

Inductive result (A : Type) : Type :=
| Ok (a : A)
| Raise (e : exn).
Arguments Ok {A} a.
Arguments Raise {A} e.

Definition bind {A B} (r : result A) (k : A -> result B) : result B :=
  match r with
  | Ok a => k a
  | Raise e => Raise e
  end.

(** [bool(s)] for a string. *)
Definition str_truthy (s : string) : bool :=
  match s with
  | EmptyString => false
  | String _ _ => true
  end.

(** [bool(v)]. *)
Definition truthy (v : pyval) : bool :=
  match v with
  | PNone => false
  | PBool b => b
  | PInt z => negb (z =? 0)
  | PStr s => str_truthy s
  | PTime _ => true
  | PList l => match l with [] => false | _ :: _ => true end
  | PDict d => match d with [] => false | _ :: _ => true end
  end.

(** [d.get(k)] on a document: a missing field reads as [None]. *)
Definition doc_get (d : gmap string pyval) (k : string) : pyval :=
  default PNone (d !! k).

(** [d.get(k)] on a nested dict value. *)
Fixpoint assoc_get (d : list (string * pyval)) (k : string) : pyval :=
  match d with
  | [] => PNone
  | (k', v) :: rest => if String.eqb k' k then v else assoc_get rest k
  end.

(** [x or d] *)
Definition py_or (x d : pyval) : pyval := if truthy x then x else d.

(** [v == s] for a string [s]: only a string equals a string. *)
Definition py_eq_str (v : pyval) (s : string) : bool :=
  match v with
  | PStr s' => String.eqb s' s
  | _ => false
  end.

(** An [Optional[str]] argument. [opt_str o] is [o or '']. *)
Definition opt_str (o : option string) : string := default "" o.
Definition opt_truthy (o : option string) : bool := str_truthy (opt_str o).
(** [o or None] *)
Definition or_None (o : option string) : option string :=
  if opt_truthy o then o else None.

(** *** ASCII case mapping and character classes

    [lower] and [upper] are [str.lower] and [str.upper] on ASCII strings;
    where the code maps a string that need not be ASCII, the model goes
    through a Section variable for the rest of Unicode. *)

Definition lower_ascii (c : ascii) : ascii :=
  let n := nat_of_ascii c in
  if ((65 <=? n) && (n <=? 90))%nat then ascii_of_nat (n + 32) else c.

Definition upper_ascii (c : ascii) : ascii :=
  let n := nat_of_ascii c in
  if ((97 <=? n) && (n <=? 122))%nat then ascii_of_nat (n - 32) else c.

Fixpoint map_string (f : ascii -> ascii) (s : string) : string :=
  match s with
  | EmptyString => EmptyString
  | String c r => String (f c) (map_string f r)
  end.

Definition lower (s : string) : string := map_string lower_ascii s.
Definition upper (s : string) : string := map_string upper_ascii s.

(** [s.replace(a, b)] for single characters. *)
Definition replace_char (a b : ascii) (s : string) : string :=
  map_string (fun c => if Ascii.eqb c a then b else c) s.

(** [s[:limit]] on a list, with Python's meaning of a negative bound. *)
Definition slice_to {A} (l : list A) (limit : Z) : list A :=
  if 0 <=? limit then take (Z.to_nat limit) l
  else take (Z.to_nat (Z.of_nat (length l) + limit)) l.

(** Sorting in descending order, stable: [lt x y] says that [x] sorts after
    [y]; elements that neither precede the other keep their relative
    order. *)
Fixpoint insert_desc {A} (lt : A -> A -> bool) (x : A) (l : list A) : list A :=
  match l with
  | [] => [x]
  | y :: r => if lt x y then y :: insert_desc lt x r else x :: l
  end.

Definition sorted_desc_by {A} (lt : A -> A -> bool) (l : list A) : list A :=
  foldr (insert_desc lt) [] l.

(** [sorted(l, key=key, reverse=True)] for integer keys. *)
Definition sorted_desc {A} (key : A -> Z) (l : list A) : list A :=
  sorted_desc_by (fun x y => key x <? key y) l.

(** The list in the order given by ranks, one per element, highest first;
    an element without a rank has rank 0.  Whatever the ranks, the result
    is a rearrangement of the list. *)
Fixpoint ranked {A} (ranks : list Z) (l : list A) : list (Z * A) :=
  match l with
  | [] => []
  | x :: r => (hd 0 ranks, x) :: ranked (tl ranks) r
  end.

Definition arrange {A} (ranks : list Z) (l : list A) : list A :=
  map snd (sorted_desc fst (ranked ranks l)).

(** The string holds ASCII characters only.  On such a string the bytes
    are the characters, and Python's case mappings and the classes [\w],
    [\s] and [\d] of [re] are the ASCII ones. *)
Definition is_ascii (s : string) : bool :=
  forallb (fun c => (nat_of_ascii c <? 128)%nat) (list_ascii_of_string s).

End Py.
Import Py.

(* ===================================================================== *)
(** ** SmartArticleCache  (news_atlas/article_smart_cache.py) *)
(* ===================================================================== *)

Module SmartArticleCache.

Abbreviation article := (gmap string pyval).
Abbreviation cache := (gmap string (list (gmap string pyval))).

(** One call of [loader.load_articles(hour=, country=, entity=, limit=)]. *)
Record fetch : Type := Fetch {
  f_hour : string;
  f_country : option string;
  f_entity : option string;
  f_limit : Z
}.

(** What a call of [get] leaves behind: the value returned or the
    exception raised, the cache mapping afterwards, and the loader calls
    that were issued, in order. *)
Record outcome : Type := Outcome {
  ret : result (list article);
  store' : cache;
  fetches : list fetch
}.

(** [datetime.min] *)
Definition datetime_min : Z := -62135596800.

(** What [_to_dt] returns, as far as comparing goes: a datetime or
    Timestamp that carries a time zone, one that carries none, pandas'
    [NaT], or whatever else pandas makes of a value [v] that is no date
    ([None] of [None], an index of a list).  [<] between an aware and a
    naive one raises [TypeError]; [<] with [NaT] on either side is
    [False]; [<] with anything else is what its type makes of it. *)
Inductive sort_key : Type :=
| Aware (t : Z)
| Naive (t : Z)
| NaT
| Other (v : pyval).

Definition is_aware (k : sort_key) : bool :=
  match k with Aware _ => true | _ => false end.
Definition is_naive (k : sort_key) : bool :=
  match k with Naive _ => true | _ => false end.

Definition is_datetime (k : sort_key) : bool := is_aware k || is_naive k.

Definition time_of (k : sort_key) : Z :=
  match k with
  | Aware t | Naive t => t
  | NaT | Other _ => 0
  end.

(** The keys are of one kind that [<] orders totally. *)
Definition ordered (ks : list sort_key) : bool :=
  forallb is_aware ks || forallb is_naive ks.

(** [_key]: [f"{hour}|{country or ''}|{entity or ''}"] *)
Definition _key (hour : string) (country entity : option string) : string :=
  hour +:+ "|" +:+ opt_str country +:+ "|" +:+ opt_str entity.

Section WithLibraries.

(** [str(v)] for a value that is not a string. *)
Variable str_other : pyval -> string.
(** [s.lower()] for a string that is not ASCII. *)
Variable lower_unicode : string -> string.
(** [pandas.to_datetime(v)]; [None] when it raises. *)
Variable pd_to_datetime : pyval -> option sort_key.
(** What [sorted] makes of keys that [<] does not order totally, which
    depends on the comparisons its implementation happens to make: the
    exception it raises, or the ranks of the elements in the order it
    returns them (see [arrange]). *)
Variable unordered_sort : list sort_key -> result (list Z).
(** The loader: [NewsDataLoader.load_articles] against the backing store
    as it is at the time of the call. *)
Variable load_articles : fetch -> result (list article).

Definition py_str (v : pyval) : string :=
  match v with
  | PStr s => s
  | _ => str_other v
  end.

(** [s.lower()] *)
Definition str_lower (s : string) : string :=
  if is_ascii s then lower s else lower_unicode s.

(** [_matches] *)
Definition _matches (a : article) (country entity : option string) : bool :=
  if opt_truthy country && negb (py_eq_str (doc_get a "country") (opt_str country))
  then false
  else if opt_truthy entity then
    match doc_get a "entityNameSlug" with
    | PList slugs =>
        let ent_slug := replace_char " " "-" (str_lower (opt_str entity)) in
        let lowset := map (fun s => str_lower (py_str s)) slugs in
        if negb (existsb (String.eqb ent_slug) lowset)
           && negb (existsb (fun s => py_eq_str s (opt_str entity)) slugs)
        then false
        else true
    | _ => false
    end
  else true.

(** [_to_dt]: a datetime as it is -- the documents hold the aware
    datetimes Firestore returns --, anything else through pandas, and the
    naive [datetime.min] when pandas raises. *)
Definition _to_dt (v : pyval) : sort_key :=
  match v with
  | PTime t => Aware t
  | _ => default (Naive datetime_min) (pd_to_datetime v)
  end.

(** The key of a row. *)
Definition row_key (r : article) : sort_key := _to_dt (doc_get r "time").

(** [sorted(rows, key=lambda r: _to_dt(r.get("time")), reverse=True)].
    Fewer than two rows are not compared.  Keys of one kind are sorted,
    newest first, rows of equal time in their order.  Aware and naive
    datetimes together cannot be sorted without comparing an aware with a
    naive one, which raises.  With a [NaT] or a key of another type [<] is
    no order, and the outcome is the implementation's: its exception, or
    the rows in the order it leaves them. *)
Definition rows_sorted (rows : list article) : result (list article) :=
  let ks := map row_key rows in
  if (length rows <? 2)%nat then Ok rows
  else if ordered ks then Ok (sorted_desc (fun r => time_of (row_key r)) rows)
  else if forallb is_datetime ks then Raise TypeError
  else bind (unordered_sort ks) (fun ranks => Ok (arrange ranks rows)).

(** [_sort_trim] *)
Definition _sort_trim (rows : list article) (limit : Z)
    : result (list article) :=
  bind (rows_sorted rows) (fun sorted => Ok (slice_to sorted limit)).

(** A snapshot dict is truthy when it is there and not empty. *)
Definition dict_truthy (m : option (gmap string Z)) : bool :=
  match m with
  | Some d => negb (bool_decide (d = ∅))
  | None => false
  end.

(** [{str(name): int(count) for name, count in pairs}]: a later pair
    overrides an earlier one with the same name. *)
Definition dict_of_pairs (pairs : list (string * Z)) : gmap string Z :=
  foldl (fun g p => <[p.1 := p.2]> g) ∅ pairs.

(** [_expected_count] *)
Definition _expected_count (country entity : option string)
    (totals_by_iso entity_breakdown_by_iso : option (gmap string Z))
    (global_top_entities : option (list (string * Z))) : option Z :=
  if opt_truthy entity && opt_truthy country then
    if dict_truthy entity_breakdown_by_iso
    then Some (default 0 (default ∅ entity_breakdown_by_iso !! opt_str country))
    else None
  else if opt_truthy entity && negb (opt_truthy country) then
    match global_top_entities with
    | Some (p :: ps) =>
        let g := dict_of_pairs (p :: ps) in
        Some (default 0 (g !! opt_str entity))
    | _ => None
    end
  else if opt_truthy country && negb (opt_truthy entity) then
    if dict_truthy totals_by_iso
    then Some (default 0 (default ∅ totals_by_iso !! opt_str country))
    else None
  else None.

(** The rows of a parent entry that match the stricter filter. *)
Definition filtered_rows (parent_rows : list article)
    (country entity : option string) : list article :=
  List.filter (fun r => _matches r country entity) parent_rows.

(** The [for pkey in parent_keys] loop of [get]: the first parent entry
    that holds enough matching rows, if there is one. *)
Fixpoint reuse_parent (store : cache) (expected : option Z)
    (country entity : option string) (parent_keys : list string)
    : option (list article) :=
  match parent_keys with
  | [] => None
  | pkey :: rest =>
      match expected, store !! pkey with
      | Some n, Some parent_rows =>
          let filtered := filtered_rows parent_rows country entity in
          if n <=? Z.of_nat (length filtered) then Some filtered
          else reuse_parent store expected country entity rest
      | _, _ => reuse_parent store expected country entity rest
      end
  end.

Definition parent_keys (hour : string) (country entity : option string)
    : list string :=
  if opt_truthy country && opt_truthy entity
  then [_key hour country None; _key hour None entity]
  else [].

Definition fallback_fetch (hour : string) (country entity : option string)
    (per_page : Z) : fetch :=
  Fetch hour (or_None country) (or_None entity) per_page.

(** [get]: the entry of the exact key is written before the rows are
    sorted, so it stays when sorting raises. *)
Definition get (store : cache) (hour : string) (country entity : option string)
    (totals_by_iso entity_breakdown_by_iso : option (gmap string Z))
    (global_top_entities : option (list (string * Z)))
    (per_page : Z) : outcome :=
  if negb (str_truthy hour) then Outcome (Ok []) store []
  else
    let key := _key hour country entity in
    match store !! key with
    | Some rows => Outcome (_sort_trim rows per_page) store []
    | None =>
        let expected :=
          _expected_count country entity totals_by_iso
            entity_breakdown_by_iso global_top_entities in
        match reuse_parent store expected country entity
                (parent_keys hour country entity) with
        | Some filtered =>
            Outcome (_sort_trim filtered per_page)
                    (<[key := filtered]> store) []
        | None =>
            let q := fallback_fetch hour country entity per_page in
            match load_articles q with
            | Raise e => Outcome (Raise e) store [q]
            | Ok fetched =>
                Outcome (_sort_trim fetched per_page)
                        (<[key := fetched]> store) [q]
            end
        end
    end.

End WithLibraries.

End SmartArticleCache.

(* ===================================================================== *)
(** ** The backing store: documents, merge writes, transactions *)
(* ===================================================================== *)

Module Firestore.

Abbreviation doc := (gmap string pyval).
(** A document reference is its path: collection and document identifiers
    alternating.  Identifiers are atomic path segments. *)
Abbreviation path := (list string).
Abbreviation db := (gmap (list string) (gmap string pyval)).

(** What [tx.set] may carry for a field. *)
Inductive field_value : Type :=
| Value (v : pyval)
| Increment (n : Z)
| SERVER_TIMESTAMP.

(** [tx.set(ref, fields, merge=True)] *)
Record write : Type := Write {
  w_ref : path;
  w_fields : list (string * field_value)
}.

Fixpoint assoc_find (d : list (string * pyval)) (k : string) : option pyval :=
  match d with
  | [] => None
  | (k', v) :: rest => if String.eqb k' k then Some v else assoc_find rest k
  end.

Fixpoint assoc_set (k : string) (v : pyval) (d : list (string * pyval))
    : list (string * pyval) :=
  match d with
  | [] => [(k, v)]
  | (k', v') :: rest =>
      if String.eqb k' k then (k, v) :: rest else (k', v') :: assoc_set k v rest
  end.

(** A merge write names the leaves of the data it carries: a non-empty map
    is merged into the stored map key by key, any other value replaces the
    stored one. *)
Fixpoint merge_value (new : pyval) (old : option pyval) {struct new} : pyval :=
  match new with
  | PDict (p :: ps) =>
      let base := match old with Some (PDict o) => o | _ => [] end in
      PDict ((fix go (d acc : list (string * pyval)) {struct d} :=
                match d with
                | [] => acc
                | (k, v) :: r =>
                    go r (assoc_set k (merge_value v (assoc_find acc k)) acc)
                end) (p :: ps) base)
  | _ => new
  end.

(** The stored value of one field after the write.  [Increment] on a field
    that is absent or not a number stores the operand. *)
Definition transform (commit_time : Z) (old : option pyval) (fv : field_value)
    : pyval :=
  match fv with
  | Value v => merge_value v old
  | Increment n =>
      match old with
      | Some (PInt z) => PInt (z + n)
      | _ => PInt n
      end
  | SERVER_TIMESTAMP => PTime commit_time
  end.

Definition merge_fields (commit_time : Z) (d : doc)
    (fields : list (string * field_value)) : doc :=
  foldl (fun d kv => <[kv.1 := transform commit_time (d !! kv.1) kv.2]> d) d fields.

Definition apply_write (commit_time : Z) (s : db) (w : write) : db :=
  <[w_ref w := merge_fields commit_time (default ∅ (s !! w_ref w)) (w_fields w)]> s.

(** The buffered writes of a transaction take effect together, in the
    order they were issued. *)
Definition commit (commit_time : Z) (s : db) (ws : list write) : db :=
  foldl (apply_write commit_time) s ws.

(** The documents of a collection, with their identifiers. *)
Definition in_collection (coll : path) (p : path) : option string :=
  match last p with
  | Some id => if bool_decide (p = (coll ++ [id])%list) then Some id else None
  | None => None
  end.

Definition collection_docs (s : db) (coll : path) : list (string * doc) :=
  omap (fun pd => match in_collection coll pd.1 with
                  | Some id => Some (id, pd.2)
                  | None => None
                  end) (map_to_list s).

(** An integer counter field as the query layer reads it. *)
Definition int_field (k : string) (d : doc) : Z :=
  match d !! k with
  | Some (PInt z) => z
  | _ => 0
  end.

(** A counter cell: field [k] of the document at [p], 0 when there is no
    such document. *)
Definition cell (s : db) (p : path) (k : string) : Z :=
  int_field k (default ∅ (s !! p)).

Definition sum_Z (l : list Z) : Z := foldr Z.add 0 l.

(** The sum of field [k] over the documents of a collection. *)
Definition collection_sum (s : db) (coll : path) (k : string) : Z :=
  sum_Z (map (fun x => int_field k x.2) (collection_docs s coll)).

(** *** What a buffered write does to a counter field *)

(** The increment the field list carries for [k]. *)
Fixpoint field_incr (k : string) (fields : list (string * field_value)) : Z :=
  match fields with
  | [] => 0
  | (k', fv) :: rest =>
      if String.eqb k' k
      then match fv with Increment n => n | _ => 0 end
      else field_incr k rest
  end.

Definition names_field (k : string) (fields : list (string * field_value))
    : bool :=
  existsb (fun kv => String.eqb kv.1 k) fields.

(** The field list touches [k] at most once, and then by an increment. *)
Fixpoint counter_only (k : string) (fields : list (string * field_value))
    : bool :=
  match fields with
  | [] => true
  | (k', fv) :: rest =>
      if String.eqb k' k
      then match fv with Increment _ => negb (names_field k rest) | _ => false end
      else counter_only k rest
  end.

(** The increment a write carries for the cell [(p, k)]. *)
Definition write_incr (p : path) (k : string) (w : write) : Z :=
  if bool_decide (w_ref w = p) then field_incr k (w_fields w) else 0.

(** The increment a write carries for field [k] of a collection's
    documents. *)
Definition write_incr_in (coll : path) (k : string) (w : write) : Z :=
  match in_collection coll (w_ref w) with
  | Some _ => field_incr k (w_fields w)
  | None => 0
  end.

End Firestore.
Import Firestore.

(* ===================================================================== *)
(** ** FirestoreRollup  (news_processor/firestore_rollup.py) *)
(* ===================================================================== *)

Module FirestoreRollup.

(** [\w] on an ASCII character: letters, digits and underscore. *)
Definition is_word (c : ascii) : bool :=
  let n := nat_of_ascii c in
  (((48 <=? n) && (n <=? 57)) || ((65 <=? n) && (n <=? 90))
   || ((97 <=? n) && (n <=? 122)) || (n =? 95))%nat.

(** [\s] on an ASCII character, which is also what [str.strip] removes. *)
Definition is_space (c : ascii) : bool :=
  let n := nat_of_ascii c in
  (((9 <=? n) && (n <=? 13)) || ((28 <=? n) && (n <=? 32)))%nat.

(** [_slug_re.sub("", s)] with [_slug_re = [^\w\s-]] *)
Definition slug_keep (c : ascii) : bool :=
  is_word c || is_space c || Ascii.eqb c "-".

Fixpoint lstrip (l : list ascii) : list ascii :=
  match l with
  | [] => []
  | c :: r => if is_space c then lstrip r else l
  end.

Definition strip (l : list ascii) : list ascii :=
  rev (lstrip (rev (lstrip l))).

(** [re.sub(r"\s+", "-", s)]: every maximal run of whitespace becomes one
    hyphen. *)
Fixpoint collapse_spaces (in_run : bool) (l : list ascii) : list ascii :=
  match l with
  | [] => []
  | c :: r =>
      if is_space c
      then (if in_run then collapse_spaces true r
            else "-"%char :: collapse_spaces true r)
      else c :: collapse_spaces false r
  end.

(** [slugify] on an ASCII string, where characters are bytes and the
    classes of the pattern are the ASCII ones. *)
Definition slugify_ascii (s : string) (max_len : Z) : string :=
  let s := lower s in
  let s := List.filter slug_keep (list_ascii_of_string s) in
  let s := collapse_spaces false (strip s) in
  let s := string_of_list_ascii (slice_to s max_len) in
  if str_truthy s then s else "entity".

(** [s.replace("Z", "+00:00")] *)
Fixpoint replace_Z (s : string) : string :=
  match s with
  | EmptyString => EmptyString
  | String c r =>
      if Ascii.eqb c "Z" then "+00:00" +:+ replace_Z r else String c (replace_Z r)
  end.

(** [RollupPaths] *)
Record RollupPaths : Type := { mentions_root : string }.
Definition default_paths : RollupPaths := {| mentions_root := "mentions" |}.

(** What one call meets outside the database contents: the client clock
    ([datetime.now]), the time the store stamps on the commit, and whether
    the store refuses the read of the article reference. *)
Record env : Type := Env {
  now : Z;
  commit_time : Z;
  read_error : option exn
}.

Section WithLibraries.

(** [s[:max_len]] as [slugify] arrives at it for a string that is not
    ASCII, where [lower], the classes [\w] and [\s] and the slice are
    Unicode's and count characters, not bytes. *)
Variable slugify_unicode : string -> Z -> string.
(** [s.upper()] for a string that is not ASCII. *)
Variable upper_unicode : string -> string.
(** [datetime.fromisoformat]; [None] when it raises [ValueError]. *)
Variable fromisoformat : string -> option Z.
(** [dt.strftime(fmt)] *)
Variable strftime : string -> Z -> string.
Variable paths : RollupPaths.

(** [s.upper()] *)
Definition str_upper (s : string) : string :=
  if is_ascii s then upper s else upper_unicode s.

(** [slugify] *)
Definition slugify (s : string) (max_len : Z) : string :=
  if is_ascii s then slugify_ascii s max_len
  else
    let r := slugify_unicode s max_len in
    if str_truthy r then r else "entity".

(** [_to_utc] *)
Definition _to_utc (dt : pyval) : result Z :=
  match dt with
  | PTime t => Ok t
  | PStr s =>
      match fromisoformat (replace_Z s) with
      | Some t => Ok t
      | None => Raise ValueError
      end
  | _ => Raise TypeError
  end.

(** [hour_bucket] *)
Definition hour_bucket (dt_utc : Z) : string := strftime "%Y%m%d%H" dt_utc.

(** Document references under [/mentions/{hour}]. *)
Definition mentions_hour (hour : string) : path :=
  [mentions_root paths; hour].
Definition country_ref (hour country : string) : path :=
  (mentions_hour hour ++ ["countries"; country])%list.
Definition ent_ref (hour eid : string) : path :=
  (mentions_hour hour ++ ["entities"; eid])%list.
Definition ent_country_ref (hour eid country : string) : path :=
  (ent_ref hour eid ++ ["countries"; country])%list.
Definition country_entity_ref (hour country eid : string) : path :=
  (country_ref hour country ++ ["entities"; eid])%list.

(** [(ent or {}).get(k)] *)
Definition ent_get (ent : pyval) (k : string) : result pyval :=
  if negb (truthy ent) then Ok PNone
  else match ent with
       | PDict d => Ok (assoc_get d k)
       | _ => Raise AttributeError
       end.

(** The three writes of one pass through the loop body. *)
Definition entity_writes (hour country eid : string) (name etype : pyval)
    : list write :=
  [ Write (ent_ref hour eid)
      [ ("entity", Value name); ("type", Value etype);
        ("total", Increment 1);
        ("updated_at", SERVER_TIMESTAMP); ("created_at", SERVER_TIMESTAMP) ];
    Write (ent_country_ref hour eid country)
      [ ("country", Value (PStr country));
        ("count", Increment 1);
        ("updated_at", SERVER_TIMESTAMP); ("created_at", SERVER_TIMESTAMP) ];
    Write (country_entity_ref hour country eid)
      [ ("entityId", Value (PStr eid)); ("entity", Value name);
        ("type", Value etype);
        ("count", Increment 1);
        ("updated_at", SERVER_TIMESTAMP); ("created_at", SERVER_TIMESTAMP) ] ].

(** [for ent in entities: ...] *)
Fixpoint entities_loop (hour country : string) (entities : list pyval)
    : result (list write) :=
  match entities with
  | [] => Ok []
  | ent :: rest =>
      bind (ent_get ent "name") (fun name =>
      if negb (truthy name) then entities_loop hour country rest
      else
        bind (ent_get ent "type") (fun ty =>
        let etype := py_or ty (PStr "OTHER") in
        match name with
        | PStr n =>
            let eid := slugify n 128 in
            bind (entities_loop hour country rest) (fun ws =>
            Ok (entity_writes hour country eid name etype ++ ws)%list)
        | _ => Raise AttributeError
        end))
  end.

(** What [for ent in v] iterates over. *)
Fixpoint chars (s : string) : list pyval :=
  match s with
  | EmptyString => []
  | String c r => PStr (String c EmptyString) :: chars r
  end.

Definition py_iter (v : pyval) : result (list pyval) :=
  match v with
  | PList l => Ok l
  | PDict d => Ok (map (fun kv => PStr kv.1) d)
  | PStr s => Ok (chars s)
  | _ => Raise TypeError
  end.

(** "Derive hour and normalize country": the four values the body reads
    off the article before it writes. *)
Definition event_time (E : env) (a : doc) : result Z :=
  let time_val := doc_get a "time" in
  if truthy time_val then _to_utc time_val else Ok (now E).

Definition event_hour (a : doc) (dt_utc : Z) : pyval :=
  py_or (doc_get a "hour") (PStr (hour_bucket dt_utc)).

Definition event_country (a : doc) : result string :=
  match py_or (doc_get a "country") (PStr "XX") with
  | PStr c => Ok (str_upper c)
  | _ => Raise AttributeError
  end.

Definition event_entities (a : doc) : pyval :=
  py_or (doc_get a "entities") (PList []).

(** [collection(root).document(hour)] takes a string. *)
Definition document_id (v : pyval) : result string :=
  match v with
  | PStr h => Ok h
  | _ => Raise TypeError
  end.

(** The writes that come before the loop: the processed marker on the
    article, the hour document, the country total. *)
Definition head_writes (article_ref : path) (hour_val : pyval)
    (hour country : string) : list write :=
  [ Write article_ref
      [ ("hour", Value hour_val);
        ("rollups_done", Value (PBool true));
        ("updated_at", SERVER_TIMESTAMP) ];
    Write (mentions_hour hour) [ ("hour", Value hour_val) ];
    Write (country_ref hour country)
      [ ("country", Value (PStr country));
        ("total", Increment 1);
        ("updated_at", SERVER_TIMESTAMP);
        ("created_at", SERVER_TIMESTAMP) ] ].

(** The transaction body [_txn], run on the snapshot of the article. It
    yields the writes it buffered, or the exception that aborts it. *)
Definition _txn (E : env) (article_ref : path) (snap : option doc)
    : result (list write) :=
  match snap with
  | None => Ok []
  | Some a =>
      if truthy (doc_get a "rollups_done") then Ok []
      else
        bind (event_time E a) (fun dt_utc =>
        let hour_val := event_hour a dt_utc in
        bind (event_country a) (fun country =>
        let entities := event_entities a in
        bind (document_id hour_val) (fun hour =>
        bind (py_iter entities) (fun ents =>
        bind (entities_loop hour country ents) (fun ent_ws =>
        Ok (head_writes article_ref hour_val hour country ++ ent_ws)%list)))))
  end.

(** The identifiers the loop writes for: one per entry that carries a
    name, in the order of the entries, repeated when entries repeat. *)
Definition named_id (ent : pyval) : option string :=
  match ent with
  | PDict d =>
      match assoc_get d "name" with
      | PStr n => if str_truthy n then Some (slugify n 128) else None
      | _ => None
      end
  | _ => None
  end.

Definition named_ids (entities : list pyval) : list string :=
  omap named_id entities.

Definition occurrences (eid : string) (ids : list string) : Z :=
  Z.of_nat (length (List.filter (String.eqb eid) ids)).

(** [apply_for_article]: read the article inside a transaction, run the
    body, commit what it buffered.  An exception leaves the store as it
    was.  Calls are taken one at a time, so a commit is never rejected for
    a conflicting write. *)
Definition apply_for_article (E : env) (s : db) (article_ref : path)
    : db * result unit :=
  match read_error E with
  | Some e => (s, Raise e)
  | None =>
      match _txn E article_ref (s !! article_ref) with
      | Raise e => (s, Raise e)
      | Ok ws => (commit (commit_time E) s ws, Ok tt)
      end
  end.

(** A run of calls, each with its own environment. *)
Definition apply_all (calls : list (env * path)) (s : db) : db :=
  foldl (fun s c => (apply_for_article c.1 s c.2).1) s calls.

(** *** The counter views *)

(** [CountryTotal(bucket, country)] *)
Definition CountryTotal (s : db) (hour country : string) : Z :=
  int_field "total" (default ∅ (s !! country_ref hour country)).

(** [EntityTotal(bucket, entityId).count] *)
Definition EntityTotal (s : db) (hour eid : string) : Z :=
  int_field "total" (default ∅ (s !! ent_ref hour eid)).

(** [EntityCountryBreakdown(bucket, entityId, country)] *)
Definition EntityCountryBreakdown (s : db) (hour eid country : string) : Z :=
  int_field "count" (default ∅ (s !! ent_country_ref hour eid country)).

(** [CountryEntityBreakdown(bucket, country, entityId)] *)
Definition CountryEntityBreakdown (s : db) (hour country eid : string) : Z :=
  int_field "count" (default ∅ (s !! country_entity_ref hour country eid)).

(** The countries that have a breakdown document under the entity; every
    other country's cell reads 0. *)
Definition breakdown_countries (s : db) (hour eid : string) : list string :=
  map fst (collection_docs s (ent_ref hour eid ++ ["countries"])%list).

(** The sum over the countries of
    [EntityCountryBreakdown(bucket, entityId, country)]. *)
Definition EntityCountrySum (s : db) (hour eid : string) : Z :=
  sum_Z (map (EntityCountryBreakdown s hour eid) (breakdown_countries s hour eid)).

(** The conservation invariant. *)
Definition conserved (s : db) : Prop :=
  forall hour eid, EntityCountrySum s hour eid = EntityTotal s hour eid.

End WithLibraries.

End FirestoreRollup.

(* ===================================================================== *)
(** ** NewsDataLoader.top_entities  (news_atlas/news_data_loader.py) *)
(* ===================================================================== *)

Module NewsDataLoader.

(** Python dictionary keys: lists and dicts are not hashable; [True] and
    [1] are the same key. *)
Definition hashable (v : pyval) : bool :=
  match v with
  | PList _ | PDict _ => false
  | _ => true
  end.

Definition key_eqb (a b : pyval) : bool :=
  match a, b with
  | PNone, PNone => true
  | PStr x, PStr y => String.eqb x y
  | PTime x, PTime y => x =? y
  | PBool x, PBool y => Bool.eqb x y
  | PInt x, PInt y => x =? y
  | PBool x, PInt y => (if x then 1 else 0) =? y
  | PInt x, PBool y => x =? (if y then 1 else 0)
  | _, _ => false
  end.

(** An entity counter document as the rollup writes it: an integer
    [total] and a string [entity], each possibly absent. *)
Definition rollup_shaped (dd : doc) : bool :=
  match dd !! "total" with
  | Some (PInt _) | None => true
  | _ => false
  end
  && match dd !! "entity" with
     | Some (PStr _) | None => true
     | _ => false
     end.

(** [data[name] = total] on an insertion-ordered dict: an existing key
    keeps its position and takes the new value. *)
Fixpoint dict_set (name : pyval) (total : Z) (data : list (pyval * Z))
    : list (pyval * Z) :=
  match data with
  | [] => [(name, total)]
  | (k, v) :: rest =>
      if key_eqb k name then (k, total) :: rest
      else (k, v) :: dict_set name total rest
  end.

Section WithLibraries.

(** [int(s)] on a string; [None] when it raises [ValueError]. *)
Variable int_of_str : string -> option Z.
(** The order Firestore sorts field values by: [fs_ltb x y] when [x] sorts
    strictly before [y]. *)
Variable fs_ltb : pyval -> pyval -> bool.

(** [int(v)] *)
Definition py_int (v : pyval) : result Z :=
  match v with
  | PInt z => Ok z
  | PBool b => Ok (if b then 1 else 0)
  | PStr s =>
      match int_of_str s with
      | Some z => Ok z
      | None => Raise ValueError
      end
  | _ => Raise TypeError
  end.

(** [_mentions_hour_ref(hour).collection("entities")
       .order_by("total", direction=DESCENDING).limit(limit).stream()]:
    the documents that have the field, largest first, cut at [limit]. The
    store rejects a negative limit.  Documents whose values [fs_ltb] does
    not separate stay in the order [collection_docs] lists them, which
    stands for the store's tie order; no property below depends on it. *)
Definition entities_by_total (s : db) (hour : string) (limit : Z)
    : result (list (string * doc)) :=
  if limit <? 0 then Raise (StoreError "limit is negative")
  else
    let docs := collection_docs s ["mentions"; hour; "entities"] in
    let with_total :=
      List.filter (fun d => bool_decide (is_Some (d.2 !! "total"))) docs in
    let ordered :=
      sorted_desc_by
        (fun a b => fs_ltb (doc_get a.2 "total") (doc_get b.2 "total"))
        with_total in
    Ok (take (Z.to_nat limit) ordered).

(** The loop that fills [data]. *)
Fixpoint fill_data (docs : list (string * doc)) (data : list (pyval * Z))
    : result (list (pyval * Z)) :=
  match docs with
  | [] => Ok data
  | (id, dd) :: rest =>
      let name := py_or (doc_get dd "entity") (PStr id) in
      bind (py_int (py_or (doc_get dd "total") (PInt 0))) (fun total =>
      if hashable name then fill_data rest (dict_set name total data)
      else Raise TypeError)
  end.

(** [top_entities]: the series as the list of its (index, value) rows. *)
Definition top_entities (s : db) (hour : string) (limit : Z)
    : result (list (pyval * Z)) :=
  bind (entities_by_total s hour limit) (fun docs =>
  bind (fill_data docs []) (fun data =>
  Ok (sorted_desc snd data))).

End WithLibraries.

End NewsDataLoader.

(* ===================================================================== *)
(** ** Concrete scenarios *)
(* ===================================================================== *)

Module Scenarios.
Import SmartArticleCache FirestoreRollup NewsDataLoader.

(** *** Library instances used to run the scenarios *)

Definition str_plain (v : pyval) : string := "".
Definition no_datetime (v : pyval) : option sort_key := None.
(** The scenarios hold ASCII strings only, and rows that carry a
    datetime: the variables for the rest are not consulted. *)
Definition lower_plain (s : string) : string := s.
Definition upper_plain (s : string) : string := s.
Definition slug_plain (s : string) (max_len : Z) : string := s.
Definition no_unicode_digits (s : string) : bool := false.
Definition no_unordered (ks : list sort_key) : result (list Z) :=
  Raise TypeError.
Definition no_isoformat (s : string) : option Z := None.
Definition no_int (s : string) : option Z := None.

(** Firestore's order on integers; other values are left where they are. *)
Definition int_ltb (x y : pyval) : bool :=
  match x, y with
  | PInt a, PInt b => a <? b
  | _, _ => false
  end.

Definition digit (n : Z) : ascii := ascii_of_nat (48 + Z.to_nat (n mod 10)).

Definition two_digits (n : Z) : string :=
  String (digit (n / 10)) (String (digit n) EmptyString).

Definition four_digits (n : Z) : string :=
  two_digits (n / 100) +:+ two_digits (n mod 100).

(** [strftime("%Y%m%d%H")] on the proleptic Gregorian calendar, for years
    with four digits. *)
Definition strftime_hour (fmt : string) (t : Z) : string :=
  let days := t / 86400 in
  let hour := (t mod 86400) / 3600 in
  let z := days + 719468 in
  let era := z / 146097 in
  let doe := z - era * 146097 in
  let yoe := (doe - doe / 1460 + doe / 36524 - doe / 146096) / 365 in
  let doy := doe - (365 * yoe + yoe / 4 - yoe / 100) in
  let mp := (5 * doy + 2) / 153 in
  let d := doy - (153 * mp + 2) / 5 + 1 in
  let m := if mp <? 10 then mp + 3 else mp - 9 in
  let y := yoe + era * 400 + (if m <=? 2 then 1 else 0) in
  four_digits y +:+ two_digits m +:+ two_digits d +:+ two_digits hour.

(** *** Rollup: events of bucket 2025110110 *)

(** 2025-11-01T10:00:00Z *)
Definition t0 : Z := 1761991200.
Definition bucket : string := "2025110110".

Definition entity (name type : string) : pyval :=
  PDict [("name", PStr name); ("type", PStr type)].

Definition event (country : string) (entities : list pyval) : doc :=
  {[ "title" := PStr "headline"; "country" := PStr country;
     "time" := PTime t0; "entities" := PList entities ]}.

(** Scenario A: one event mentions NASA, the other NASA and FAA. *)
Definition event_1 : doc := event "USA" [entity "NASA" "ORGANIZATION"].
Definition event_2 : doc :=
  event "USA" [entity "NASA" "ORGANIZATION"; entity "FAA" "ORGANIZATION"].

(** An event that lists the same entity under two spellings. *)
Definition event_twice : doc :=
  event "USA" [entity "NASA" "ORGANIZATION"; entity "nasa" "ORGANIZATION"].

(** An event without a timestamp. *)
Definition event_untimed : doc :=
  {[ "title" := PStr "headline"; "country" := PStr "USA";
     "entities" := PList [entity "NASA" "ORGANIZATION"] ]}.

Definition ref_1 : path := ["articles"; "a1"].
Definition ref_2 : path := ["articles"; "a2"].

Definition E0 : env := {| now := t0; commit_time := t0 + 5; read_error := None |}.
Definition E1 : env := {| now := t0 + 60; commit_time := t0 + 65; read_error := None |}.
Definition E_unreadable : env :=
  {| now := t0; commit_time := t0 + 5;
     read_error := Some (StoreError "permission denied") |}.

Definition db_A : db := {[ ref_1 := event_1; ref_2 := event_2 ]}.
Definition db_twice : db := {[ ref_1 := event_twice ]}.
Definition db_untimed : db := {[ ref_1 := event_untimed ]}.

Definition rollup (E : env) (s : db) (ref : path) : db * result unit :=
  apply_for_article slug_plain upper_plain no_isoformat strftime_hour default_paths
    E s ref.

(** The store after both events of scenario A were rolled up. *)
Definition db_A_rolled : db := (rollup E1 (rollup E0 db_A ref_1).1 ref_2).1.

(** The store after only the second event was rolled up: NASA and FAA
    both stand at one mention. *)
Definition db_tie : db := (rollup E0 db_A ref_2).1.

Definition entities_twice : list pyval :=
  [entity "NASA" "ORGANIZATION"; entity "nasa" "ORGANIZATION"].

(** The contents of a store, document by document and field by field. *)
Definition dump (s : db) : list (path * list (string * pyval)) :=
  map (fun pd => (pd.1, map_to_list pd.2)) (map_to_list s).

(** *** Cache: scenarios B and C *)

Definition record (id country : string) (names : list string) (t : Z) : doc :=
  {[ "id" := PStr id; "country" := PStr country;
     "entityNameSlug" := PList (map PStr names); "time" := PTime t ]}.

Definition r1 : doc := record "r1" "USA" ["NASA"] (t0 + 10).
Definition r2 : doc := record "r2" "USA" ["NASA"; "FAA"] (t0 + 20).
Definition r3 : doc := record "r3" "USA" ["Boeing"; "NASA"] (t0 + 30).
Definition r4 : doc := record "r4" "USA" ["FAA"] (t0 + 40).
Definition r5 : doc := record "r5" "USA" [] (t0 + 50).
Definition r6 : doc := record "r6" "USA" ["Boeing"] (t0 + 60).

(** Scenario B: five records under the country-only key, three of them
    mention NASA. *)
Definition store_B : cache := {[ _key bucket (Some "USA") None := [r1; r2; r3; r4; r5] ]}.
(** Scenario C: only two of the five do. *)
Definition store_C : cache := {[ _key bucket (Some "USA") None := [r1; r2; r6; r4; r5] ]}.

(** The caller's snapshot: three NASA events in the USA. *)
Definition breakdown_nasa : gmap string Z := {[ "USA" := 3 ]}.
Definition global_tops : list (string * Z) := [("NASA", 3); ("FAA", 2)].

Definition loader_ok (q : fetch) : result (list article) := Ok [r3; r2; r1].
Definition loader_down (q : fetch) : result (list article) :=
  Raise (StoreError "deadline exceeded").

(** The [id] fields of the rows an answer carries. *)
Definition ids (r : result (list article)) : result (list pyval) :=
  bind r (fun rows => Ok (map (fun row => doc_get row "id") rows)).

Definition cache_get (loader : fetch -> result (list article)) (store : cache)
    (hour : string) (country entity : option string)
    (entity_breakdown_by_iso : option (gmap string Z)) : outcome :=
  get str_plain lower_plain no_datetime no_unordered loader store hour
    country entity None entity_breakdown_by_iso (Some global_tops) 3.

End Scenarios.

(* ===================================================================== *)
(** ** Cache keys *)
(* ===================================================================== *)

Module CacheKeys.

(** The string holds no ['|'], the separator [_key] joins its parts with. *)
Fixpoint pipe_free (s : string) : bool :=
  match s with
  | EmptyString => true
  | String c r => negb (Ascii.eqb c "|") && pipe_free r
  end.

End CacheKeys.


(* ===================================================================== *)
(** ** Rollup: further notions *)
(* ===================================================================== *)

Module RollupNotions.
Import FirestoreRollup.

(** The two breakdown families hold the same fact: the cell of an entity
    under a country equals the cell of the country under the entity. *)
Definition mirrored (paths : RollupPaths) (s : db) : Prop :=
  forall hour eid country,
    EntityCountryBreakdown paths s hour eid country
    = CountryEntityBreakdown paths s hour country eid.

(** No counter of [s] is larger than it is in [s']. *)
Definition counters_le (paths : RollupPaths) (s s' : db) : Prop :=
  forall hour country eid,
    CountryTotal paths s hour country <= CountryTotal paths s' hour country /\
    EntityTotal paths s hour eid <= EntityTotal paths s' hour eid /\
    EntityCountryBreakdown paths s hour eid country
    <= EntityCountryBreakdown paths s' hour eid country /\
    CountryEntityBreakdown paths s hour country eid
    <= CountryEntityBreakdown paths s' hour country eid.

(** The path lies in the collection [root]. *)
Definition under_root (root : string) (p : path) : bool :=
  match p with
  | r :: _ => String.eqb r root
  | [] => false
  end.

(** An entry the loop body gets through: nothing, or a dict whose name is
    nothing or a string. *)
Definition passable_entity (ent : pyval) : bool :=
  negb (truthy ent)
  || match ent with
     | PDict d =>
         negb (truthy (assoc_get d "name"))
         || match assoc_get d "name" with PStr _ => true | _ => false end
     | _ => false
     end.

(** ASCII upper-case letters. *)
Definition is_upper (c : ascii) : bool :=
  let n := nat_of_ascii c in ((65 <=? n) && (n <=? 90))%nat.

(** The characters a slug is made of: word characters other than ASCII
    capitals, and the hyphen. *)
Definition slug_char (c : ascii) : bool :=
  (is_word c || Ascii.eqb c "-") && negb (is_upper c).

(** *** The shape of the documents below the mentions root *)

Definition int_or_absent (o : option pyval) : bool :=
  match o with
  | Some (PInt _) | None => true
  | _ => false
  end.

Definition str_or_absent (o : option pyval) : bool :=
  match o with
  | Some (PStr _) | None => true
  | _ => false
  end.

(** The [country] field, when there is one, is the identifier of the
    document. *)
Definition country_is_id (p : path) (o : option pyval) : bool :=
  match o with
  | Some (PStr c) => bool_decide (last p = Some c)
  | None => true
  | _ => false
  end.

(** A document as the rollup leaves it: integer counters, string names,
    and a [country] that repeats the document's identifier. *)
Definition doc_typed (p : path) (d : doc) : bool :=
  int_or_absent (d !! "total") && int_or_absent (d !! "count")
  && str_or_absent (d !! "entity") && str_or_absent (d !! "entityId")
  && country_is_id p (d !! "country").

Definition rollup_typed (paths : RollupPaths) (s : db) : Prop :=
  forall p d, s !! p = Some d ->
    under_root (mentions_root paths) p = true -> doc_typed p d = true.

(** What a write may carry for the five fields of [doc_typed]. *)
Definition typed_field (p : path) (kv : string * field_value) : bool :=
  if String.eqb kv.1 "total" || String.eqb kv.1 "count" then
    match kv.2 with Increment _ => true | _ => false end
  else if String.eqb kv.1 "entity" || String.eqb kv.1 "entityId" then
    match kv.2 with Value (PStr _) => true | _ => false end
  else if String.eqb kv.1 "country" then
    match kv.2 with
    | Value (PStr c) => bool_decide (last p = Some c)
    | _ => false
    end
  else true.

Definition typed_write (w : write) : bool :=
  forallb (typed_field (w_ref w)) (w_fields w).

End RollupNotions.


(* ===================================================================== *)
(** ** FirestoreWriter  (news_processor/firestore_writer.py) *)
(* ===================================================================== *)

Module FirestoreWriter.
Import FirestoreRollup.

(** The keyword arguments of [write_article]. [entities_canonical] is a
    dict of dicts, listed in insertion order. *)
Record article_args : Type := ArticleArgs {
  title : string;
  text : string;
  country : option string;
  time_val : pyval;
  entities_canonical : list (string * list (string * pyval));
  url : option string;
  extra_fields : option (list (string * pyval));
  doc_id : option string
}.

(** What one call of [write_article] meets: the commit time of its own
    transaction, whether the store refuses its read of the document, and
    the environment of the rollup call that follows. *)
Record wenv : Type := WEnv {
  write_commit_time : Z;
  write_read_error : option exn;
  rollup_env : env
}.

(** [payload[k] = fv] on an insertion-ordered dict. *)
Fixpoint field_set (k : string) (fv : field_value)
    (payload : list (string * field_value)) : list (string * field_value) :=
  match payload with
  | [] => [(k, fv)]
  | (k', fv') :: rest =>
      if String.eqb k' k then (k, fv) :: rest
      else (k', fv') :: field_set k fv rest
  end.

(** [payload.update(extra_fields)] *)
Definition fields_update (payload : list (string * field_value))
    (extras : list (string * pyval)) : list (string * field_value) :=
  foldl (fun p kv => field_set kv.1 (Value kv.2) p) payload extras.

(** The value a field takes in a document written without merge. *)
Definition new_value (commit_time : Z) (fv : field_value) : pyval :=
  match fv with
  | Value v => v
  | Increment n => PInt n
  | SERVER_TIMESTAMP => PTime commit_time
  end.

(** [tx.set(ref, fields, merge=False)]: the document is exactly the
    fields. *)
Definition create_doc (commit_time : Z) (fields : list (string * field_value))
    : doc :=
  foldl (fun d kv => <[kv.1 := new_value commit_time kv.2]> d) ∅ fields.

(** [_normalize_entities] *)
Definition normalize_entity (meta : list (string * pyval)) : option pyval :=
  let name := assoc_get meta "name" in
  if negb (truthy name) then None
  else Some (PDict [("name", name);
                    ("type", py_or (assoc_get meta "type") (PStr "OTHER"))]).

Definition _normalize_entities
    (canonical : list (string * list (string * pyval))) : list pyval :=
  omap (fun km => normalize_entity km.2) canonical.

(** [_tx_write]: merge into the document when it is there, create it with
    [created_at] when it is not. *)
Definition _tx_write (commit_time : Z) (s : db) (doc_ref : path)
    (payload : list (string * field_value)) : db :=
  match s !! doc_ref with
  | Some _ => apply_write commit_time s (Write doc_ref payload)
  | None =>
      <[doc_ref := create_doc commit_time
                     (field_set "created_at" SERVER_TIMESTAMP payload)]> s
  end.

Section WithLibraries.

(** [slugify] on a string that is not ASCII. *)
Variable slugify_unicode : string -> Z -> string.
Variable upper_unicode : string -> string.
(** [datetime.fromisoformat]; [None] when it raises [ValueError]. *)
Variable fromisoformat : string -> option Z.
(** [dt.strftime(fmt)] *)
Variable strftime : string -> Z -> string.
(** [hashlib.sha256(s.encode("utf-8")).hexdigest()] *)
Variable sha256_hex : string -> string.
(** The collection the writer was built for, and the paths of its rollup. *)
Variable collection : string.
Variable paths : RollupPaths.

(** [_parse_time_to_utc] *)
Definition _parse_time_to_utc (v : pyval) : result Z :=
  match v with
  | PTime t => Ok t
  | PStr s =>
      match fromisoformat (replace_Z s) with
      | Some t => Ok t
      | None => Raise ValueError
      end
  | _ => Raise TypeError
  end.

(** [_deterministic_article_id] *)
Definition _deterministic_article_id (url : option string) (title : string)
    (dt_utc : Z) : string :=
  let basis :=
    if opt_truthy url then opt_str url
    else title +:+ "||" +:+ hour_bucket strftime dt_utc in
  String.substring 0 32 (sha256_hex basis).

(** The document identifier a call resolves to. *)
Definition used_doc_id (a : article_args) (dt_utc : Z) : string :=
  if opt_truthy (doc_id a) then opt_str (doc_id a)
  else _deterministic_article_id (url a) (title a) dt_utc.

Definition doc_ref_of (a : article_args) (dt_utc : Z) : path :=
  [collection; used_doc_id a dt_utc].

(** The payload of [write_article]. *)
Definition payload_of (a : article_args) (dt_utc : Z)
    : list (string * field_value) :=
  let entities := _normalize_entities (entities_canonical a) in
  let entity_names := map (fun e => match e with
                                    | PDict d => assoc_get d "name"
                                    | _ => PNone
                                    end) entities in
  let payload :=
    [ ("title", Value (PStr (title a)));
      ("text", Value (PStr (text a)));
      ("country", Value (PStr (str_upper upper_unicode (opt_str (country a)))));
      ("time", Value (PTime dt_utc));
      ("entities", Value (PList entities));
      ("entityNameSlug", Value (PList entity_names));
      ("url", Value (PStr (opt_str (url a))));
      ("updated_at", SERVER_TIMESTAMP) ] in
  match extra_fields a with
  | Some (x :: xs) => fields_update payload (x :: xs)
  | _ => payload
  end.

(** [write_article]: store the article, then roll it up. *)
Definition write_article (W : wenv) (s : db) (a : article_args)
    : db * result string :=
  match _parse_time_to_utc (time_val a) with
  | Raise e => (s, Raise e)
  | Ok dt_utc =>
      let doc_ref := doc_ref_of a dt_utc in
      match write_read_error W with
      | Some e => (s, Raise e)
      | None =>
          let s1 := _tx_write (write_commit_time W) s doc_ref
                      (payload_of a dt_utc) in
          let r := apply_for_article slugify_unicode upper_unicode
              fromisoformat strftime paths
                     (rollup_env W) s1 doc_ref in
          match r.2 with
          | Ok _ => (r.1, Ok (used_doc_id a dt_utc))
          | Raise e => (r.1, Raise e)
          end
      end
  end.

(** The country code an article is counted under: what the writer stores,
    [(country or "").upper()], as the rollup reads it,
    [(stored or "XX").upper()]. *)
Definition counted_country (a : article_args) : string :=
  let stored := str_upper upper_unicode (opt_str (country a)) in
  str_upper upper_unicode (if str_truthy stored then stored else "XX").

(** The names of the canonical entities that carry one. *)
Definition canonical_names (canonical : list (string * list (string * pyval)))
    : list pyval :=
  List.filter truthy (map (fun km => assoc_get km.2 "name") canonical).

Definition is_str (v : pyval) : bool :=
  match v with PStr _ => true | _ => false end.

Definition slug_of (v : pyval) : string :=
  match v with PStr n => slugify slugify_unicode n 128 | _ => "" end.

End WithLibraries.

End FirestoreWriter.


(* ===================================================================== *)
(** ** NewsDataLoader: the other queries  (news_atlas/news_data_loader.py) *)
(* ===================================================================== *)

Module NewsDataLoaderQueries.
Import SmartArticleCache NewsDataLoader.

(** [\d] on an ASCII character: a digit. *)
Definition is_digit (c : ascii) : bool :=
  let n := nat_of_ascii c in ((48 <=? n) && (n <=? 57))%nat.

(** [sorted(l)] and [sort_index()]: ascending, and elements that neither
    precede the other keep their relative order. *)
Definition sorted_asc_by {A} (lt : A -> A -> bool) (l : list A) : list A :=
  sorted_desc_by (fun x y => lt y x) l.

Section Hours.

(** [re.fullmatch(r"\d{10}", h)] on an identifier that is not ASCII: [\d]
    is any decimal digit of Unicode. *)
Variable ten_digits_unicode : string -> bool.

(** [re.fullmatch(r"\d{10}", h)] *)
Definition is_hour_id (h : string) : bool :=
  if is_ascii h
  then (String.length h =? 10)%nat && forallb is_digit (list_ascii_of_string h)
  else ten_digits_unicode h.

(** [list_hours]: the identifiers of the documents of [/mentions] that are
    ten digits, in ascending order. *)
Definition list_hours (s : db) : list string :=
  let hours := map fst (collection_docs s ["mentions"]) in
  let hours := List.filter is_hour_id hours in
  sorted_asc_by String.ltb hours.

End Hours.

(** A query filter [where(k, "==", v)] for a string [v]. *)
Definition field_is (k v : string) (d : doc) : bool :=
  py_eq_str (doc_get d k) v.

(** A query filter [FieldFilter(k, "array_contains", v)]. *)
Definition array_contains (k v : string) (d : doc) : bool :=
  match doc_get d k with
  | PList l => existsb (fun x => py_eq_str x v) l
  | _ => false
  end.

(** [q.limit(int(limit))] when a limit is given; the store rejects a
    negative one. *)
Definition limited {A} (limit : option Z) (l : list A) : result (list A) :=
  match limit with
  | None => Ok l
  | Some n =>
      if n <? 0 then Raise (StoreError "limit is negative")
      else Ok (take (Z.to_nat n) l)
  end.

(** [load_articles].  A row is [{"id": snap.id, **dd}]: the document's own
    fields come last and win. *)
Definition load_articles (s : db) (hour : string) (country entity : option string)
    (limit : option Z) : result (list article) :=
  let q := List.filter (fun x => field_is "hour" hour x.2)
             (collection_docs s ["articles"]) in
  let q := if opt_truthy country
           then List.filter (fun x => field_is "country" (opt_str country) x.2) q
           else q in
  let q := if opt_truthy entity
           then List.filter
                  (fun x => array_contains "entityNameSlug" (opt_str entity) x.2) q
           else q in
  bind (limited limit q) (fun docs =>
  Ok (map (fun x => (x.2 : doc) ∪ {[ "id" := PStr x.1 ]}) docs)).

(** The loader a cache call is handed, over a store. *)
Definition loader_of (s : db) (q : fetch) : result (list article) :=
  load_articles s (f_hour q) (f_country q) (f_entity q) (Some (f_limit q)).

(** [data[iso3] = total] on an insertion-ordered dict with string keys. *)
Fixpoint sdict_set (k : string) (v : Z) (data : list (string * Z))
    : list (string * Z) :=
  match data with
  | [] => [(k, v)]
  | (k', v') :: rest =>
      if String.eqb k' k then (k', v) :: rest else (k', v') :: sdict_set k v rest
  end.

(** The kinds of index values [sort_index] can order among themselves. *)
Inductive key_kind : Type := KStr | KNum | KTime | KOther.

Definition kind_of (v : pyval) : key_kind :=
  match v with
  | PStr _ => KStr
  | PInt _ | PBool _ => KNum
  | PTime _ => KTime
  | _ => KOther
  end.

Definition kind_eqb (a b : key_kind) : bool :=
  match a, b with
  | KStr, KStr | KNum, KNum | KTime, KTime => true
  | _, _ => false
  end.

Definition num_of (v : pyval) : Z :=
  match v with
  | PInt z => z
  | PBool true => 1
  | PTime t => t
  | _ => 0
  end.

(** [<] between two index values of one kind. *)
Definition key_ltb (a b : pyval) : bool :=
  match a, b with
  | PStr x, PStr y => String.ltb x y
  | _, _ => num_of a <? num_of b
  end.

(** [Series.sort_index()]: with fewer than two rows nothing is compared;
    otherwise the keys must be of one kind, or the comparison raises. *)
Definition sort_index (rows : list (pyval * Z)) : result (list (pyval * Z)) :=
  match rows with
  | [] | [_] => Ok rows
  | r :: _ =>
      if forallb (fun x => kind_eqb (kind_of x.1) (kind_of r.1)) rows
      then Ok (sorted_asc_by (fun x y => key_ltb x.1 y.1) rows)
      else Raise TypeError
  end.

(** A breakdown document as the rollup writes it under an entity: an
    integer [count], and a [country] that is the document's identifier;
    each possibly absent. *)
Definition breakdown_shaped (x : string * doc) : bool :=
  match x.2 !! "count" with
  | Some (PInt _) | None => true
  | _ => false
  end
  && match x.2 !! "country" with
     | Some (PStr c) => String.eqb c x.1
     | None => true
     | _ => false
     end.

(** A breakdown document as the rollup writes it under a country: an
    integer [count], and strings [entity] and [entityId]; each possibly
    absent. *)
Definition count_shaped (x : string * doc) : bool :=
  match x.2 !! "count" with
  | Some (PInt _) | None => true
  | _ => false
  end
  && match x.2 !! "entity" with
     | Some (PStr _) | None => true
     | _ => false
     end
  && match x.2 !! "entityId" with
     | Some (PStr _) | None => true
     | _ => false
     end.

(** A country document whose [total] is an integer or absent. *)
Definition total_shaped (x : string * doc) : bool :=
  match x.2 !! "total" with
  | Some (PInt _) | None => true
  | _ => false
  end.

Section WithLibraries.

(** [slugify] on a string that is not ASCII. *)
Variable slugify_unicode : string -> Z -> string.
(** [int(s)] on a string; [None] when it raises [ValueError]. *)
Variable int_of_str : string -> option Z.
(** The order Firestore sorts field values by. *)
Variable fs_ltb : pyval -> pyval -> bool.

(** [country_totals]: the series as the list of its (index, value) rows. *)
Fixpoint fill_totals (docs : list (string * doc)) (data : list (string * Z))
    : result (list (string * Z)) :=
  match docs with
  | [] => Ok data
  | (iso3, dd) :: rest =>
      bind (py_int int_of_str (py_or (doc_get dd "total") (PInt 0))) (fun total =>
      fill_totals rest (sdict_set iso3 total data))
  end.

Definition country_totals (s : db) (hour : string) : result (list (string * Z)) :=
  bind (fill_totals (collection_docs s ["mentions"; hour; "countries"]) [])
    (fun data => Ok (sorted_asc_by (fun x y => String.ltb x.1 y.1) data)).

(** [.collection("countries").document(iso3).collection("entities")
      .order_by("count", direction=DESCENDING).limit(limit).stream()] *)
Definition entities_by_count (s : db) (hour iso3 : string) (limit : Z)
    : result (list (string * doc)) :=
  if limit <? 0 then Raise (StoreError "limit is negative")
  else
    let docs :=
      collection_docs s ["mentions"; hour; "countries"; iso3; "entities"] in
    let with_count :=
      List.filter (fun d => bool_decide (is_Some (d.2 !! "count"))) docs in
    let ordered :=
      sorted_desc_by
        (fun a b => fs_ltb (doc_get a.2 "count") (doc_get b.2 "count"))
        with_count in
    Ok (take (Z.to_nat limit) ordered).

Fixpoint fill_counts (docs : list (string * doc)) (data : list (pyval * Z))
    : result (list (pyval * Z)) :=
  match docs with
  | [] => Ok data
  | (id, dd) :: rest =>
      let name := py_or (doc_get dd "entity")
                    (py_or (doc_get dd "entityId") (PStr id)) in
      bind (py_int int_of_str (py_or (doc_get dd "count") (PInt 0))) (fun count =>
      if 0 <? count then
        if hashable name then fill_counts rest (dict_set name count data)
        else Raise TypeError
      else fill_counts rest data)
  end.

(** [top_entities_by_country] *)
Definition top_entities_by_country (s : db) (hour iso3 : string) (limit : Z)
    : result (list (pyval * Z)) :=
  bind (entities_by_count s hour iso3 limit) (fun docs =>
  bind (fill_counts docs []) (fun data =>
  Ok (sorted_desc snd data))).

Fixpoint fill_breakdown (docs : list (string * doc)) (data : list (pyval * Z))
    : result (list (pyval * Z)) :=
  match docs with
  | [] => Ok data
  | (id, dd) :: rest =>
      let iso3 := py_or (doc_get dd "country") (PStr id) in
      bind (py_int int_of_str (py_or (doc_get dd "count") (PInt 0))) (fun count =>
      if hashable iso3 then fill_breakdown rest (dict_set iso3 count data)
      else Raise TypeError)
  end.

(** [country_breakdown_for_entity] *)
Definition country_breakdown_for_entity (s : db) (hour entity_name : string)
    : result (list (pyval * Z)) :=
  let eid := FirestoreRollup.slugify slugify_unicode entity_name 128 in
  bind (fill_breakdown
          (collection_docs s ["mentions"; hour; "entities"; eid; "countries"]) [])
    sort_index.

End WithLibraries.

End NewsDataLoaderQueries.


(* ===================================================================== *)
(** ** Further scenarios: a delivery through the writer, a malformed event *)
(* ===================================================================== *)

Module MoreScenarios.
Import SmartArticleCache FirestoreRollup NewsDataLoader Scenarios.
Import FirestoreWriter NewsDataLoaderQueries.

(** A stand-in for SHA-256; the deliveries below name their document. *)
Definition sha_plain (s : string) : string := s.

(** One delivery of an article about NASA from the USA. *)
Definition delivery : article_args :=
  {| title := "headline"; text := ""; country := Some "usa";
     time_val := PTime t0;
     entities_canonical :=
       [("NASA", [("type", PStr "ORGANIZATION"); ("name", PStr "NASA")])];
     url := Some "http://example.org/a1";
     extra_fields := None;
     doc_id := Some "a1" |}.

Definition W0 : wenv :=
  {| write_commit_time := t0 + 1; write_read_error := None; rollup_env := E0 |}.
Definition W1 : wenv :=
  {| write_commit_time := t0 + 61; write_read_error := None; rollup_env := E1 |}.

Definition deliver (W : wenv) (s : db) (a : article_args) : db * result string :=
  write_article slug_plain upper_plain no_isoformat strftime_hour sha_plain "articles"
    default_paths W s a.

(** The store after the delivery. *)
Definition db_delivered : db := (deliver W0 ∅ delivery).1.

(** An event whose second entity is a number. *)
Definition event_malformed : doc :=
  event "USA" [entity "NASA" "ORGANIZATION"; PInt 7].
Definition db_malformed : db := {[ ref_1 := event_malformed ]}.

(** The two calls of scenario A. *)
Definition calls_A : list (env * path) := [(E0, ref_1); (E1, ref_2)].

(** A cache call over the store, on an empty cache. *)
Definition cache_over (s : db) (store : cache) (hour : string)
    (country entity : option string) : outcome :=
  get str_plain lower_plain no_datetime no_unordered (loader_of s) store
    hour country entity None None None 3.

End MoreScenarios.


(* ===================================================================== *)
(** ** EntityExtractor  (news_processor/entity_extractor.py) *)
(* ===================================================================== *)

Module EntityExtractor.
Import NewsDataLoader.

(** What [build] can raise: the [KeyError] of a subscript, or one of the
    exceptions of the builtins. *)
Inductive build_exn : Type :=
| KeyError (k : string)
| Builtin (e : exn).

Inductive attempt (A : Type) : Type :=
| Done (a : A)
| Fails (e : build_exn).
Arguments Done {A} a.
Arguments Fails {A} e.

Definition and_then {A B} (x : attempt A) (f : A -> attempt B) : attempt B :=
  match x with
  | Done a => f a
  | Fails e => Fails e
  end.

(** [ENTITY_TYPE_FILTER] *)
Definition ENTITY_TYPE_FILTER : list string :=
  ["PERSON"; "LOCATION"; "ORGANIZATION"].

(** The value stored for a name: [{"type": ..., "name": ...}]. *)
Abbreviation meta := (list (string * pyval)).

(** [e.get(k)]: only a dict has the method. *)
Definition e_get (e : pyval) (k : string) : attempt pyval :=
  match e with
  | PDict d => Done (assoc_get d k)
  | _ => Fails (Builtin AttributeError)
  end.

(** [e[k]] with a string [k]. *)
Definition e_item (e : pyval) (k : string) : attempt pyval :=
  match e with
  | PDict d =>
      match assoc_find d k with
      | Some v => Done v
      | None => Fails (KeyError k)
      end
  | _ => Fails (Builtin TypeError)
  end.

(** [x in self.ENTITY_TYPE_FILTER]: the set hashes [x] first. *)
Definition in_filter (x : pyval) : attempt bool :=
  if hashable x then
    Done match x with
         | PStr t => existsb (String.eqb t) ENTITY_TYPE_FILTER
         | _ => false
         end
  else Fails (Builtin TypeError).

(** [k in s] on strings. *)
Definition is_substring (k s : string) : bool :=
  match String.index 0 k s with
  | Some _ => true
  | None => false
  end.

(** [k in m] for a string [k]: a key of a dict, an element of a list, a
    substring of a string; nothing else can be searched. *)
Definition contains (k : string) (m : pyval) : attempt bool :=
  match m with
  | PDict d => Done (existsb (fun kv : string * pyval => String.eqb kv.1 k) d)
  | PList l => Done (existsb (fun v => py_eq_str v k) l)
  | PStr s => Done (is_substring k s)
  | _ => Fails (Builtin TypeError)
  end.

(** The condition of the comprehension, with its short circuits. *)
Definition accepted (e : pyval) : attempt bool :=
  and_then (e_get e "type") (fun t =>
  and_then (in_filter t) (fun ok =>
  if negb ok then Done false
  else
    and_then (e_item e "metadata") (fun m =>
    and_then (contains "wikipedia_url" m) (fun w =>
    if w then Done true
    else and_then (e_item e "metadata") (fun m' => contains "mid" m'))))).

(** [[e for e in api_ents if ...]] *)
Fixpoint accepted_ents (api_ents : list pyval) : attempt (list pyval) :=
  match api_ents with
  | [] => Done []
  | e :: rest =>
      and_then (accepted e) (fun ok =>
      and_then (accepted_ents rest) (fun r =>
      Done (if ok then e :: r else r)))
  end.

(** [name in canonical] *)
Definition has_key (name : pyval) (canonical : list (pyval * meta)) : bool :=
  existsb (fun kv : pyval * meta => key_eqb kv.1 name) canonical.

(** The loop that fills [canonical]: the first entity of a name wins. *)
Fixpoint fill_canonical (ents : list pyval) (canonical : list (pyval * meta))
    : attempt (list (pyval * meta)) :=
  match ents with
  | [] => Done canonical
  | e :: rest =>
      and_then (e_item e "name") (fun name =>
      if negb (hashable name) then Fails (Builtin TypeError)
      else if has_key name canonical then fill_canonical rest canonical
      else
        and_then (e_get e "type") (fun t =>
        fill_canonical rest
          (canonical ++ [(name, [("type", py_or t (PStr "OTHER"));
                                 ("name", name)])])%list))
  end.

(** [build], on the list [self.api.extract_entities(text)] returned. *)
Definition build (api_ents : list pyval) : attempt (list (pyval * meta)) :=
  and_then (accepted_ents api_ents) (fun ents => fill_canonical ents []).

(** No two keys of the table are equal. *)
Fixpoint distinct_keys (canonical : list (pyval * meta)) : bool :=
  match canonical with
  | [] => true
  | kv :: rest => negb (has_key kv.1 rest) && distinct_keys rest
  end.

(** An entity the extractor can take: a dict with a hashable type; and,
    when the type is one of the filter, with metadata that can be searched
    and a hashable name. *)
Definition well_formed (e : pyval) : bool :=
  match e with
  | PDict d =>
      hashable (assoc_get d "type")
      && (negb (match assoc_get d "type" with
                | PStr t => existsb (String.eqb t) ENTITY_TYPE_FILTER
                | _ => false
                end)
          || (match assoc_find d "metadata" with
              | Some (PDict _) | Some (PList _) | Some (PStr _) => true
              | _ => false
              end
              && match assoc_find d "name" with
                 | Some name => hashable name
                 | None => false
                 end))
  | _ => false
  end.

(** Entities as the entities endpoint describes them. *)
Definition api_entity (name type : string) (metadata : list (string * pyval))
    : pyval :=
  PDict [("name", PStr name); ("type", PStr type); ("metadata", PDict metadata)].

Definition wiki : list (string * pyval) :=
  [("wikipedia_url", PStr "https://en.wikipedia.org/wiki/NASA")].

(** NASA twice, a common noun, and a person known by a graph id only. *)
Definition api_ents_1 : list pyval :=
  [ api_entity "NASA" "ORGANIZATION" wiki;
    api_entity "agency" "OTHER" [];
    api_entity "NASA" "LOCATION" wiki;
    api_entity "Bill Nelson" "PERSON" [("mid", PStr "/m/01abc")] ].

(** An organisation that comes without metadata. *)
Definition api_ents_2 : list pyval :=
  [ api_entity "NASA" "ORGANIZATION" wiki;
    PDict [("name", PStr "FAA"); ("type", PStr "ORGANIZATION")] ].

(** The table [build] makes of the first list, and the argument the
    writer is handed for it. *)
Definition table_1 : list (pyval * meta) :=
  [ (PStr "NASA", [("type", PStr "ORGANIZATION"); ("name", PStr "NASA")]);
    (PStr "Bill Nelson", [("type", PStr "PERSON"); ("name", PStr "Bill Nelson")]) ].

Definition canonical_1 : list (string * meta) :=
  [ ("NASA", [("type", PStr "ORGANIZATION"); ("name", PStr "NASA")]);
    ("Bill Nelson", [("type", PStr "PERSON"); ("name", PStr "Bill Nelson")]) ].

End EntityExtractor.


(* ===================================================================== *)
(** ** AIAPILoader.extract_entities  (news_processor/ai_api_loader.py) *)
(* ===================================================================== *)

Module AIAPILoader.
Import FirestoreRollup EntityExtractor.

Section WithLibraries.

(** [s.strip()] for a string that is not ASCII, where the white space
    removed is Unicode's. *)
Variable strip_unicode : string -> string.
(** [float(s)], and [None] when it raises. *)
Variable float_or_None : string -> pyval.

(** [s.strip()] *)
Definition strip_str (s : string) : string :=
  if is_ascii s then string_of_list_ascii (strip (list_ascii_of_string s))
  else strip_unicode s.

(** [ln.split(":", 1)[1]]: what follows the first colon.  [None] stands
    for the [IndexError] of a line without one. *)
Fixpoint after_colon (s : string) : option string :=
  match s with
  | EmptyString => None
  | String c r => if Ascii.eqb c ":" then Some r else after_colon r
  end.

(** [ln.split(":", 1)[1].strip()] *)
Definition field_text (ln : string) : option string :=
  strip_str <$> after_colon ln.

(** The two variables of the loop: the entities emitted so far and the
    dict being filled. *)
Record state : Type := State {
  ents : list pyval;
  cur : list (string * pyval)
}.

(** [flush()] *)
Definition flush (st : state) : state :=
  match cur st with
  | [] => st
  | _ :: _ => {| ents := (ents st ++ [PDict (cur st)])%list; cur := [] |}
  end.

(** [cur[k] = v] *)
Definition set_cur (st : state) (k : string) (v : pyval) : state :=
  {| ents := ents st; cur := assoc_set k v (cur st) |}.

(** [cur["mentions"][-1]["type"] = t]; [None] when the list has no last
    element that is a dict. *)
Definition set_last_type (l : list pyval) (t : string) : option (list pyval) :=
  match last l with
  | Some (PDict d) => Some (removelast l ++ [PDict (assoc_set "type" (PStr t) d)])%list
  | _ => None
  end.

(** The filter of the extractor on an entity's type. *)
Definition filtered_type (e : pyval) : bool :=
  match e with
  | PDict d =>
      match assoc_get d "type" with
      | PStr t => existsb (String.eqb t) ENTITY_TYPE_FILTER
      | _ => false
      end
  | _ => false
  end.

(** An entity as the parser emits it. *)
Definition parsed_entity (e : pyval) : bool :=
  match e with
  | PDict d =>
      match d with [] => false | _ :: _ => true end
      && bool_decide (assoc_find d "metadata" = None)
      && bool_decide (assoc_find d "name" = None)
      && match assoc_find d "type" with
         | Some (PStr _) | None => true
         | _ => false
         end
  | _ => false
  end.

(** The dict being filled never holds [name] or [metadata]; its [type] is
    a string and its [mentions] a list of dicts. *)
Definition cur_ok (c : list (string * pyval)) : Prop :=
  assoc_find c "metadata" = None /\ assoc_find c "name" = None
  /\ match assoc_find c "type" with
     | Some (PStr _) | None => True
     | _ => False
     end
  /\ match assoc_find c "mentions" with
     | Some (PList l) => Forall (fun m => exists d, m = PDict d) l
     | None => True
     | _ => False
     end.

(** The body of [for ln in lines]; [None] when it raises. *)
Definition step (st : state) (ln : string) : option state :=
  if String.prefix "Representative name for the entity:" ln then
    t ← field_text ln;
    Some (set_cur (flush st) "rep_name" (PStr t))
  else if String.prefix "Entity type:" ln then
    t ← field_text ln;
    Some (set_cur st "type" (PStr t))
  else if String.prefix "Salience score:" ln then
    Some (set_cur st "salience"
            match field_text ln with
            | Some t => float_or_None t
            | None => PNone
            end)
  else if String.prefix "Mention text:" ln then
    match default (PList []) (assoc_find (cur st) "mentions") with
    | PList l =>
        t ← field_text ln;
        Some (set_cur st "mentions"
                (PList (l ++ [PDict [("text", PStr t)]])%list))
    | _ => None
    end
  else if String.prefix "Mention type:" ln then
    match assoc_find (cur st) "mentions" with
    | Some m =>
        if truthy m then
          t ← field_text ln;
          match m with
          | PList l =>
              l' ← set_last_type l t;
              Some (set_cur st "mentions" (PList l'))
          | _ => None
          end
        else Some st
    | None => Some st
    end
  else Some st.

Fixpoint run (st : state) (lines : list string) : option state :=
  match lines with
  | [] => Some st
  | ln :: rest => st' ← step st ln; run st' rest
  end.

(** [[ln.strip() for ln in raw.splitlines() if ln.strip()]] *)
Definition clean (lines : list string) : list string :=
  List.filter str_truthy (map strip_str lines).

(** The plaintext branch of [extract_entities], from [raw.splitlines()]
    on. *)
Definition parse_entities (lines : list string) : option (list pyval) :=
  st ← run {| ents := []; cur := [] |} (clean lines);
  Some (ents (flush st)).

End WithLibraries.

(** *** A plaintext answer *)

Definition no_float (s : string) : pyval := PNone.
Definition strip_plain (s : string) : string := s.

Definition answer_1 : list string :=
  [ "Representative name for the entity: NASA";
    "Entity type: ORGANIZATION";
    "Salience score: 0.9";
    "Mention text: NASA";
    "Mention type: PROPER";
    "";
    "Representative name for the entity: launch";
    "Entity type: EVENT" ].

Definition answer_2 : list string :=
  [ "Representative name for the entity: launch";
    "Entity type: EVENT";
    "  Mention text: launch  " ].

End AIAPILoader.


(* ===================================================================== *)
(** * Properties *)
(* ===================================================================== *)

(** ** The article cache *)

Module CacheProperties.
Import SmartArticleCache.

Section WithLibraries.

Variable str_other : pyval -> string.
Variable lower_unicode : string -> string.
Variable pd_to_datetime : pyval -> option sort_key.
Variable unordered_sort : list sort_key -> result (list Z).
Variable load_articles : fetch -> result (list article).

Local Abbreviation matches := (_matches str_other lower_unicode).
Local Abbreviation rows_for := (filtered_rows str_other lower_unicode).
Local Abbreviation reuse := (reuse_parent str_other lower_unicode).
Local Abbreviation trim := (_sort_trim pd_to_datetime unordered_sort).
Local Abbreviation cache_get :=
  (get str_other lower_unicode pd_to_datetime unordered_sort load_articles).

(** The loop returns rows only from a parent entry that is in the store
    and holds at least [expected] matching rows. *)
Lemma reuse_parent_Some (store : cache) expected country entity pkeys filtered :
  reuse store expected country entity pkeys = Some filtered ->
  exists n pkey parent_rows,
    expected = Some n /\ pkey ∈ pkeys /\ store !! pkey = Some parent_rows /\
    filtered = rows_for parent_rows country entity /\
    n <= Z.of_nat (length filtered).
Proof.
  induction pkeys as [|pkey rest IH]; simpl; [discriminate|].
  destruct expected as [n|]; [|intros H; destruct (IH H) as (?&?&?&?&_); discriminate].
  destruct (store !! pkey) as [parent_rows|] eqn:Hp.
  - destruct (Z.leb_spec n (Z.of_nat (length (rows_for parent_rows country entity)))) as [Hle|Hlt].
    + intros [= <-]. exists n, pkey, parent_rows. repeat split; auto. left.
    + intros H. destruct (IH H) as (n'&pk&rows&?&?&?&?&?).
      exists n', pk, rows. repeat split; auto. by right.
  - intros H. destruct (IH H) as (n'&pk&rows&?&?&?&?&?).
    exists n', pk, rows. repeat split; auto. by right.
Qed.

(** When every parent entry in the store is short of [n], the loop falls
    through. *)
Lemma reuse_parent_None (store : cache) n country entity pkeys :
  (forall pkey parent_rows, pkey ∈ pkeys -> store !! pkey = Some parent_rows ->
     Z.of_nat (length (rows_for parent_rows country entity)) < n) ->
  reuse store (Some n) country entity pkeys = None.
Proof.
  induction pkeys as [|pkey rest IH]; simpl; [done|]. intros Hshort.
  destruct (store !! pkey) as [parent_rows|] eqn:Hp.
  - destruct (Z.leb_spec n (Z.of_nat (length (rows_for parent_rows country entity)))) as [Hle|Hlt].
    + specialize (Hshort pkey parent_rows (list_elem_of_here _ _) Hp). lia.
    + apply IH. intros pk rows Hin. apply Hshort. by right.
  - apply IH. intros pk rows Hin. apply Hshort. by right.
Qed.

(** A name that is not in the snapshot is not in the dict built from it. *)
Lemma dict_of_pairs_absent (pairs : list (string * Z)) (name : string) :
  name ∉ pairs.*1 -> dict_of_pairs pairs !! name = None.
Proof.
  unfold dict_of_pairs. generalize (∅ : gmap string Z) (lookup_empty (M:=gmap string) (A:=Z) name).
  induction pairs as [|[k v] rest IH]; intros g Hg Hnot; simpl; [done|].
  apply IH.
  - rewrite lookup_insert_ne; [done|]. intros ->. apply Hnot. simpl. left.
  - intros Hin. apply Hnot. simpl. by right.
Qed.

(** C1. When both filters are set, the exact key is not cached and the
    expected count [n] is known: an answer that did not go to the loader
    comes from a parent entry in the store whose rows matching both filters
    number at least [n] -- it is what [_sort_trim] makes of those rows,
    the sorted page or the exception sorting raises --; and when every
    parent entry in the store has strictly fewer than [n] matching rows,
    exactly one fallback fetch is issued and the answer is made of what
    the loader returned, not of the filtered rows. *)
Theorem get_reuses_parent_only_when_complete
    (store : cache) hour country entity totals_by_iso entity_breakdown_by_iso
    global_top_entities per_page n :
  str_truthy hour = true ->
  opt_truthy country = true ->
  opt_truthy entity = true ->
  store !! _key hour country entity = None ->
  _expected_count country entity totals_by_iso entity_breakdown_by_iso
    global_top_entities = Some n ->
  let o := cache_get store hour country entity totals_by_iso
             entity_breakdown_by_iso global_top_entities per_page in
  (fetches o = [] ->
     exists pkey parent_rows,
       pkey ∈ parent_keys hour country entity /\
       store !! pkey = Some parent_rows /\
       n <= Z.of_nat (length (rows_for parent_rows country entity)) /\
       ret o = trim (rows_for parent_rows country entity) per_page)
  /\
  ((forall pkey parent_rows,
       pkey ∈ parent_keys hour country entity ->
       store !! pkey = Some parent_rows ->
       Z.of_nat (length (rows_for parent_rows country entity)) < n) ->
     fetches o = [fallback_fetch hour country entity per_page] /\
     ret o = bind (load_articles (fallback_fetch hour country entity per_page))
               (fun fetched => trim fetched per_page)).
Proof.
  intros Hhour Hc He Hmiss Hexp o. subst o. unfold get.
  rewrite Hhour, Hmiss, Hexp. simpl. split.
  - destruct (reuse store (Some n) country entity (parent_keys hour country entity))
      as [filtered|] eqn:Hr.
    + intros _. apply reuse_parent_Some in Hr as (n'&pkey&rows&Hn&Hin&Hrows&->&Hle).
      injection Hn as <-. exists pkey, rows. by repeat split.
    + destruct (load_articles _); simpl; discriminate.
  - intros Hshort. rewrite (reuse_parent_None _ _ _ _ _ Hshort).
    destruct (load_articles _); simpl; done.
Qed.

(** C8. When [get] goes to the loader and the fetch raises, [get] raises
    the same exception and the cache mapping is what it was before the
    call. *)
Theorem get_failed_fetch_leaves_cache
    (store : cache) hour country entity totals_by_iso entity_breakdown_by_iso
    global_top_entities per_page e :
  let o := cache_get store hour country entity totals_by_iso
             entity_breakdown_by_iso global_top_entities per_page in
  fetches o <> [] ->
  load_articles (fallback_fetch hour country entity per_page) = Raise e ->
  ret o = Raise e /\ store' o = store.
Proof.
  intros o. subst o. unfold get.
  destruct (negb (str_truthy hour)); [done|].
  destruct (store !! _key hour country entity); [done|].
  destruct (reuse _ _ _ _ _); [done|].
  intros _ ->. done.
Qed.

(** C10. With an empty hour, [get] returns the empty list, keeps the store
    and issues no fetch. *)
Theorem get_empty_hour
    (store : cache) country entity totals_by_iso entity_breakdown_by_iso
    global_top_entities per_page :
  cache_get store "" country entity totals_by_iso entity_breakdown_by_iso
    global_top_entities per_page
  = Outcome (Ok []) store [].
Proof. reflexivity. Qed.

(** C7, as the code has it. With only the entity filter set and the
    entity's name absent from the global top-entities snapshot, the
    expected count is 0 when the snapshot is not empty, and unknown only
    when the snapshot is missing or empty.  Either way [get] tests nothing
    against it: on a miss of the exact key it goes to the loader. *)
Theorem expected_count_entity_not_in_snapshot
    (store : cache) hour country entity totals_by_iso entity_breakdown_by_iso
    global_top_entities per_page :
  opt_truthy entity = true ->
  opt_truthy country = false ->
  opt_str entity ∉ (default [] global_top_entities).*1 ->
  _expected_count country entity totals_by_iso entity_breakdown_by_iso
    global_top_entities
  = match global_top_entities with
    | Some (_ :: _) => Some 0
    | _ => None
    end
  /\ (str_truthy hour = true ->
      store !! _key hour country entity = None ->
      fetches (cache_get store hour country entity totals_by_iso
                 entity_breakdown_by_iso global_top_entities per_page)
      = [fallback_fetch hour country entity per_page]).
Proof.
  intros He Hc Hnot. split.
  - unfold _expected_count. rewrite He, Hc. simpl.
    destruct global_top_entities as [[|p ps]|]; try done.
    by rewrite (dict_of_pairs_absent (p :: ps) _ Hnot).
  - intros Hhour Hmiss. unfold get, parent_keys.
    rewrite Hhour, Hmiss, Hc. simpl.
    destruct (load_articles _); done.
Qed.

End WithLibraries.

End CacheProperties.

(** ** The backing store: what merge writes do to counter cells *)

Module StoreProperties.

Lemma names_field_false k (fields : list (string * field_value)) :
  names_field k fields = false -> k ∉ fields.*1.
Proof.
  induction fields as [|[k' fv] rest IH]; simpl; [intros _; apply not_elem_of_nil|].
  destruct (String.eqb_spec k' k) as [->|Hne]; simpl; [discriminate|].
  intros H Hin. apply elem_of_cons in Hin as [->|Hin]; [done|]. by apply IH.
Qed.

(** A merge leaves the fields it does not name as they were. *)
Lemma merge_fields_lookup_notin (ct : Z) (d : doc)
    (fields : list (string * field_value)) (k : string) :
  k ∉ fields.*1 -> merge_fields ct d fields !! k = d !! k.
Proof.
  unfold merge_fields. revert d.
  induction fields as [|[k' fv] rest IH]; intros d Hnot; simpl; [done|].
  rewrite IH.
  - apply lookup_insert_ne. intros ->. apply Hnot. simpl. left.
  - intros Hin. apply Hnot. simpl. by right.
Qed.

Lemma field_incr_notin k (fields : list (string * field_value)) :
  names_field k fields = false -> field_incr k fields = 0.
Proof.
  induction fields as [|[k' fv] rest IH]; simpl; [done|].
  destruct (String.eqb k' k); simpl; [discriminate|]. exact IH.
Qed.

Lemma int_field_insert_ne k k' v (d : doc) :
  k' <> k -> int_field k (<[k' := v]> d) = int_field k d.
Proof. intros Hne. unfold int_field. by rewrite lookup_insert_ne. Qed.

(** A field list that touches [k] only by one increment adds that
    increment to the field. *)
Lemma int_field_merge (ct : Z) (d : doc)
    (fields : list (string * field_value)) (k : string) :
  counter_only k fields = true ->
  int_field k (merge_fields ct d fields) = int_field k d + field_incr k fields.
Proof.
  revert d. induction fields as [|[k' fv] rest IH]; intros d Hsafe.
  - simpl. lia.
  - simpl in Hsafe. change (merge_fields ct d ((k', fv) :: rest))
      with (merge_fields ct (<[k' := transform ct (d !! k') fv]> d) rest).
    simpl. destruct (String.eqb_spec k' k) as [->|Hne].
    + destruct fv as [v|n|]; try discriminate.
      apply negb_true_iff, names_field_false in Hsafe.
      unfold int_field at 1. rewrite merge_fields_lookup_notin by done.
      rewrite lookup_insert_eq. unfold int_field. simpl.
      destruct (d !! k) as [[]|]; lia.
    + rewrite IH by done. by rewrite int_field_insert_ne.
Qed.

(** One write moves a cell by the increment it carries for it. *)
Lemma cell_apply_write (ct : Z) (s : db) (w : write) (p : path) (k : string) :
  counter_only k (w_fields w) = true ->
  cell (apply_write ct s w) p k = cell s p k + write_incr p k w.
Proof.
  intros Hsafe. unfold cell, apply_write, write_incr. case_bool_decide as Hp.
  - subst p. rewrite lookup_insert_eq. simpl. by apply int_field_merge.
  - rewrite lookup_insert_ne by done. lia.
Qed.

Lemma cell_commit (ct : Z) (ws : list write) (s : db) (p : path) (k : string) :
  Forall (fun w => counter_only k (w_fields w) = true) ws ->
  cell (commit ct s ws) p k = cell s p k + sum_Z (map (write_incr p k) ws).
Proof.
  unfold commit. revert s. induction ws as [|w ws IH]; intros s Hall; simpl.
  - lia.
  - inversion Hall as [|? ? Hw Hws]; subst.
    rewrite IH by done. rewrite cell_apply_write by done. lia.
Qed.

Lemma sum_Z_Permutation (l1 l2 : list Z) : l1 ≡ₚ l2 -> sum_Z l1 = sum_Z l2.
Proof. induction 1; simpl in *; lia. Qed.

Lemma sum_Z_app (l1 l2 : list Z) : sum_Z (l1 ++ l2) = sum_Z l1 + sum_Z l2.
Proof. induction l1; simpl in *; lia. Qed.

Lemma collection_sum_Permutation (s : db) (coll : path) (k : string)
    (l : list (path * doc)) :
  map_to_list s ≡ₚ l ->
  collection_sum s coll k
  = sum_Z (map (fun x => int_field k x.2)
             (omap (fun pd => match in_collection coll pd.1 with
                              | Some id => Some (id, pd.2)
                              | None => None
                              end) l)).
Proof.
  intros Hp. unfold collection_sum, collection_docs.
  apply sum_Z_Permutation. by rewrite Hp.
Qed.

Lemma collection_sum_insert_fresh (s : db) (coll : path) (k : string)
    (p : path) (d : doc) :
  s !! p = None ->
  collection_sum (<[p := d]> s) coll k
  = collection_sum s coll k
    + match in_collection coll p with Some _ => int_field k d | None => 0 end.
Proof.
  intros Hfresh.
  rewrite (collection_sum_Permutation _ _ _ _ (map_to_list_insert s p d Hfresh)).
  unfold collection_sum, collection_docs.
  generalize (map_to_list s). intros l. simpl.
  destruct (in_collection coll p); simpl.
  - rewrite Z.add_comm. reflexivity.
  - rewrite Z.add_0_r. reflexivity.
Qed.

(** Replacing or creating a document moves the collection's sum by the
    change of that document's field, when the document is in the
    collection. *)
Lemma collection_sum_insert (s : db) (coll : path) (k : string)
    (p : path) (d : doc) :
  collection_sum (<[p := d]> s) coll k
  = collection_sum s coll k
    + match in_collection coll p with
      | Some _ => int_field k d - cell s p k
      | None => 0
      end.
Proof.
  unfold cell. destruct (s !! p) as [d0|] eqn:Hp.
  - rewrite <- (insert_delete_eq s p d).
    rewrite <- (insert_id s p d0 Hp) at 2. rewrite <- (insert_delete_eq s p d0).
    rewrite !collection_sum_insert_fresh by apply lookup_delete_eq.
    simpl. destruct (in_collection coll p); lia.
  - rewrite collection_sum_insert_fresh by done. simpl.
    destruct (in_collection coll p); [|done].
    replace (int_field k ∅) with 0; [lia|].
    unfold int_field. by rewrite lookup_empty.
Qed.

Lemma collection_sum_apply_write (ct : Z) (s : db) (w : write)
    (coll : path) (k : string) :
  counter_only k (w_fields w) = true ->
  collection_sum (apply_write ct s w) coll k
  = collection_sum s coll k + write_incr_in coll k w.
Proof.
  intros Hsafe. unfold apply_write, write_incr_in.
  rewrite collection_sum_insert. unfold cell.
  destruct (in_collection coll (w_ref w)); [|done].
  rewrite int_field_merge by done. lia.
Qed.

Lemma collection_sum_commit (ct : Z) (ws : list write) (s : db)
    (coll : path) (k : string) :
  Forall (fun w => counter_only k (w_fields w) = true) ws ->
  collection_sum (commit ct s ws) coll k
  = collection_sum s coll k + sum_Z (map (write_incr_in coll k) ws).
Proof.
  unfold commit. revert s. induction ws as [|w ws IH]; intros s Hall; simpl.
  - lia.
  - inversion Hall as [|? ? Hw Hws]; subst.
    rewrite IH by done. rewrite collection_sum_apply_write by done. lia.
Qed.

(** A document listed for a collection is the one stored under the
    collection's path and its identifier. *)
Lemma collection_docs_lookup (s : db) (coll : path) (id : string) (d : doc) :
  (id, d) ∈ collection_docs s coll -> s !! (coll ++ [id])%list = Some d.
Proof.
  unfold collection_docs. intros Hin.
  apply list_elem_of_omap in Hin as ([p d'] & Hpd & Hsome).
  apply elem_of_map_to_list in Hpd. simpl in Hsome.
  unfold in_collection in Hsome. destruct (last p) as [id'|]; [|discriminate].
  case_bool_decide as Hp; [|discriminate]. injection Hsome as <- <-.
  by rewrite <- Hp.
Qed.

(** The sum of a collection is the sum of its documents' cells. *)
Lemma collection_sum_cells (s : db) (coll : path) (k : string) :
  collection_sum s coll k
  = sum_Z (map (fun id => cell s (coll ++ [id])%list k)
             (map fst (collection_docs s coll))).
Proof.
  unfold collection_sum. rewrite map_map. f_equal.
  apply map_ext_in. intros [id d] Hin. apply list_elem_of_In in Hin.
  unfold cell. simpl. by rewrite (collection_docs_lookup s coll id d Hin).
Qed.

(** A store whose documents carry no [k] field sums to 0 everywhere. *)
Lemma collection_sum_no_field (s : db) (coll : path) (k : string) :
  map_Forall (fun _ (d : doc) => d !! k = None) s ->
  collection_sum s coll k = 0.
Proof.
  intros Hall. unfold collection_sum, collection_docs.
  assert (Forall (fun pd : path * doc => pd.2 !! k = None) (map_to_list s)) as Hl.
  { apply Forall_forall. intros [p d] Hin. apply elem_of_map_to_list in Hin.
    exact (Hall p d Hin). }
  induction Hl as [|[p d] l Hd Hl IH]; simpl; [done|].
  destruct (in_collection coll p); simpl; [|exact IH].
  unfold int_field at 1. simpl in Hd. rewrite Hd. exact IH.
Qed.

End StoreProperties.

(** ** The rollup engine *)

Module RollupProperties.
Import FirestoreRollup StoreProperties.

Section WithLibraries.

Variable slugify_unicode : string -> Z -> string.
Variable upper_unicode : string -> string.
Variable fromisoformat : string -> option Z.
Variable strftime : string -> Z -> string.
Variable paths : RollupPaths.

Local Abbreviation txn := (_txn slugify_unicode upper_unicode
    fromisoformat strftime paths).
Local Abbreviation apply := (apply_for_article slugify_unicode upper_unicode
    fromisoformat strftime paths).
Local Abbreviation loop := (entities_loop slugify_unicode paths).
Local Abbreviation named_id := (named_id slugify_unicode).
Local Abbreviation named_ids := (named_ids slugify_unicode).
Local Abbreviation slugify := (slugify slugify_unicode).
Local Abbreviation event_country := (event_country upper_unicode).
Local Abbreviation ev_time := (event_time fromisoformat).
Local Abbreviation ev_hour := (event_hour strftime).

Local Ltac case_result H :=
  match goal with
  | |- context [bind ?r _] => destruct r eqn:H; simpl; try discriminate
  | _ : context [bind ?r _] |- _ => destruct r eqn:H; simpl in *; try discriminate
  end.

(** *** The shape of a run that commits *)

Lemma txn_Ok_inv E ref (a : doc) ws :
  truthy (doc_get a "rollups_done") = false ->
  txn E ref (Some a) = Ok ws ->
  exists dt c h ents ent_ws,
    ev_time E a = Ok dt /\ event_country a = Ok c /\
    document_id (ev_hour a dt) = Ok h /\
    py_iter (event_entities a) = Ok ents /\
    loop h c ents = Ok ent_ws /\
    ws = (head_writes paths ref (ev_hour a dt) h c ++ ent_ws)%list.
Proof.
  intros Hm. unfold _txn. rewrite Hm.
  destruct (ev_time E a) as [dt|] eqn:Ht; simpl; [|discriminate].
  destruct (event_country a) as [c|] eqn:Hc; simpl; [|discriminate].
  destruct (document_id (ev_hour a dt)) as [h|] eqn:Hh; simpl; [|discriminate].
  destruct (py_iter (event_entities a)) as [ents|] eqn:Hi; simpl; [|discriminate].
  destruct (loop h c ents) as [ent_ws|] eqn:Hl; simpl; [|discriminate].
  intros [= <-]. by exists dt, c, h, ents, ent_ws.
Qed.

Lemma txn_Ok_intro E ref (a : doc) dt c h ents ent_ws :
  truthy (doc_get a "rollups_done") = false ->
  ev_time E a = Ok dt -> event_country a = Ok c ->
  document_id (ev_hour a dt) = Ok h ->
  py_iter (event_entities a) = Ok ents ->
  loop h c ents = Ok ent_ws ->
  txn E ref (Some a)
  = Ok (head_writes paths ref (ev_hour a dt) h c ++ ent_ws)%list.
Proof.
  intros Hm Ht Hc Hh Hi Hl. unfold _txn.
  rewrite Hm, Ht. simpl. rewrite Hc. simpl. rewrite Hh. simpl.
  rewrite Hi. simpl. by rewrite Hl.
Qed.

(** One case analysis for one entry of the loop. *)
Lemma loop_cons h c ent rest :
  loop h c (ent :: rest)
  = match named_id ent with
    | Some eid =>
        bind (loop h c rest) (fun ws =>
          Ok (entity_writes paths h c eid
                (match ent with PDict d => assoc_get d "name" | _ => PNone end)
                (py_or (match ent with PDict d => assoc_get d "type" | _ => PNone end)
                       (PStr "OTHER"))
              ++ ws)%list)
    | None =>
        if negb (truthy ent) then loop h c rest
        else match ent with
             | PDict d =>
                 if negb (truthy (assoc_get d "name")) then loop h c rest
                 else Raise AttributeError
             | _ => Raise AttributeError
             end
    end.
Proof.
  simpl. unfold ent_get, named_id.
  destruct ent as [| [] | z | [] | t | [] | [|p d']]; simpl; try done.
  - by destruct (Z.eqb z 0).
  - generalize (let (k', v) := p in
                if String.eqb k' "name" then v else assoc_get d' "name").
    intros [| [] | z | [] | t | [] | []]; simpl; done.
Qed.

Lemma named_ids_cons ent rest :
  named_ids (ent :: rest)
  = match named_id ent with
    | Some eid => eid :: named_ids rest
    | None => named_ids rest
    end.
Proof. reflexivity. Qed.

(** The sum of a per-write quantity over the writes of the loop is the sum,
    over the identifiers written for, of what one pass contributes. *)
Lemma loop_sum (f : write -> Z) (g : string -> Z) h c ents ws :
  (forall eid name etype,
     sum_Z (map f (entity_writes paths h c eid name etype)) = g eid) ->
  loop h c ents = Ok ws ->
  sum_Z (map f ws) = sum_Z (map g (named_ids ents)).
Proof.
  intros Hpass. revert ws. induction ents as [|ent rest IH]; intros ws.
  - simpl. by intros [= <-].
  - rewrite loop_cons, named_ids_cons.
    destruct (named_id ent) as [eid|] eqn:Hid.
    + destruct (loop h c rest) as [ws'|] eqn:Hl; cbn [bind]; [|discriminate].
      intros Heq.
      assert (ws = (entity_writes paths h c eid
                (match ent with PDict d => assoc_get d "name" | _ => PNone end)
                (py_or (match ent with PDict d => assoc_get d "type" | _ => PNone end)
                       (PStr "OTHER")) ++ ws')%list) as -> by congruence.
      rewrite map_app, sum_Z_app, Hpass.
      cbn [map sum_Z foldr]. f_equal. by apply IH.
    + destruct (negb (truthy ent)); [apply IH|].
      destruct ent; try discriminate.
      destruct (negb (truthy _)); [apply IH|discriminate].
Qed.

Lemma sum_occurrences (e : string) ids :
  sum_Z (map (fun eid => if String.eqb e eid then 1 else 0) ids)
  = occurrences e ids.
Proof.
  unfold occurrences. induction ids as [|id ids IH]; simpl; [done|].
  rewrite IH. destruct (String.eqb e id); simpl; lia.
Qed.

Lemma sum_zero {A} (l : list A) : sum_Z (map (fun _ => 0) l) = 0.
Proof. induction l; simpl; lia. Qed.

(** Whether the loop raises does not depend on the bucket or the country. *)
Lemma loop_Raise h c h' c' ents e :
  loop h c ents = Raise e -> loop h' c' ents = Raise e.
Proof.
  induction ents as [|ent rest IH]; [discriminate|].
  rewrite !loop_cons. destruct (named_id ent).
  - destruct (loop h c rest); simpl; [discriminate|].
    intros [= <-]. by rewrite (IH eq_refl).
  - destruct (negb (truthy ent)); [exact IH|].
    destruct ent; try done. destruct (negb (truthy _)); [exact IH|done].
Qed.

(** *** Writes touch the counters only by single increments *)

Lemma entity_writes_counter_only k h c eid name etype :
  k = "total" \/ k = "count" ->
  Forall (fun w => counter_only k (w_fields w) = true)
    (entity_writes paths h c eid name etype).
Proof. intros [-> | ->]; repeat constructor. Qed.

Lemma head_writes_counter_only k ref hv h c :
  k = "total" \/ k = "count" ->
  Forall (fun w => counter_only k (w_fields w) = true)
    (head_writes paths ref hv h c).
Proof. intros [-> | ->]; repeat constructor. Qed.

Lemma loop_Forall (P : write -> Prop) h c ents ws :
  (forall eid name etype, Forall P (entity_writes paths h c eid name etype)) ->
  loop h c ents = Ok ws ->
  Forall P ws.
Proof.
  intros Hpass. revert ws. induction ents as [|ent rest IH]; intros ws.
  - simpl. intros [= <-]. constructor.
  - rewrite loop_cons. destruct (named_id ent) as [eid|].
    + destruct (loop h c rest) as [ws'|]; cbn [bind]; [|discriminate].
      intros Heq.
      assert (ws = (entity_writes paths h c eid
                (match ent with PDict d => assoc_get d "name" | _ => PNone end)
                (py_or (match ent with PDict d => assoc_get d "type" | _ => PNone end)
                       (PStr "OTHER")) ++ ws')%list) as -> by congruence.
      apply Forall_app. split; [apply Hpass|by apply IH].
    + destruct (negb (truthy ent)); [apply IH|].
      destruct ent; try discriminate.
      destruct (negb (truthy _)); [apply IH|discriminate].
Qed.

Lemma run_counter_only k ref hv h c ents ent_ws :
  k = "total" \/ k = "count" ->
  loop h c ents = Ok ent_ws ->
  Forall (fun w => counter_only k (w_fields w) = true)
    (head_writes paths ref hv h c ++ ent_ws).
Proof.
  intros Hk Hl. apply Forall_app. split.
  - by apply head_writes_counter_only.
  - eapply loop_Forall; [|exact Hl]. intros. by apply entity_writes_counter_only.
Qed.

Local Ltac unfold_refs :=
  unfold entity_writes, head_writes, write_incr, write_incr_in, in_collection,
    ent_country_ref, country_entity_ref, ent_ref, country_ref, mentions_hour;
  simpl.

Local Ltac solve_incr :=
  unfold_refs; repeat case_bool_decide; simplify_eq/=;
  repeat match goal with
         | |- context [String.eqb ?a ?b] => destruct (String.eqb_spec a b)
         end;
  simplify_eq/=; try done; try lia.

(** *** What one pass of the loop adds to each counter *)

Lemma pass_ent_total h0 c0 h e eid name etype :
  sum_Z (map (write_incr (ent_ref paths h e) "total")
           (entity_writes paths h0 c0 eid name etype))
  = if bool_decide (h = h0) then (if String.eqb e eid then 1 else 0) else 0.
Proof. solve_incr. Qed.

Lemma pass_breakdown_sum h0 c0 h e eid name etype :
  sum_Z (map (write_incr_in (ent_ref paths h e ++ ["countries"]) "count")
           (entity_writes paths h0 c0 eid name etype))
  = if bool_decide (h = h0) then (if String.eqb e eid then 1 else 0) else 0.
Proof. solve_incr. Qed.

Lemma pass_ent_country h0 c0 e eid name etype :
  sum_Z (map (write_incr (ent_country_ref paths h0 e c0) "count")
           (entity_writes paths h0 c0 eid name etype))
  = if String.eqb e eid then 1 else 0.
Proof. solve_incr. Qed.

Lemma pass_country_ent h0 c0 e eid name etype :
  sum_Z (map (write_incr (country_entity_ref paths h0 c0 e) "count")
           (entity_writes paths h0 c0 eid name etype))
  = if String.eqb e eid then 1 else 0.
Proof. solve_incr. Qed.

Lemma pass_country_total h0 c0 h c eid name etype :
  sum_Z (map (write_incr (country_ref paths h c) "total")
           (entity_writes paths h0 c0 eid name etype))
  = 0.
Proof. solve_incr. Qed.

(** *** What the writes before the loop add to each counter *)

Lemma head_ent_total ref hv h0 c0 h e :
  sum_Z (map (write_incr (ent_ref paths h e) "total")
           (head_writes paths ref hv h0 c0)) = 0.
Proof. solve_incr. Qed.

Lemma head_breakdown_sum ref hv h0 c0 h e :
  sum_Z (map (write_incr_in (ent_ref paths h e ++ ["countries"]) "count")
           (head_writes paths ref hv h0 c0)) = 0.
Proof. unfold_refs. repeat case_match; done. Qed.

Lemma head_ent_country ref hv h0 c0 h e c :
  sum_Z (map (write_incr (ent_country_ref paths h e c) "count")
           (head_writes paths ref hv h0 c0)) = 0.
Proof. solve_incr. Qed.

Lemma head_country_ent ref hv h0 c0 h c e :
  sum_Z (map (write_incr (country_entity_ref paths h c e) "count")
           (head_writes paths ref hv h0 c0)) = 0.
Proof. solve_incr. Qed.

Lemma head_country_total ref hv h0 c0 :
  sum_Z (map (write_incr (country_ref paths h0 c0) "total")
           (head_writes paths ref hv h0 c0)) = 1.
Proof. solve_incr. Qed.

(** The sum over the countries is the sum of the count field over the
    breakdown documents of the entity. *)
Lemma EntityCountrySum_collection (s : db) h e :
  EntityCountrySum paths s h e
  = collection_sum s (ent_ref paths h e ++ ["countries"])%list "count".
Proof.
  rewrite collection_sum_cells. reflexivity.
Qed.

(** *** The counters after a run that commits *)

Section Committed.

Variables (ref : path) (hv : pyval) (h c : string).
Variables (ents : list pyval) (ent_ws : list write).
Hypothesis Hloop : loop h c ents = Ok ent_ws.
Variables (ct : Z) (s : db).

Local Abbreviation s' := (commit ct s (head_writes paths ref hv h c ++ ent_ws)).

Lemma committed_EntityTotal h' e :
  EntityTotal paths s' h' e
  = EntityTotal paths s h' e
    + if bool_decide (h' = h) then occurrences e (named_ids ents) else 0.
Proof.
  unfold EntityTotal. fold (cell s' (ent_ref paths h' e) "total").
  fold (cell s (ent_ref paths h' e) "total").
  rewrite cell_commit by (eapply run_counter_only; [auto|exact Hloop]).
  rewrite map_app, sum_Z_app, head_ent_total.
  rewrite (loop_sum _ _ _ _ _ _ (fun eid => pass_ent_total h c h' e eid) Hloop).
  case_bool_decide; [rewrite sum_occurrences|rewrite sum_zero]; lia.
Qed.

Lemma committed_EntityCountrySum h' e :
  EntityCountrySum paths s' h' e
  = EntityCountrySum paths s h' e
    + if bool_decide (h' = h) then occurrences e (named_ids ents) else 0.
Proof.
  rewrite !EntityCountrySum_collection.
  rewrite collection_sum_commit by (eapply run_counter_only; [auto|exact Hloop]).
  rewrite map_app, sum_Z_app, head_breakdown_sum.
  rewrite (loop_sum _ _ _ _ _ _ (fun eid => pass_breakdown_sum h c h' e eid) Hloop).
  case_bool_decide; [rewrite sum_occurrences|rewrite sum_zero]; lia.
Qed.

Lemma committed_EntityCountryBreakdown e :
  EntityCountryBreakdown paths s' h e c
  = EntityCountryBreakdown paths s h e c + occurrences e (named_ids ents).
Proof.
  unfold EntityCountryBreakdown.
  fold (cell s' (ent_country_ref paths h e c) "count").
  fold (cell s (ent_country_ref paths h e c) "count").
  rewrite cell_commit by (eapply run_counter_only; [auto|exact Hloop]).
  rewrite map_app, sum_Z_app, head_ent_country.
  rewrite (loop_sum _ _ _ _ _ _ (fun eid => pass_ent_country h c e eid) Hloop).
  rewrite sum_occurrences. lia.
Qed.

Lemma committed_CountryEntityBreakdown e :
  CountryEntityBreakdown paths s' h c e
  = CountryEntityBreakdown paths s h c e + occurrences e (named_ids ents).
Proof.
  unfold CountryEntityBreakdown.
  fold (cell s' (country_entity_ref paths h c e) "count").
  fold (cell s (country_entity_ref paths h c e) "count").
  rewrite cell_commit by (eapply run_counter_only; [auto|exact Hloop]).
  rewrite map_app, sum_Z_app, head_country_ent.
  rewrite (loop_sum _ _ _ _ _ _ (fun eid => pass_country_ent h c e eid) Hloop).
  rewrite sum_occurrences. lia.
Qed.

Lemma committed_CountryTotal :
  CountryTotal paths s' h c = CountryTotal paths s h c + 1.
Proof.
  unfold CountryTotal.
  fold (cell s' (country_ref paths h c) "total").
  fold (cell s (country_ref paths h c) "total").
  rewrite cell_commit by (eapply run_counter_only; [auto|exact Hloop]).
  rewrite map_app, sum_Z_app, head_country_total.
  rewrite (loop_sum _ _ _ _ _ _
             (fun eid name etype => pass_country_total h c h c eid name etype) Hloop).
  rewrite sum_zero. lia.
Qed.

End Committed.

(** *** What one call does, case by case *)

Lemma apply_read_error (E : env) (s : db) (ref : path) (e : exn) :
  read_error E = Some e -> apply E s ref = (s, Raise e).
Proof. intros H. unfold apply_for_article. by rewrite H. Qed.

Lemma apply_missing (E : env) (s : db) (ref : path) :
  read_error E = None -> s !! ref = None -> apply E s ref = (s, Ok tt).
Proof. intros H Hs. unfold apply_for_article. by rewrite H, Hs. Qed.

Lemma apply_marked (E : env) (s : db) (ref : path) (a : doc) :
  read_error E = None -> s !! ref = Some a ->
  truthy (doc_get a "rollups_done") = true ->
  apply E s ref = (s, Ok tt).
Proof.
  intros H Hs Hm. unfold apply_for_article, _txn. by rewrite H, Hs, Hm.
Qed.

Lemma apply_committed (E : env) (s : db) (ref : path) (a : doc)
    dt c h ents ent_ws :
  read_error E = None -> s !! ref = Some a ->
  truthy (doc_get a "rollups_done") = false ->
  ev_time E a = Ok dt -> event_country a = Ok c ->
  document_id (ev_hour a dt) = Ok h ->
  py_iter (event_entities a) = Ok ents ->
  loop h c ents = Ok ent_ws ->
  apply E s ref
  = (commit (commit_time E) s
       (head_writes paths ref (ev_hour a dt) h c ++ ent_ws), Ok tt).
Proof.
  intros H Hs Hm Ht Hc Hh Hi Hl. unfold apply_for_article. rewrite H, Hs.
  by rewrite (txn_Ok_intro E ref a dt c h ents ent_ws).
Qed.

Lemma apply_raises (E : env) (s : db) (ref : path) (e : exn) :
  read_error E = None -> txn E ref (s !! ref) = Raise e ->
  apply E s ref = (s, Raise e).
Proof. intros H Ht. unfold apply_for_article. by rewrite H, Ht. Qed.

(** Whether the body raises, and what, does not depend on the clock. *)
Lemma txn_Raise_env E E' ref snap e :
  txn E ref snap = Raise e -> txn E' ref snap = Raise e.
Proof.
  destruct snap as [a|]; [|discriminate]. unfold _txn.
  destruct (truthy (doc_get a "rollups_done")); [discriminate|].
  unfold event_time.
  assert (forall dt dt', document_id (ev_hour a dt) = document_id (ev_hour a dt')
            \/ exists x x', document_id (ev_hour a dt) = Ok x
                            /\ document_id (ev_hour a dt') = Ok x') as Hhour.
  { intros dt dt'. unfold event_hour, py_or.
    destruct (truthy (doc_get a "hour")); [by left|right]. simpl. eauto. }
  assert (forall dt dt',
    bind (event_country a) (fun country =>
      bind (document_id (ev_hour a dt)) (fun hour =>
      bind (py_iter (event_entities a)) (fun ents =>
      bind (loop hour country ents) (fun ent_ws =>
      Ok (head_writes paths ref (ev_hour a dt) hour country ++ ent_ws)%list))))
    = Raise e ->
    bind (event_country a) (fun country =>
      bind (document_id (ev_hour a dt')) (fun hour =>
      bind (py_iter (event_entities a)) (fun ents =>
      bind (loop hour country ents) (fun ent_ws =>
      Ok (head_writes paths ref (ev_hour a dt') hour country ++ ent_ws)%list))))
    = Raise e) as Hrest.
  { intros dt dt'. destruct (event_country a) as [c|]; simpl; [|done].
    assert (forall x x',
      bind (py_iter (event_entities a)) (fun ents =>
        bind (loop x c ents) (fun ent_ws =>
        Ok (head_writes paths ref (ev_hour a dt) x c ++ ent_ws)%list)) = Raise e ->
      bind (py_iter (event_entities a)) (fun ents =>
        bind (loop x' c ents) (fun ent_ws =>
        Ok (head_writes paths ref (ev_hour a dt') x' c ++ ent_ws)%list)) = Raise e)
      as Hloop.
    { intros x x'. destruct (py_iter (event_entities a)) as [ents|]; simpl; [|done].
      destruct (loop x c ents) as [ws|e0] eqn:Hl; simpl; [discriminate|].
      intros [= ->]. by rewrite (loop_Raise x c x' c ents e Hl). }
    destruct (Hhour dt dt') as [Heq|(x & x' & Hx & Hx')].
    - rewrite <- Heq. destruct (document_id (ev_hour a dt)); simpl; [|done].
      apply Hloop.
    - rewrite Hx, Hx'. simpl. apply Hloop. }
  destruct (truthy (doc_get a "time")).
  - destruct (_to_utc fromisoformat (doc_get a "time")); simpl; [|done].
    apply Hrest.
  - simpl. apply Hrest.
Qed.

(** *** The processed marker *)

Lemma apply_write_keeps_field (ct : Z) (s : db) (w : write) (ref : path)
    (k : string) (v : pyval) :
  names_field k (w_fields w) = false ->
  (exists d : doc, s !! ref = Some d /\ d !! k = Some v) ->
  exists d : doc, apply_write ct s w !! ref = Some d /\ d !! k = Some v.
Proof.
  intros Hk (d & Hd & Hv). unfold apply_write.
  destruct (decide (w_ref w = ref)) as [->|Hne].
  - rewrite lookup_insert_eq, Hd. simpl. eexists; split; [done|].
    rewrite merge_fields_lookup_notin; [done|by apply names_field_false].
  - rewrite lookup_insert_ne by done. eauto.
Qed.

Lemma commit_keeps_field (ct : Z) (ws : list write) (s : db) (ref : path)
    (k : string) (v : pyval) :
  Forall (fun w => names_field k (w_fields w) = false) ws ->
  (exists d : doc, s !! ref = Some d /\ d !! k = Some v) ->
  exists d : doc, commit ct s ws !! ref = Some d /\ d !! k = Some v.
Proof.
  unfold commit. revert s. induction ws as [|w ws IH]; intros s Hall Hs; [done|].
  inversion Hall; subst. simpl. apply IH; [done|].
  by apply apply_write_keeps_field.
Qed.

Lemma commit_cons (ct : Z) (s : db) (w : write) (ws : list write) :
  commit ct s (w :: ws) = commit ct (apply_write ct s w) ws.
Proof. reflexivity. Qed.

(** A run that commits leaves the marker set on the article. *)
Lemma committed_marker (ct : Z) (s : db) (ref : path) hv h c ents ent_ws :
  loop h c ents = Ok ent_ws ->
  exists d : doc,
    commit ct s (head_writes paths ref hv h c ++ ent_ws) !! ref = Some d
    /\ d !! "rollups_done" = Some (PBool true).
Proof.
  intros Hl. unfold head_writes. cbn [app]. rewrite commit_cons.
  apply commit_keeps_field.
  - repeat (constructor; [reflexivity|]).
    eapply loop_Forall; [|exact Hl]. intros. repeat constructor.
  - unfold apply_write. cbn [w_ref w_fields]. rewrite lookup_insert_eq.
    eexists; split; [done|]. unfold merge_fields. simpl.
    rewrite lookup_insert_ne by done. by rewrite lookup_insert_eq.
Qed.

(** After a call whose read went through, a further call on the same
    reference changes nothing. *)
Lemma apply_settles (E1 E2 : env) (s : db) (ref : path) :
  read_error E1 = None ->
  (apply E2 (apply E1 s ref).1 ref).1 = (apply E1 s ref).1.
Proof.
  intros H1.
  assert (forall s0 : db, (exists a : doc, s0 !! ref = Some a
              /\ truthy (doc_get a "rollups_done") = true)
            \/ s0 !! ref = None
            \/ (exists e, txn E1 ref (s0 !! ref) = Raise e) ->
          (apply E2 s0 ref).1 = s0) as Hstable.
  { intros s0 Hs0. destruct (read_error E2) as [e2|] eqn:H2.
    { by rewrite (apply_read_error E2 s0 ref e2). }
    destruct Hs0 as [(a & Ha & Hm)|[Hnone|(e & He)]].
    - by rewrite (apply_marked E2 s0 ref a).
    - by rewrite apply_missing.
    - by rewrite (apply_raises E2 s0 ref e H2 (txn_Raise_env E1 E2 ref _ e He)). }
  destruct (s !! ref) as [a|] eqn:Hs.
  - destruct (truthy (doc_get a "rollups_done")) eqn:Hm.
    + rewrite (apply_marked E1 s ref a) by done. simpl.
      apply Hstable. left. eauto.
    + destruct (txn E1 ref (Some a)) as [ws|e] eqn:Ht.
      * destruct (txn_Ok_inv E1 ref a ws Hm Ht)
          as (dt & c & h & ents & ent_ws & Hdt & Hc & Hh & Hi & Hl & ->).
        rewrite (apply_committed E1 s ref a dt c h ents ent_ws) by done. cbn [fst snd].
        apply Hstable. left.
        destruct (committed_marker (commit_time E1) s ref (ev_hour a dt) h c
                    ents ent_ws Hl) as (d & Hd & Hmark).
        exists d. split; [done|]. unfold doc_get. by rewrite Hmark.
      * rewrite (apply_raises E1 s ref e) by (by rewrite ?Hs).
        simpl. apply Hstable. right. right. exists e. by rewrite Hs.
  - rewrite (apply_missing E1 s ref) by done. simpl.
    apply Hstable. right. left. done.
Qed.

(** After a call that returned normally, a further call on the same
    reference returns normally when its read goes through. *)
Lemma apply_again_returns (E1 E2 : env) (s : db) (ref : path) :
  (apply E1 s ref).2 = Ok tt ->
  read_error E2 = None ->
  (apply E2 (apply E1 s ref).1 ref).2 = Ok tt.
Proof.
  intros Hok H2.
  destruct (read_error E1) as [e1|] eqn:H1.
  { rewrite (apply_read_error E1 s ref e1) in Hok by done. discriminate. }
  destruct (s !! ref) as [a|] eqn:Hs.
  - destruct (truthy (doc_get a "rollups_done")) eqn:Hm.
    + rewrite (apply_marked E1 s ref a) by done. simpl.
      by rewrite (apply_marked E2 s ref a).
    + destruct (txn E1 ref (Some a)) as [ws|e] eqn:Ht.
      * destruct (txn_Ok_inv E1 ref a ws Hm Ht)
          as (dt & c & h & ents & ent_ws & Hdt & Hc & Hh & Hi & Hl & ->).
        rewrite (apply_committed E1 s ref a dt c h ents ent_ws) by done. cbn [fst snd].
        destruct (committed_marker (commit_time E1) s ref (ev_hour a dt) h c
                    ents ent_ws Hl) as (d & Hd & Hmark).
        rewrite (apply_marked E2 _ ref d); [done|done|done|].
        unfold doc_get. by rewrite Hmark.
      * rewrite (apply_raises E1 s ref e) in Hok by (by rewrite ?Hs).
        discriminate.
  - rewrite (apply_missing E1 s ref) by done. simpl. by rewrite apply_missing.
Qed.

(** C2. Idempotence.  Take a call of [apply_for_article] on a readable
    article reference.  Any later calls on the same reference leave the
    whole store, and so every counter, exactly as the first call left it;
    and if the first call returned normally, a later call whose read goes
    through returns normally too. *)
Theorem apply_for_article_idempotent (E1 : env) (s : db) (ref : path) :
  read_error E1 = None ->
  let s1 := (apply E1 s ref).1 in
  (forall later : list env,
     apply_all slugify_unicode upper_unicode
         fromisoformat strftime paths (map (fun E => (E, ref)) later) s1
     = s1)
  /\ (forall E2 : env,
        (apply E1 s ref).2 = Ok tt -> read_error E2 = None ->
        apply E2 s1 ref = (s1, Ok tt)).
Proof.
  intros H1 s1. split.
  - intros later. unfold apply_all. induction later as [|E2 later IH]; [done|].
    simpl. subst s1. rewrite apply_settles by done. exact IH.
  - intros E2 Hok H2. subst s1.
    rewrite (surjective_pairing (apply E2 _ ref)).
    by rewrite apply_settles, apply_again_returns.
Qed.

(** One call keeps the conservation invariant. *)
Lemma apply_conserved (E : env) (s : db) (ref : path) :
  conserved paths s -> conserved paths (apply E s ref).1.
Proof.
  intros Hinv.
  destruct (read_error E) as [e|] eqn:Hr.
  { by rewrite (apply_read_error E s ref e). }
  destruct (s !! ref) as [a|] eqn:Hs; [|by rewrite apply_missing].
  destruct (truthy (doc_get a "rollups_done")) eqn:Hm.
  { by rewrite (apply_marked E s ref a). }
  destruct (txn E ref (Some a)) as [ws|e] eqn:Ht.
  - destruct (txn_Ok_inv E ref a ws Hm Ht)
      as (dt & c & h & ents & ent_ws & Hdt & Hc & Hh & Hi & Hl & ->).
    rewrite (apply_committed E s ref a dt c h ents ent_ws) by done. cbn [fst snd].
    intros h' e.
    rewrite (committed_EntityCountrySum ref _ h c ents ent_ws Hl).
    rewrite (committed_EntityTotal ref _ h c ents ent_ws Hl).
    by rewrite Hinv.
  - by rewrite (apply_raises E s ref e) by (by rewrite ?Hs).
Qed.

(** C3. Conservation.  From a store in which, for every bucket and
    entity, the country breakdown cells of the entity sum to the entity's
    total, any sequence of [apply_for_article] calls leads to a store in
    which they still do. *)
Theorem conservation_after_calls (calls : list (env * path)) (s : db) :
  conserved paths s ->
  conserved paths (apply_all slugify_unicode upper_unicode
      fromisoformat strftime paths calls s).
Proof.
  unfold apply_all. revert s.
  induction calls as [|[E ref] calls IH]; intros s Hinv; [done|].
  simpl. apply IH. by apply apply_conserved.
Qed.

(** A store without counter fields, such as one that holds only articles
    not yet rolled up, satisfies the invariant. *)
Lemma conserved_no_counters (s : db) :
  map_Forall (fun _ (d : doc) => d !! "count" = None /\ d !! "total" = None) s ->
  conserved paths s.
Proof.
  intros Hall h e. rewrite EntityCountrySum_collection. unfold EntityTotal.
  rewrite collection_sum_no_field.
  - unfold int_field. destruct (s !! ent_ref paths h e) as [d|] eqn:Hd; simpl.
    + by rewrite (proj2 (Hall _ _ Hd)).
    + by rewrite lookup_empty.
  - intros p d Hp. exact (proj1 (Hall p d Hp)).
Qed.

(** C4, as the code has it.  A call that commits increments
    [EntityTotal], [EntityCountryBreakdown] and [CountryEntityBreakdown]
    of an identifier once for every entry of the event's entity list whose
    name normalizes to it: entries are not deduplicated. *)
Theorem entity_counters_once_per_entry
    (E : env) (s : db) (ref : path) (a : doc) dt c h ents ent_ws :
  read_error E = None -> s !! ref = Some a ->
  truthy (doc_get a "rollups_done") = false ->
  ev_time E a = Ok dt -> event_country a = Ok c ->
  document_id (ev_hour a dt) = Ok h ->
  py_iter (event_entities a) = Ok ents ->
  loop h c ents = Ok ent_ws ->
  let s' := (apply E s ref).1 in
  (apply E s ref).2 = Ok tt /\
  forall eid,
    EntityTotal paths s' h eid
    = EntityTotal paths s h eid + occurrences eid (named_ids ents) /\
    EntityCountryBreakdown paths s' h eid c
    = EntityCountryBreakdown paths s h eid c + occurrences eid (named_ids ents) /\
    CountryEntityBreakdown paths s' h c eid
    = CountryEntityBreakdown paths s h c eid + occurrences eid (named_ids ents).
Proof.
  intros Hr Hs Hm Hdt Hc Hh Hi Hl s'. subst s'.
  rewrite (apply_committed E s ref a dt c h ents ent_ws) by done. cbn [fst snd].
  split; [done|]. intros eid. split; [|split].
  - rewrite (committed_EntityTotal ref _ h c ents ent_ws Hl).
    by rewrite bool_decide_eq_true_2.
  - by rewrite (committed_EntityCountryBreakdown ref _ h c ents ent_ws Hl).
  - by rewrite (committed_CountryEntityBreakdown ref _ h c ents ent_ws Hl).
Qed.

(** C5, as the code has it.  An event that has no timestamp field is not
    dropped: the call buckets it by the hour stored on the event or else by
    the current UTC hour, returns normally, sets the processed marker and
    increments the country total of that bucket. *)
Theorem missing_timestamp_uses_current_hour
    (E : env) (s : db) (ref : path) (a : doc) c h ents ent_ws :
  read_error E = None -> s !! ref = Some a ->
  truthy (doc_get a "rollups_done") = false ->
  a !! "time" = None ->
  event_country a = Ok c ->
  document_id (py_or (doc_get a "hour")
                 (PStr (hour_bucket strftime (now E)))) = Ok h ->
  py_iter (event_entities a) = Ok ents ->
  loop h c ents = Ok ent_ws ->
  let s' := (apply E s ref).1 in
  (apply E s ref).2 = Ok tt /\
  CountryTotal paths s' h c = CountryTotal paths s h c + 1 /\
  (exists d : doc, s' !! ref = Some d /\ d !! "rollups_done" = Some (PBool true)).
Proof.
  intros Hr Hs Hm Htime Hc Hh Hi Hl s'. subst s'.
  assert (ev_time E a = Ok (now E)) as Hdt.
  { unfold event_time, doc_get. by rewrite Htime. }
  rewrite (apply_committed E s ref a (now E) c h ents ent_ws) by done. cbn [fst snd].
  split; [done|]. split.
  - by rewrite (committed_CountryTotal ref _ h c ents ent_ws Hl).
  - by apply (committed_marker _ _ _ _ _ _ ents ent_ws).
Qed.

(** C6, as the code has it.  A reference to a missing event record makes
    the call return normally with the store unchanged; an error is
    propagated only when the store refuses the read. *)
Theorem missing_event_returns_silently (E : env) (s : db) (ref : path) :
  (read_error E = None -> s !! ref = None -> apply E s ref = (s, Ok tt))
  /\ (forall e, read_error E = Some e -> apply E s ref = (s, Raise e)).
Proof.
  split.
  - apply apply_missing.
  - intros e. apply apply_read_error.
Qed.

End WithLibraries.

End RollupProperties.

(** ** The query layer *)

Module LoaderProperties.
Import NewsDataLoader.

Lemma insert_desc_Permutation {A} (lt : A -> A -> bool) (x : A) (l : list A) :
  insert_desc lt x l ≡ₚ x :: l.
Proof.
  induction l as [|y r IH]; simpl; [done|].
  destruct (lt x y); [|done]. rewrite IH. apply perm_swap.
Qed.

Lemma sorted_desc_by_Permutation {A} (lt : A -> A -> bool) (l : list A) :
  sorted_desc_by lt l ≡ₚ l.
Proof.
  unfold sorted_desc_by. induction l as [|x l IH]; simpl; [done|].
  by rewrite insert_desc_Permutation, IH.
Qed.

Lemma insert_desc_HdRel {A} (key : A -> Z) (x y : A) (l : list A) :
  key y >= key x ->
  HdRel Z.ge (key y) (map key l) ->
  HdRel Z.ge (key y) (map key (insert_desc (fun a b => key a <? key b) x l)).
Proof.
  intros Hyx Hhd. destruct l as [|z r]; simpl.
  - by constructor.
  - destruct (key x <? key z); simpl; constructor; [|done].
    by inversion Hhd.
Qed.

Lemma insert_desc_Sorted {A} (key : A -> Z) (x : A) (l : list A) :
  Sorted Z.ge (map key l) ->
  Sorted Z.ge (map key (insert_desc (fun a b => key a <? key b) x l)).
Proof.
  induction l as [|y r IH]; simpl; intros Hs.
  - by repeat constructor.
  - inversion Hs as [|? ? Hr Hhd]; subst.
    destruct (Z.ltb_spec (key x) (key y)) as [Hlt|Hge]; simpl.
    + constructor; [by apply IH|]. apply insert_desc_HdRel; [lia|done].
    + constructor; [done|]. constructor. lia.
Qed.

(** [sorted_desc] yields a list whose keys never increase. *)
Lemma sorted_desc_Sorted {A} (key : A -> Z) (l : list A) :
  Sorted Z.ge (map key (sorted_desc key l)).
Proof.
  unfold sorted_desc, sorted_desc_by. induction l as [|x l IH]; simpl.
  - constructor.
  - by apply insert_desc_Sorted.
Qed.

Lemma sorted_desc_length {A} (key : A -> Z) (l : list A) :
  length (sorted_desc key l) = length l.
Proof. unfold sorted_desc. by rewrite sorted_desc_by_Permutation. Qed.

Lemma dict_set_length name total data :
  (length (dict_set name total data) <= S (length data))%nat.
Proof.
  induction data as [|[k v] rest IH]; simpl; [lia|].
  destruct (key_eqb k name); simpl; lia.
Qed.

Section WithLibraries.

Variable int_of_str : string -> option Z.
Variable fs_ltb : pyval -> pyval -> bool.

Local Abbreviation fill := (fill_data int_of_str).
Local Abbreviation query := (entities_by_total fs_ltb).
Local Abbreviation top := (top_entities int_of_str fs_ltb).

Lemma fill_data_length docs data r :
  fill docs data = Ok r -> (length r <= length data + length docs)%nat.
Proof.
  revert data. induction docs as [|[id dd] rest IH]; intros data; simpl.
  - intros [= <-]. lia.
  - destruct (py_int int_of_str _) as [total|]; simpl; [|discriminate].
    destruct (hashable _); [|discriminate].
    intros H. apply IH in H. pose proof (dict_set_length
      (py_or (doc_get dd "entity") (PStr id)) total data). lia.
Qed.

Lemma fill_data_shaped docs data :
  Forall (fun x : string * doc => rollup_shaped x.2 = true) docs ->
  exists r, fill docs data = Ok r.
Proof.
  revert data. induction docs as [|[id dd] rest IH]; intros data Hall; simpl.
  - eauto.
  - inversion Hall as [|? ? Hd Hrest]; subst. simpl in Hd.
    unfold rollup_shaped in Hd. apply andb_true_iff in Hd as [Htot Hent].
    unfold doc_get.
    destruct (dd !! "total") as [[| | z | | | |]|]; try discriminate;
      destruct (dd !! "entity") as [[| | | n | | |]|]; try discriminate; simpl.
    + unfold py_or at 1. simpl. destruct (negb (z =? 0)); simpl.
      * destruct (truthy (py_or (PStr n) (PStr id))) eqn:?;
          unfold py_or; simpl; destruct (str_truthy n); simpl; by apply IH.
      * unfold py_or; simpl; destruct (str_truthy n); simpl; by apply IH.
    + unfold py_or. simpl. destruct (negb (z =? 0)); simpl; by apply IH.
    + unfold py_or. simpl. destruct (str_truthy n); simpl; by apply IH.
    + unfold py_or. simpl. by apply IH.
Qed.

Lemma query_length (s : db) hour limit docs :
  query s hour limit = Ok docs -> Z.of_nat (length docs) <= limit.
Proof.
  unfold entities_by_total. destruct (Z.ltb_spec limit 0); [discriminate|].
  intros [= <-]. rewrite length_take. lia.
Qed.

Lemma query_subset (s : db) hour limit docs (P : string * doc -> Prop) :
  Forall P (collection_docs s ["mentions"; hour; "entities"]) ->
  query s hour limit = Ok docs -> Forall P docs.
Proof.
  unfold entities_by_total. destruct (limit <? 0); [discriminate|].
  intros Hall [= <-]. apply Forall_take.
  rewrite sorted_desc_by_Permutation.
  apply Forall_forall. intros x Hx. apply list_elem_of_In, filter_In in Hx as [Hx _].
  rewrite Forall_forall in Hall. apply Hall. by apply list_elem_of_In.
Qed.

(** C9, as the code has it.  For a non-negative limit, the series that
    [top_entities] returns has at most [limit] rows and its counts never
    increase from one row to the next (equal counts may follow each
    other); and it does return one when the entity documents of the bucket
    are as the rollup writes them. *)
Theorem top_entities_bounded_descending (s : db) (hour : string) (limit : Z) :
  0 <= limit ->
  (forall r, top s hour limit = Ok r ->
     Z.of_nat (length r) <= limit /\ Sorted Z.ge (map snd r))
  /\ (Forall (fun x : string * doc => rollup_shaped x.2 = true)
        (collection_docs s ["mentions"; hour; "entities"]) ->
      exists r, top s hour limit = Ok r).
Proof.
  intros Hlimit. split.
  - intros r. unfold top_entities.
    destruct (query s hour limit) as [docs|] eqn:Hq; simpl; [|discriminate].
    destruct (fill docs []) as [data|] eqn:Hf; simpl; [|discriminate].
    intros [= <-]. split.
    + rewrite sorted_desc_length. apply query_length in Hq.
      apply fill_data_length in Hf. simpl in Hf. lia.
    + apply sorted_desc_Sorted.
  - intros Hshape. unfold top_entities.
    destruct (query s hour limit) as [docs|e] eqn:Hq; simpl.
    + destruct (fill_data_shaped docs [] (query_subset _ _ _ _ _ Hshape Hq))
        as [data ->]. simpl. eauto.
    + unfold entities_by_total in Hq.
      destruct (Z.ltb_spec limit 0); [lia|discriminate].
Qed.

End WithLibraries.

End LoaderProperties.

(** ** The scenarios, run *)

Module Checks.
Import Scenarios SmartArticleCache FirestoreRollup NewsDataLoader.
Import CacheProperties RollupProperties LoaderProperties.

(** Scenario A of the specification. *)
Example scenario_A :
  CountryTotal default_paths db_A_rolled bucket "USA" = 2 /\
  EntityTotal default_paths db_A_rolled bucket "nasa" = 2 /\
  EntityCountryBreakdown default_paths db_A_rolled bucket "nasa" "USA" = 2 /\
  EntityCountryBreakdown default_paths db_A_rolled bucket "faa" "USA" = 1 /\
  breakdown_countries default_paths db_A_rolled bucket "nasa" = ["USA"] /\
  EntityCountrySum default_paths db_A_rolled bucket "nasa" = 2.
Proof. vm_compute. repeat split. Qed.

(** Scenario B: the three matching records are served from the parent
    entry, newest first, and the loader is not called. *)
Example scenario_B :
  let o := cache_get loader_down store_B bucket (Some "USA") (Some "NASA")
             (Some breakdown_nasa) in
  ids (ret o) = Ok [PStr "r3"; PStr "r2"; PStr "r1"] /\ fetches o = [].
Proof. vm_compute. split; reflexivity. Qed.

(** Scenario D: a second call on a processed event returns normally and
    leaves every document as it was. *)
Example scenario_D :
  let s1 := (rollup E0 db_A ref_1).1 in
  (rollup E1 s1 ref_1).2 = Ok tt /\ dump (rollup E1 s1 ref_1).1 = dump s1.
Proof. vm_compute. split; reflexivity. Qed.

(** *** The cache *)

(** C1 at scenarios B and C: with three matching rows in the parent entry
    the answer comes from it; with two, the loader is asked. *)
Lemma get_reuses_parent_only_when_complete_witness :
  let country := Some "USA" in
  let entity := Some "NASA" in
  let oB := cache_get loader_ok store_B bucket country entity (Some breakdown_nasa) in
  let oC := cache_get loader_ok store_C bucket country entity (Some breakdown_nasa) in
  (exists pkey parent_rows,
     pkey ∈ parent_keys bucket country entity /\
     store_B !! pkey = Some parent_rows /\
     3 <= Z.of_nat (length (filtered_rows str_plain lower_plain parent_rows country entity)) /\
     ret oB = _sort_trim no_datetime no_unordered
                (filtered_rows str_plain lower_plain parent_rows country entity) 3)
  /\ fetches oC = [fallback_fetch bucket country entity 3]
  /\ ret oC = bind (loader_ok (fallback_fetch bucket country entity 3))
                (fun fetched => _sort_trim no_datetime no_unordered fetched 3).
Proof.
  intros country entity oB oC. split.
  - apply (proj1 (get_reuses_parent_only_when_complete str_plain lower_plain
      no_datetime no_unordered
                    loader_ok store_B bucket country entity None
                    (Some breakdown_nasa) (Some global_tops) 3 3
                    eq_refl eq_refl eq_refl eq_refl eq_refl)).
    reflexivity.
  - apply (proj2 (get_reuses_parent_only_when_complete str_plain lower_plain
      no_datetime no_unordered
                    loader_ok store_C bucket country entity None
                    (Some breakdown_nasa) (Some global_tops) 3 3
                    eq_refl eq_refl eq_refl eq_refl eq_refl)).
    intros pkey parent_rows _ Hlook.
    unfold store_C in Hlook.
    apply lookup_singleton_Some in Hlook as [_ <-]. vm_compute. reflexivity.
Defined.

(** C8 at scenario C with the store down: the exception comes out and the
    cache is the one that went in. *)
Lemma get_failed_fetch_leaves_cache_witness :
  let o := cache_get loader_down store_C bucket (Some "USA") (Some "NASA")
             (Some breakdown_nasa) in
  ret o = Raise (StoreError "deadline exceeded") /\ store' o = store_C.
Proof.
  apply (get_failed_fetch_leaves_cache str_plain lower_plain
      no_datetime no_unordered loader_down
           store_C bucket (Some "USA") (Some "NASA") None (Some breakdown_nasa)
           (Some global_tops) 3 (StoreError "deadline exceeded")).
  - vm_compute. discriminate.
  - reflexivity.
Defined.

(** C7 fails as stated: Boeing is not in the snapshot, and the expected
    count is the number 0. *)
Lemma expected_count_absent_entity_is_zero :
("Boeing" ∉ global_tops.*1) /\
  _expected_count None (Some "Boeing") None None (Some global_tops) = Some 0.
Proof.
  split; [|reflexivity].
  apply (bool_decide_unpack _). vm_compute. exact I.
Qed.

(** C7 as amended, at the same input. *)
Lemma expected_count_entity_not_in_snapshot_witness :
  _expected_count None (Some "Boeing") None None (Some global_tops) = Some 0 /\
  fetches (cache_get loader_ok store_B bucket None (Some "Boeing") None)
  = [fallback_fetch bucket None (Some "Boeing") 3].
Proof.
  assert ("Boeing" ∉ global_tops.*1) as Hnot.
  { apply (bool_decide_unpack _). vm_compute. exact I. }
  destruct (expected_count_entity_not_in_snapshot str_plain lower_plain
      no_datetime no_unordered
              loader_ok store_B bucket None (Some "Boeing") None None
              (Some global_tops) 3 eq_refl eq_refl Hnot) as [H1 H2].
  split; [exact H1|]. apply H2; reflexivity.
Defined.

(** *** The rollup *)

(** C2 on the first event of scenario A. *)
Lemma apply_for_article_idempotent_witness :
  let s1 := (rollup E0 db_A ref_1).1 in
  apply_all slug_plain upper_plain no_isoformat strftime_hour default_paths
    [(E1, ref_1); (E_unreadable, ref_1); (E0, ref_1)] s1 = s1
  /\ rollup E1 s1 ref_1 = (s1, Ok tt).
Proof.
  destruct (apply_for_article_idempotent slug_plain upper_plain
      no_isoformat strftime_hour
              default_paths E0 db_A ref_1 eq_refl) as [H1 H2].
  split.
  - exact (H1 [E1; E_unreadable; E0]).
  - apply H2; [vm_compute|]; reflexivity.
Defined.

(** C3 on scenario A, with a repeated call thrown in. *)
Lemma conservation_after_calls_witness :
  conserved default_paths
    (apply_all slug_plain upper_plain no_isoformat strftime_hour default_paths
       [(E0, ref_1); (E1, ref_2); (E1, ref_1)] db_A).
Proof.
  apply conservation_after_calls. apply conserved_no_counters.
  unfold db_A. apply map_Forall_insert_2; [split; reflexivity|].
  apply map_Forall_singleton. split; reflexivity.
Defined.

(** C4 fails as stated: an event that lists NASA and nasa moves each of
    the three counters of [nasa] by two. *)
Lemma duplicate_names_counted_twice :
  named_ids slug_plain entities_twice = ["nasa"; "nasa"] /\
  (rollup E0 db_twice ref_1).2 = Ok tt /\
  EntityTotal default_paths db_twice bucket "nasa" = 0 /\
  EntityTotal default_paths (rollup E0 db_twice ref_1).1 bucket "nasa" = 2 /\
  EntityCountryBreakdown default_paths (rollup E0 db_twice ref_1).1
    bucket "nasa" "USA" = 2 /\
  CountryEntityBreakdown default_paths (rollup E0 db_twice ref_1).1
    bucket "USA" "nasa" = 2.
Proof. vm_compute. repeat split. Qed.

(** C4 as amended, on the same event. *)
Lemma entity_counters_once_per_entry_witness :
  let s' := (rollup E0 db_twice ref_1).1 in
  (rollup E0 db_twice ref_1).2 = Ok tt /\
  forall eid,
    EntityTotal default_paths s' bucket eid
    = EntityTotal default_paths db_twice bucket eid
      + occurrences eid (named_ids slug_plain entities_twice) /\
    EntityCountryBreakdown default_paths s' bucket eid "USA"
    = EntityCountryBreakdown default_paths db_twice bucket eid "USA"
      + occurrences eid (named_ids slug_plain entities_twice) /\
    CountryEntityBreakdown default_paths s' bucket "USA" eid
    = CountryEntityBreakdown default_paths db_twice bucket "USA" eid
      + occurrences eid (named_ids slug_plain entities_twice).
Proof.
  eapply (entity_counters_once_per_entry slug_plain upper_plain
      no_isoformat strftime_hour
            default_paths E0 db_twice ref_1 event_twice t0 "USA" bucket
            entities_twice); reflexivity.
Defined.

(** C5 fails as stated: the event without a timestamp is rolled up into
    the bucket of the current hour. *)
Lemma untimed_event_is_rolled_up :
  event_untimed !! "time" = None /\
  (rollup E0 db_untimed ref_1).2 = Ok tt /\
  CountryTotal default_paths db_untimed bucket "USA" = 0 /\
  CountryTotal default_paths (rollup E0 db_untimed ref_1).1 bucket "USA" = 1 /\
  EntityTotal default_paths (rollup E0 db_untimed ref_1).1 bucket "nasa" = 1.
Proof. vm_compute. repeat split. Qed.

(** C5 as amended, on the same event. *)
Lemma missing_timestamp_uses_current_hour_witness :
  let s' := (rollup E0 db_untimed ref_1).1 in
  (rollup E0 db_untimed ref_1).2 = Ok tt /\
  CountryTotal default_paths s' bucket "USA"
  = CountryTotal default_paths db_untimed bucket "USA" + 1 /\
  (exists d : doc, s' !! ref_1 = Some d /\ d !! "rollups_done" = Some (PBool true)).
Proof.
  eapply (missing_timestamp_uses_current_hour slug_plain upper_plain
      no_isoformat strftime_hour
            default_paths E0 db_untimed ref_1 event_untimed "USA" bucket
            [entity "NASA" "ORGANIZATION"]); reflexivity.
Defined.

(** C6 fails as stated: a call on a reference to no record returns
    normally. *)
Lemma missing_event_raises_nothing :
  (∅ : db) !! ref_1 = None /\ rollup E0 ∅ ref_1 = (∅, Ok tt).
Proof. split; reflexivity. Qed.

(** C6 as amended: silence for a missing record, the store's error for an
    unreadable one. *)
Lemma missing_event_returns_silently_witness :
  rollup E0 ∅ ref_1 = (∅, Ok tt) /\
  rollup E_unreadable db_A ref_1 = (db_A, Raise (StoreError "permission denied")).
Proof.
  split.
  - apply (proj1 (missing_event_returns_silently slug_plain upper_plain
      no_isoformat strftime_hour
                    default_paths E0 ∅ ref_1)); reflexivity.
  - apply (proj2 (missing_event_returns_silently slug_plain upper_plain
      no_isoformat strftime_hour
                    default_paths E_unreadable db_A ref_1)). reflexivity.
Defined.

(** *** The query layer *)

(** C9 fails as stated: NASA and FAA both stand at one mention, and the
    series lists them one after the other. *)
Lemma top_entities_tie_not_strict :
  top_entities no_int int_ltb db_tie bucket 5
  = Ok [(PStr "NASA", 1); (PStr "FAA", 1)]
  /\ ~ Sorted Z.gt (map snd [(PStr "NASA", 1); (PStr "FAA", 1)]).
Proof.
  split; [vm_compute; reflexivity|].
  intros H. inversion H as [|? ? _ Hhd]. inversion Hhd as [|? ? Hgt].
  discriminate Hgt.
Qed.

(** C9 as amended, on scenario A. *)
Lemma top_entities_bounded_descending_witness :
  let r := [(PStr "NASA", 2); (PStr "FAA", 1)] in
  top_entities no_int int_ltb db_A_rolled bucket 5 = Ok r /\
  Z.of_nat (length r) <= 5 /\ Sorted Z.ge (map snd r).
Proof.
  intros r.
  assert (top_entities no_int int_ltb db_A_rolled bucket 5 = Ok r) as Hr
    by (vm_compute; reflexivity).
  split; [exact Hr|].
  apply (proj1 (top_entities_bounded_descending no_int int_ltb db_A_rolled
                  bucket 5 ltac:(lia)) r Hr).
Defined.

End Checks.

(** ** More on the article cache *)

Module CacheMore.
Import SmartArticleCache CacheKeys CacheProperties LoaderProperties.

(** *** Sorting and trimming *)

Lemma insert_desc_StronglySorted {A} (key : A -> Z) (x : A) (l : list A) :
  StronglySorted (fun a b => key b <= key a) l ->
  StronglySorted (fun a b => key b <= key a)
    (insert_desc (fun a b => key a <? key b) x l).
Proof.
  induction l as [|y r IH]; simpl; intros Hs.
  - repeat constructor.
  - inversion Hs as [|? ? Hr Hall]; subst.
    destruct (Z.ltb_spec (key x) (key y)) as [Hlt|Hge].
    + constructor; [by apply IH|].
      rewrite insert_desc_Permutation. constructor; [lia|done].
    + constructor; [done|]. constructor; [lia|].
      eapply Forall_impl; [exact Hall|]. simpl. intros z Hz. lia.
Qed.

Lemma sorted_desc_StronglySorted {A} (key : A -> Z) (l : list A) :
  StronglySorted (fun a b => key b <= key a) (sorted_desc key l).
Proof.
  unfold sorted_desc, sorted_desc_by. induction l as [|x l IH]; simpl.
  - constructor.
  - by apply insert_desc_StronglySorted.
Qed.

Lemma StronglySorted_take_drop {A} (R : A -> A -> Prop) (l : list A) (n : nat) :
  StronglySorted R l ->
  StronglySorted R (take n l) /\
  forall x y, x ∈ take n l -> y ∈ drop n l -> R x y.
Proof.
  revert n. induction l as [|a l IH]; intros n Hs.
  - rewrite take_nil, drop_nil. split; [constructor|].
    intros x y Hx. by apply elem_of_nil in Hx.
  - destruct n as [|n]; simpl.
    + split; [constructor|]. intros x y Hx. by apply elem_of_nil in Hx.
    + inversion Hs as [|? ? Hl Hall]; subst.
      destruct (IH n Hl) as [Htake Hcross]. split.
      * constructor; [done|]. apply Forall_take. exact Hall.
      * intros x y Hx Hy. apply elem_of_cons in Hx as [->|Hx].
        -- rewrite Forall_forall in Hall. apply Hall.
           eapply subseteq_drop. exact Hy.
        -- by apply Hcross.
Qed.

Lemma ranked_snd {A} (ranks : list Z) (l : list A) :
  map snd (ranked ranks l) = l.
Proof.
  revert ranks. induction l as [|x l IH]; intros ranks; simpl; [done|].
  by rewrite IH.
Qed.

(** Whatever the ranks, [arrange] rearranges. *)
Lemma arrange_Permutation {A} (ranks : list Z) (l : list A) :
  arrange ranks l ≡ₚ l.
Proof.
  unfold arrange, sorted_desc.
  by rewrite sorted_desc_by_Permutation, ranked_snd.
Qed.

Lemma short_StronglySorted {A} (R : A -> A -> Prop) (l : list A) :
  (length l < 2)%nat -> StronglySorted R l.
Proof.
  destruct l as [|x [|y l]]; simpl; intros Hlen; [| |lia].
  - constructor.
  - repeat constructor.
Qed.

Section WithLibraries.

Variable str_other : pyval -> string.
Variable lower_unicode : string -> string.
Variable pd_to_datetime : pyval -> option sort_key.
Variable unordered_sort : list sort_key -> result (list Z).

Local Abbreviation trim := (_sort_trim pd_to_datetime unordered_sort).
Local Abbreviation key_of := (row_key pd_to_datetime).
Local Abbreviation time_key := (fun r : article => time_of (key_of r)).

(** When it returns, [rows_sorted] returns a rearrangement of the rows. *)
Lemma rows_sorted_Permutation (rows sorted : list article) :
  rows_sorted pd_to_datetime unordered_sort rows = Ok sorted -> sorted ≡ₚ rows.
Proof.
  unfold rows_sorted.
  destruct (length rows <? 2)%nat; [by intros [= <-]|].
  destruct (ordered _).
  { intros [= <-]. unfold sorted_desc. by rewrite sorted_desc_by_Permutation. }
  destruct (forallb _ _); [discriminate|].
  destruct (unordered_sort _) as [ranks|]; simpl; [|discriminate].
  intros [= <-]. apply arrange_Permutation.
Qed.

(** Rows whose keys are of one kind come back sorted by time. *)
Lemma rows_sorted_ordered (rows : list article) :
  ordered (map key_of rows) = true ->
  exists sorted,
    rows_sorted pd_to_datetime unordered_sort rows = Ok sorted /\
    sorted ≡ₚ rows /\
    StronglySorted (fun a b => time_key b <= time_key a) sorted.
Proof.
  intros Hord. unfold rows_sorted. rewrite Hord.
  destruct (Nat.ltb_spec (length rows) 2) as [Hlen|Hlen].
  - exists rows. split; [done|]. split; [done|].
    by apply short_StronglySorted.
  - exists (sorted_desc time_key rows). split; [done|]. split.
    + unfold sorted_desc. by rewrite sorted_desc_by_Permutation.
    + apply (sorted_desc_StronglySorted time_key).
Qed.

(** Two rows or more whose keys are datetimes, some with a time zone and
    some without, are not sorted: [TypeError]. *)
Lemma sort_trim_mixed_raises (rows : list article) (limit : Z) :
  (2 <= length rows)%nat ->
  forallb is_datetime (map key_of rows) = true ->
  ordered (map key_of rows) = false ->
  trim rows limit = Raise TypeError.
Proof.
  intros Hlen Hdt Hord. unfold _sort_trim, rows_sorted.
  destruct (Nat.ltb_spec (length rows) 2) as [?|_]; [lia|].
  by rewrite Hord, Hdt.
Qed.

(** X1. When the times of the rows are all datetimes with a time zone, or
    all without one, [_sort_trim] with a non-negative limit returns the
    [limit] most recent rows, newest first: the result has
    [min limit (len rows)] rows, in order of non-increasing time, and
    together with some remainder it is a rearrangement of the input in
    which no remaining row is more recent than a returned one. *)
Theorem sort_trim_most_recent (rows : list article) (limit : Z) :
  0 <= limit ->
  ordered (map (row_key pd_to_datetime) rows) = true ->
  exists top,
    _sort_trim pd_to_datetime unordered_sort rows limit = Ok top /\
    length top = Nat.min (Z.to_nat limit) (length rows) /\
    StronglySorted (fun a b => time_key b <= time_key a) top /\
    exists rest,
      rows ≡ₚ top ++ rest /\
      forall x y, x ∈ top -> y ∈ rest -> time_key y <= time_key x.
Proof.
  intros Hlimit Hord.
  destruct (rows_sorted_ordered rows Hord) as (sorted & Hsorted & Hperm & Hs).
  exists (take (Z.to_nat limit) sorted). unfold _sort_trim, slice_to.
  rewrite Hsorted. simpl.
  destruct (Z.leb_spec 0 limit) as [_|?]; [|lia].
  destruct (StronglySorted_take_drop _ _ (Z.to_nat limit) Hs) as [Htake Hcross].
  split; [done|]. split; [|split].
  - by rewrite length_take, Hperm.
  - exact Htake.
  - exists (drop (Z.to_nat limit) sorted). split.
    + by rewrite take_drop.
    + intros x y Hx Hy. by apply Hcross.
Qed.

(** Whatever the limit, the rows [_sort_trim] returns are rows it was
    given. *)
Lemma sort_trim_subseteq (rows top : list article) (limit : Z) :
  trim rows limit = Ok top -> top ⊆ rows.
Proof.
  unfold _sort_trim.
  destruct (rows_sorted _ _ rows) as [sorted|] eqn:Hsorted; simpl; [|discriminate].
  intros [= <-] x Hx. apply rows_sorted_Permutation in Hsorted.
  rewrite <- Hsorted. unfold slice_to in Hx.
  destruct (0 <=? limit); eapply subseteq_take; exact Hx.
Qed.

Local Abbreviation rows_for := (filtered_rows str_other lower_unicode).
Local Abbreviation reuse := (reuse_parent str_other lower_unicode).
Local Abbreviation cache_get :=
  (get str_other lower_unicode pd_to_datetime unordered_sort).

Lemma reuse_parent_unknown (store : cache) country entity pkeys :
  reuse store None country entity pkeys = None.
Proof. induction pkeys as [|pkey rest IH]; simpl; [done|]. exact IH. Qed.

(** X2. A query that was answered is answered from the cache when it is
    repeated: whatever the loader and the snapshots of the second call, it
    issues no fetch, leaves the store as the first call left it, and returns
    the same rows. *)
Theorem get_repeat_is_served_from_cache
    (loader1 loader2 : fetch -> result (list article)) (store : cache)
    hour country entity totals1 breakdown1 tops1 totals2 breakdown2 tops2
    per_page rows :
  str_truthy hour = true ->
  let o1 := cache_get loader1 store hour country entity totals1 breakdown1
              tops1 per_page in
  ret o1 = Ok rows ->
  cache_get loader2 (store' o1) hour country entity totals2 breakdown2 tops2
    per_page
  = Outcome (Ok rows) (store' o1) [].
Proof.
  intros Hhour o1. subst o1. unfold get. rewrite Hhour. simpl.
  destruct (store !! _key hour country entity) as [cached|] eqn:Hkey; simpl.
  - intros Hret. by rewrite Hkey, Hret.
  - destruct (reuse store _ country entity _) as [filtered|]; simpl.
    + intros Hret. by rewrite lookup_insert_eq, Hret.
    + destruct (loader1 _) as [fetched|]; simpl; [|discriminate].
      intros Hret. by rewrite lookup_insert_eq, Hret.
Qed.

(** X3. [get] writes at most the entry of the exact key: every other entry
    of the store is the same afterwards; and after an answer for a
    non-empty hour the exact key has an entry. *)
Theorem get_touches_only_exact_key
    (loader : fetch -> result (list article)) (store : cache)
    hour country entity totals breakdown tops per_page :
  let o := cache_get loader store hour country entity totals breakdown tops
             per_page in
  (forall k, k <> _key hour country entity -> store' o !! k = store !! k)
  /\ (str_truthy hour = true -> (exists rows, ret o = Ok rows) ->
      is_Some (store' o !! _key hour country entity)).
Proof.
  intros o. subst o. unfold get.
  destruct (str_truthy hour); simpl; [|split; [done|discriminate]].
  destruct (store !! _key hour country entity) as [cached|] eqn:Hkey; simpl.
  { split; [done|]. intros _ _. by rewrite Hkey. }
  destruct (reuse store _ country entity _) as [filtered|]; simpl.
  { split; [intros k Hk; by rewrite lookup_insert_ne|].
    intros _ _. rewrite lookup_insert_eq. eauto. }
  destruct (loader _) as [fetched|]; simpl.
  - split; [intros k Hk; by rewrite lookup_insert_ne|].
    intros _ _. rewrite lookup_insert_eq. eauto.
  - split; [done|]. intros _ [rows Hrows]. discriminate.
Qed.

(** X4. When the expected count is unknown, no parent entry is reused: on
    a miss of the exact key [get] fetches, whatever the store holds under
    the broader keys, and what it returns or raises is what the loader
    raises or what sorting and trimming the fetched rows returns or
    raises. *)
Theorem get_unknown_expected_fetches
    (loader : fetch -> result (list article)) (store : cache)
    hour country entity totals breakdown tops per_page :
  str_truthy hour = true ->
  store !! _key hour country entity = None ->
  _expected_count country entity totals breakdown tops = None ->
  let o := cache_get loader store hour country entity totals breakdown tops
             per_page in
  fetches o = [fallback_fetch hour country entity per_page] /\
  ret o = bind (loader (fallback_fetch hour country entity per_page))
            (fun fetched =>
               _sort_trim pd_to_datetime unordered_sort fetched per_page).
Proof.
  intros Hhour Hmiss Hexp o. subst o. unfold get.
  rewrite Hhour, Hmiss, Hexp, reuse_parent_unknown. simpl.
  destruct (loader _); done.
Qed.

(** X5. Rows served on a miss without a fetch are rows of a broader entry
    of the store, and every one of them matches both filters. *)
Theorem get_reused_rows_match
    (loader : fetch -> result (list article)) (store : cache)
    hour country entity totals breakdown tops per_page rows :
  str_truthy hour = true ->
  store !! _key hour country entity = None ->
  let o := cache_get loader store hour country entity totals breakdown tops
             per_page in
  fetches o = [] ->
  ret o = Ok rows ->
  exists pkey parent_rows,
    pkey ∈ parent_keys hour country entity /\
    store !! pkey = Some parent_rows /\
    store' o !! _key hour country entity
    = Some (rows_for parent_rows country entity) /\
    forall r, r ∈ rows ->
      r ∈ parent_rows /\ _matches str_other lower_unicode r country entity = true.
Proof.
  intros Hhour Hmiss o. subst o. unfold get. rewrite Hhour, Hmiss. simpl.
  destruct (reuse store _ country entity _) as [filtered|] eqn:Hr; simpl.
  - intros _ Hret.
    apply reuse_parent_Some in Hr as (n & pkey & parent_rows & _ & Hin & Hp & -> & _).
    exists pkey, parent_rows. split; [done|]. split; [done|].
    split; [by rewrite lookup_insert_eq|].
    intros r Hr. apply (sort_trim_subseteq _ _ _ Hret) in Hr.
    unfold filtered_rows in Hr. apply list_elem_of_In, filter_In in Hr as [Hr1 Hr2].
    split; [by apply list_elem_of_In|done].
  - destruct (loader _); simpl; discriminate.
Qed.

(** *** Keys *)

Lemma pipe_split (a b c d : string) :
  pipe_free a = true -> pipe_free c = true ->
  a +:+ "|" +:+ b = c +:+ "|" +:+ d -> a = c /\ b = d.
Proof.
  revert c. induction a as [|x a IH]; intros [|y c]; simpl; intros Ha Hc Heq.
  - injection Heq as Heq. by subst.
  - injection Heq as Hy _. subst y. simpl in Hc. discriminate.
  - injection Heq as Hx _. subst x. simpl in Ha. discriminate.
  - injection Heq as Hxy Heq. subst y.
    apply andb_true_iff in Ha as [_ Ha]. apply andb_true_iff in Hc as [_ Hc].
    destruct (IH c Ha Hc Heq) as [Hac Hbd]. by subst.
Qed.

(** X6. Two queries whose hours and countries hold no ['|'] have the same
    cache key only if they agree on the hour, on the country and on the
    entity, where a filter that is not set and an empty one count as the
    same. *)
Theorem key_injective hour1 country1 entity1 hour2 country2 entity2 :
  pipe_free hour1 = true -> pipe_free hour2 = true ->
  pipe_free (opt_str country1) = true -> pipe_free (opt_str country2) = true ->
  _key hour1 country1 entity1 = _key hour2 country2 entity2 ->
  hour1 = hour2 /\ opt_str country1 = opt_str country2
  /\ opt_str entity1 = opt_str entity2.
Proof.
  intros H1 H2 Hc1 Hc2 Hkey. unfold _key in Hkey.
  apply pipe_split in Hkey as [-> Hrest]; [|done|done].
  apply pipe_split in Hrest as [-> ->]; done.
Qed.

End WithLibraries.

End CacheMore.

(** ** More on the rollup engine *)

Module RollupMore.
Import FirestoreRollup RollupNotions StoreProperties RollupProperties.

Local Ltac unfold_refs :=
  unfold entity_writes, head_writes, write_incr, write_incr_in, in_collection,
    ent_country_ref, country_entity_ref, ent_ref, country_ref, mentions_hour;
  simpl.

Local Ltac solve_incr :=
  unfold_refs; repeat case_bool_decide; simplify_eq/=;
  repeat match goal with
         | |- context [String.eqb ?a ?b] => destruct (String.eqb_spec a b)
         end;
  simplify_eq/=; try done; try lia.

Section WithLibraries.

Variable slugify_unicode : string -> Z -> string.
Variable upper_unicode : string -> string.
Variable fromisoformat : string -> option Z.
Variable strftime : string -> Z -> string.
Variable paths : RollupPaths.

Local Abbreviation txn := (_txn slugify_unicode upper_unicode
    fromisoformat strftime paths).
Local Abbreviation apply := (apply_for_article slugify_unicode upper_unicode
    fromisoformat strftime paths).
Local Abbreviation loop := (entities_loop slugify_unicode paths).
Local Abbreviation named_id := (named_id slugify_unicode).
Local Abbreviation named_ids := (named_ids slugify_unicode).
Local Abbreviation slugify := (slugify slugify_unicode).
Local Abbreviation event_country := (event_country upper_unicode).
Local Abbreviation ev_time := (event_time fromisoformat).
Local Abbreviation ev_hour := (event_hour strftime).

(** *** What one pass adds to a cell of any bucket and country *)

Lemma pass_ent_country_any h0 c0 h c e eid name etype :
  sum_Z (map (write_incr (ent_country_ref paths h e c) "count")
           (entity_writes paths h0 c0 eid name etype))
  = if bool_decide (h = h0) then
      if bool_decide (c = c0) then (if String.eqb e eid then 1 else 0) else 0
    else 0.
Proof. solve_incr. Qed.

Lemma pass_country_ent_any h0 c0 h c e eid name etype :
  sum_Z (map (write_incr (country_entity_ref paths h c e) "count")
           (entity_writes paths h0 c0 eid name etype))
  = if bool_decide (h = h0) then
      if bool_decide (c = c0) then (if String.eqb e eid then 1 else 0) else 0
    else 0.
Proof. solve_incr. Qed.

Lemma head_country_total_any ref hv h0 c0 h c :
  sum_Z (map (write_incr (country_ref paths h c) "total")
           (head_writes paths ref hv h0 c0))
  = if bool_decide (h = h0) then (if bool_decide (c = c0) then 1 else 0) else 0.
Proof. solve_incr. Qed.

(** *** The counters of every bucket after a run that commits *)

Section Committed.

Variables (ref : path) (hv : pyval) (h c : string).
Variables (ents : list pyval) (ent_ws : list write).
Hypothesis Hloop : loop h c ents = Ok ent_ws.
Variables (ct : Z) (s : db).

Local Abbreviation s' := (commit ct s (head_writes paths ref hv h c ++ ent_ws)).

Lemma committed_CountryTotal_any h' c' :
  CountryTotal paths s' h' c'
  = CountryTotal paths s h' c'
    + if bool_decide (h' = h) then (if bool_decide (c' = c) then 1 else 0) else 0.
Proof.
  unfold CountryTotal.
  fold (cell s' (country_ref paths h' c') "total").
  fold (cell s (country_ref paths h' c') "total").
  rewrite cell_commit by (eapply run_counter_only; [auto|exact Hloop]).
  rewrite map_app, sum_Z_app, head_country_total_any.
  rewrite (loop_sum _ _ _ _ _ _ _ _
             (fun eid name etype => pass_country_total paths h c h' c' eid name etype)
             Hloop).
  rewrite sum_zero. lia.
Qed.

Lemma committed_EntityCountryBreakdown_any h' e c' :
  EntityCountryBreakdown paths s' h' e c'
  = EntityCountryBreakdown paths s h' e c'
    + if bool_decide (h' = h) then
        if bool_decide (c' = c) then occurrences e (named_ids ents) else 0
      else 0.
Proof.
  unfold EntityCountryBreakdown.
  fold (cell s' (ent_country_ref paths h' e c') "count").
  fold (cell s (ent_country_ref paths h' e c') "count").
  rewrite cell_commit by (eapply run_counter_only; [auto|exact Hloop]).
  rewrite map_app, sum_Z_app, head_ent_country.
  rewrite (loop_sum _ _ _ _ _ _ _ _
             (fun eid => pass_ent_country_any h c h' c' e eid) Hloop).
  repeat case_bool_decide; rewrite ?sum_occurrences, ?sum_zero; lia.
Qed.

Lemma committed_CountryEntityBreakdown_any h' c' e :
  CountryEntityBreakdown paths s' h' c' e
  = CountryEntityBreakdown paths s h' c' e
    + if bool_decide (h' = h) then
        if bool_decide (c' = c) then occurrences e (named_ids ents) else 0
      else 0.
Proof.
  unfold CountryEntityBreakdown.
  fold (cell s' (country_entity_ref paths h' c' e) "count").
  fold (cell s (country_entity_ref paths h' c' e) "count").
  rewrite cell_commit by (eapply run_counter_only; [auto|exact Hloop]).
  rewrite map_app, sum_Z_app, head_country_ent.
  rewrite (loop_sum _ _ _ _ _ _ _ _
             (fun eid => pass_country_ent_any h c h' c' e eid) Hloop).
  repeat case_bool_decide; rewrite ?sum_occurrences, ?sum_zero; lia.
Qed.

End Committed.

Lemma occurrences_nonneg eid ids : 0 <= occurrences eid ids.
Proof. unfold occurrences. lia. Qed.

(** A call either leaves the store as it is or commits a run. *)
Lemma apply_cases (E : env) (s : db) (ref : path) :
  (apply E s ref).1 = s
  \/ exists (a : doc) dt c h ents ent_ws,
       loop h c ents = Ok ent_ws /\
       (apply E s ref).1
       = commit (commit_time E) s
           (head_writes paths ref (ev_hour a dt) h c ++ ent_ws).
Proof.
  destruct (read_error E) as [e|] eqn:Hr.
  { left. by rewrite (apply_read_error _ _ _ _ _ E s ref e). }
  destruct (s !! ref) as [a|] eqn:Hs; [|left; by rewrite apply_missing].
  destruct (truthy (doc_get a "rollups_done")) eqn:Hm.
  { left. by rewrite (apply_marked _ _ _ _ _ E s ref a). }
  destruct (txn E ref (Some a)) as [ws|e] eqn:Ht.
  - destruct (txn_Ok_inv _ _ _ _ _ E ref a ws Hm Ht)
      as (dt & c & h & ents & ent_ws & Hdt & Hc & Hh & Hi & Hl & ->).
    right. exists a, dt, c, h, ents, ent_ws. split; [done|].
    by rewrite (apply_committed _ _ _ _ _ E s ref a dt c h ents ent_ws).
  - left. by rewrite (apply_raises _ _ _ _ _ E s ref e) by (by rewrite ?Hs).
Qed.

Lemma apply_mirrored (E : env) (s : db) (ref : path) :
  mirrored paths s -> mirrored paths (apply E s ref).1.
Proof.
  intros Hinv.
  destruct (apply_cases E s ref)
    as [->|(a & dt & c & h & ents & ent_ws & Hl & ->)]; [done|].
  intros h' e c'.
  rewrite (committed_EntityCountryBreakdown_any ref _ h c ents ent_ws Hl).
  rewrite (committed_CountryEntityBreakdown_any ref _ h c ents ent_ws Hl).
  by rewrite Hinv.
Qed.

(** X7. The two breakdown families stay mirror images of each other: if
    every cell of an entity under a country equals the cell of that country
    under the entity, it is still so after any sequence of calls. *)
Theorem breakdowns_stay_mirrored (calls : list (env * path)) (s : db) :
  mirrored paths s ->
  mirrored paths (apply_all slugify_unicode upper_unicode
      fromisoformat strftime paths calls s).
Proof.
  unfold apply_all. revert s.
  induction calls as [|[E ref] calls IH]; intros s Hinv; [done|].
  simpl. apply IH. by apply apply_mirrored.
Qed.

Lemma apply_counters_le (E : env) (s : db) (ref : path) :
  counters_le paths s (apply E s ref).1.
Proof.
  destruct (apply_cases E s ref)
    as [->|(a & dt & c & h & ents & ent_ws & Hl & ->)].
  { intros h c e. lia. }
  intros h' c' e.
  rewrite (committed_CountryTotal_any ref _ h c ents ent_ws Hl).
  rewrite (committed_EntityTotal _ paths ref _ h c ents ent_ws Hl).
  rewrite (committed_EntityCountryBreakdown_any ref _ h c ents ent_ws Hl).
  rewrite (committed_CountryEntityBreakdown_any ref _ h c ents ent_ws Hl).
  pose proof (occurrences_nonneg e (named_ids ents)).
  repeat case_bool_decide; lia.
Qed.

(** X8. Counters only grow: after any sequence of calls, no country
    total, entity total or breakdown cell is smaller than it was. *)
Theorem counters_never_decrease (calls : list (env * path)) (s : db) :
  counters_le paths s (apply_all slugify_unicode upper_unicode
      fromisoformat strftime paths calls s).
Proof.
  unfold apply_all. revert s.
  induction calls as [|[E ref] calls IH]; intros s.
  - intros h c e. simpl. lia.
  - simpl. intros h c e.
    pose proof (apply_counters_le E s ref h c e).
    pose proof (IH (apply E s ref).1 h c e). lia.
Qed.

(** X9. A call that commits counts in its own bucket and country only:
    it adds one to the country total of the event's bucket and country,
    and leaves alone every counter of another bucket and every country
    total and breakdown cell of another country. *)
Theorem rollup_stays_in_its_bucket
    (E : env) (s : db) (ref : path) (a : doc) dt c h ents ent_ws :
  read_error E = None -> s !! ref = Some a ->
  truthy (doc_get a "rollups_done") = false ->
  ev_time E a = Ok dt -> event_country a = Ok c ->
  document_id (ev_hour a dt) = Ok h ->
  py_iter (event_entities a) = Ok ents ->
  loop h c ents = Ok ent_ws ->
  let s' := (apply E s ref).1 in
  CountryTotal paths s' h c = CountryTotal paths s h c + 1 /\
  forall h' c' e,
    (h' <> h \/ c' <> c ->
       CountryTotal paths s' h' c' = CountryTotal paths s h' c' /\
       EntityCountryBreakdown paths s' h' e c'
       = EntityCountryBreakdown paths s h' e c' /\
       CountryEntityBreakdown paths s' h' c' e
       = CountryEntityBreakdown paths s h' c' e) /\
    (h' <> h -> EntityTotal paths s' h' e = EntityTotal paths s h' e).
Proof.
  intros Hr Hs Hm Hdt Hc Hh Hi Hl s'. subst s'.
  rewrite (apply_committed _ _ _ _ _ E s ref a dt c h ents ent_ws) by done.
  cbn [fst snd]. split.
  - rewrite (committed_CountryTotal_any ref _ h c ents ent_ws Hl).
    by rewrite !bool_decide_eq_true_2.
  - intros h' c' e. split.
    + intros Hne.
      rewrite (committed_CountryTotal_any ref _ h c ents ent_ws Hl).
      rewrite (committed_EntityCountryBreakdown_any ref _ h c ents ent_ws Hl).
      rewrite (committed_CountryEntityBreakdown_any ref _ h c ents ent_ws Hl).
      repeat case_bool_decide; try lia. destruct Hne; congruence.
    + intros Hne.
      rewrite (committed_EntityTotal _ paths ref _ h c ents ent_ws Hl).
      case_bool_decide; [congruence|lia].
Qed.

(** *** Which documents a call writes *)

Lemma commit_lookup_other (ct : Z) (ws : list write) (s : db) (p : path) :
  Forall (fun w => w_ref w <> p) ws -> commit ct s ws !! p = s !! p.
Proof.
  unfold commit. revert s. induction ws as [|w ws IH]; intros s Hall; [done|].
  inversion Hall; subst. simpl. rewrite IH by done.
  unfold apply_write. by rewrite lookup_insert_ne.
Qed.

Lemma under_root_ne (p q : path) :
  under_root (mentions_root paths) p = false ->
  under_root (mentions_root paths) q = true -> q <> p.
Proof. intros Hp Hq ->. congruence. Qed.

(** X10. A call writes to the article it is given and below the mentions
    root, nowhere else: every other document of the store, other articles
    included, is the same afterwards. *)
Theorem rollup_writes_article_and_mentions_only
    (E : env) (s : db) (ref p : path) :
  p <> ref ->
  under_root (mentions_root paths) p = false ->
  (apply E s ref).1 !! p = s !! p.
Proof.
  intros Hne Hroot.
  destruct (apply_cases E s ref)
    as [->|(a & dt & c & h & ents & ent_ws & Hl & ->)]; [done|].
  apply commit_lookup_other. apply Forall_app. split.
  - unfold head_writes. repeat constructor; simpl.
    + congruence.
    + apply (under_root_ne _ _ Hroot). simpl. apply String.eqb_refl.
    + apply (under_root_ne _ _ Hroot). simpl. apply String.eqb_refl.
  - eapply loop_Forall; [|exact Hl]. intros eid name etype.
    unfold entity_writes. repeat constructor; simpl;
      apply (under_root_ne _ _ Hroot); simpl; apply String.eqb_refl.
Qed.

(** *** Entries the loop does not get through *)

Lemma passable_named ent eid : named_id ent = Some eid -> passable_entity ent = true.
Proof.
  unfold named_id, passable_entity. destruct ent as [| | | | | |d]; try discriminate.
  destruct (assoc_get d "name"); try discriminate. intros _.
  by rewrite !orb_true_r.
Qed.

(** The loop gets through exactly the lists whose entries are all
    passable. *)
Lemma loop_Ok_iff h c ents :
  (exists ws, loop h c ents = Ok ws)
  <-> Forall (fun ent => passable_entity ent = true) ents.
Proof.
  clear upper_unicode fromisoformat strftime.
  induction ents as [|ent rest IH].
  - split; [constructor|]. intros _. simpl. eauto.
  - rewrite (loop_cons _ paths). rewrite Forall_cons.
    destruct (named_id ent) as [eid|] eqn:Hid.
    + rewrite (passable_named _ _ Hid). rewrite <- IH. split.
      * intros [ws Hws]. split; [done|].
        destruct (loop h c rest); simpl in Hws; [eauto|discriminate].
      * intros [_ [ws Hws]]. rewrite Hws. simpl. eauto.
    + unfold passable_entity, named_id in *.
      destruct ent as [| [] | z | [] | t | [] | [|p d]]; simpl in *;
        rewrite <- ?IH; try tauto;
        try (split; [intros [ws Hws]; discriminate | intros [Hf _]; discriminate]).
      * destruct (Z.eqb z 0); simpl; rewrite <- ?IH; try tauto.
        split; [intros [ws Hws]; discriminate | intros [Hf _]; discriminate].
      * revert Hid.
        generalize (let (k', v) := p in
                    if String.eqb k' "name" then v else assoc_get d "name").
        intros [| [] | z | [] | t | [] | []]; simpl; intros Hid;
          try discriminate; try tauto;
          try (split; [intros [ws Hws]; discriminate | intros [Hf _]; discriminate]).
        destruct (Z.eqb z 0); simpl; try tauto.
        split; [intros [ws Hws]; discriminate | intros [Hf _]; discriminate].
Qed.

(** X11. One entry the loop cannot get through aborts the whole event:
    when the entity list of an unprocessed event holds an entry that is
    neither empty nor a dict, or a dict whose name is neither empty nor a
    string, the call raises and the store is left exactly as it was, the
    increments for the entries before it included. *)
Theorem malformed_entity_aborts_event
    (E : env) (s : db) (ref : path) (a : doc) ents :
  read_error E = None -> s !! ref = Some a ->
  truthy (doc_get a "rollups_done") = false ->
  py_iter (event_entities a) = Ok ents ->
  Exists (fun ent => passable_entity ent = false) ents ->
  exists e, apply E s ref = (s, Raise e).
Proof.
  intros Hr Hs Hm Hi Hbad.
  destruct (txn E ref (Some a)) as [ws|e] eqn:Ht.
  - destruct (txn_Ok_inv _ _ _ _ _ E ref a ws Hm Ht)
      as (dt & c & h & ents' & ent_ws & _ & _ & _ & Hi' & Hl & _).
    rewrite Hi in Hi'. injection Hi' as <-.
    assert (Forall (fun ent => passable_entity ent = true) ents) as Hall
      by (apply (loop_Ok_iff h c); eauto).
    apply Exists_exists in Hbad as (ent & Hin & Hent).
    rewrite Forall_forall in Hall. rewrite (Hall ent Hin) in Hent. discriminate.
  - exists e. apply apply_raises; [done|]. by rewrite Hs.
Qed.

End WithLibraries.

End RollupMore.

(** ** Entity identifiers *)

Module SlugProperties.
Import FirestoreRollup RollupNotions.

Local Ltac by_cases_on c :=
  destruct c as [[] [] [] [] [] [] [] []]; vm_compute; try reflexivity;
  try discriminate; intros; try discriminate; try reflexivity.

Lemma lower_ascii_not_upper c : is_upper (lower_ascii c) = false.
Proof. by_cases_on c. Qed.

Lemma lower_ascii_fixed c : is_upper c = false -> lower_ascii c = c.
Proof. by_cases_on c. Qed.

Lemma lower_upper_ascii c : lower_ascii (upper_ascii c) = lower_ascii c.
Proof. by_cases_on c. Qed.

Lemma lower_lower_ascii c : lower_ascii (lower_ascii c) = lower_ascii c.
Proof. by_cases_on c. Qed.

Lemma kept_is_slug_char c :
  slug_keep c = true -> is_space c = false -> is_upper c = false ->
  slug_char c = true.
Proof. by_cases_on c. Qed.

Lemma slug_char_kept c :
  slug_char c = true ->
  slug_keep c = true /\ is_space c = false /\ is_upper c = false.
Proof. by_cases_on c; repeat split. Qed.

Lemma chars_map_string f s :
  list_ascii_of_string (map_string f s) = map f (list_ascii_of_string s).
Proof. induction s as [|c s IH]; simpl; [done|]. by rewrite IH. Qed.

Lemma map_string_compose f g s :
  (forall c, f (g c) = f c) -> map_string f (map_string g s) = map_string f s.
Proof. intros H. induction s as [|c s IH]; simpl; [done|]. by rewrite H, IH. Qed.

Lemma string_length_chars s :
  String.length s = length (list_ascii_of_string s).
Proof. induction s as [|c s IH]; simpl; [done|]. by rewrite IH. Qed.

Lemma lstrip_Forall (P : ascii -> Prop) l : Forall P l -> Forall P (lstrip l).
Proof.
  induction 1 as [|c l Hc Hl IH]; simpl; [constructor|].
  destruct (is_space c); [done|]. by constructor.
Qed.

Lemma strip_Forall (P : ascii -> Prop) l : Forall P l -> Forall P (strip l).
Proof.
  intros H. unfold strip.
  apply Forall_rev, lstrip_Forall, Forall_rev, lstrip_Forall, H.
Qed.

Lemma collapse_spaces_slug b l :
  Forall (fun c => slug_keep c = true /\ is_upper c = false) l ->
  Forall (fun c => slug_char c = true) (collapse_spaces b l).
Proof.
  intros H. revert b. induction H as [|c l [Hk Hu] Hl IH]; intros b; simpl.
  - constructor.
  - destruct (is_space c) eqn:Hs.
    + destruct b; [apply IH|]. constructor; [reflexivity|apply IH].
    + constructor; [by apply kept_is_slug_char|apply IH].
Qed.

Lemma slice_to_Forall {A} (P : A -> Prop) (l : list A) m :
  Forall P l -> Forall P (slice_to l m).
Proof. intros H. unfold slice_to. destruct (0 <=? m); by apply Forall_take. Qed.

(** The characters of the string before the final fallback. *)
Lemma slug_body_chars s m :
  Forall (fun c => slug_char c = true)
    (slice_to
       (collapse_spaces false
          (strip (List.filter slug_keep (list_ascii_of_string (lower s))))) m).
Proof.
  apply slice_to_Forall, collapse_spaces_slug, strip_Forall.
  apply Forall_forall. intros c Hc.
  apply list_elem_of_In, filter_In in Hc as [Hc Hk]. split; [done|].
  unfold lower in Hc. rewrite chars_map_string in Hc.
  apply in_map_iff in Hc as (c0 & <- & _). apply lower_ascii_not_upper.
Qed.

Lemma str_truthy_chars l :
  str_truthy (string_of_list_ascii l) = match l with [] => false | _ => true end.
Proof. by destruct l. Qed.

(** The string before the final fallback, and what [slugify_ascii] makes
    of it. *)
Local Abbreviation slug_body s max_len :=
  (slice_to
     (collapse_spaces false
        (strip (List.filter slug_keep (list_ascii_of_string (lower s)))))
     max_len).

Lemma slugify_cases (s : string) (max_len : Z) :
  (slug_body s max_len = [] /\ slugify_ascii s max_len = "entity")
  \/ (slug_body s max_len <> [] /\
      slugify_ascii s max_len = string_of_list_ascii (slug_body s max_len)).
Proof.
  unfold slugify_ascii. rewrite str_truthy_chars.
  destruct (slug_body s max_len); [by left|by right].
Qed.

Lemma slug_body_length (s : string) (max_len : Z) :
  0 <= max_len -> Z.of_nat (length (slug_body s max_len)) <= max_len.
Proof.
  intros Hm. unfold slice_to. destruct (Z.leb_spec 0 max_len); [|lia].
  rewrite length_take. lia.
Qed.

Lemma slugify_ascii_shape (s : string) (max_len : Z) :
  let r := slugify_ascii s max_len in
  r <> "" /\
  Forall (fun c => slug_char c = true) (list_ascii_of_string r) /\
  (0 <= max_len -> Z.of_nat (String.length r) <= Z.max max_len 6).
Proof.
  intros r. subst r.
  destruct (slugify_cases s max_len) as [[_ ->]|[Hne ->]].
  - split; [discriminate|]. split; [|simpl; lia].
    simpl. repeat constructor.
  - split; [by destruct (slug_body s max_len)|]. split.
    + rewrite list_ascii_of_string_of_list_ascii. apply slug_body_chars.
    + intros Hm. rewrite string_length_chars, list_ascii_of_string_of_list_ascii.
      pose proof (slug_body_length s max_len Hm). lia.
Qed.

Lemma map_fixed {A} (f : A -> A) (l : list A) :
  Forall (fun x => f x = x) l -> map f l = l.
Proof. induction 1 as [|x l Hx Hl IH]; simpl; [done|]. by rewrite Hx, IH. Qed.

Lemma filter_all {A} (f : A -> bool) (l : list A) :
  Forall (fun x => f x = true) l -> List.filter f l = l.
Proof. induction 1 as [|x l Hx Hl IH]; simpl; [done|]. by rewrite Hx, IH. Qed.

Lemma lstrip_no_space l :
  Forall (fun c => is_space c = false) l -> lstrip l = l.
Proof. intros H. destruct H as [|c l Hc Hl]; simpl; [done|]. by rewrite Hc. Qed.

Lemma collapse_no_space b l :
  Forall (fun c => is_space c = false) l -> collapse_spaces b l = l.
Proof.
  intros H. revert b. induction H as [|c l Hc Hl IH]; intros b; simpl; [done|].
  by rewrite Hc, IH.
Qed.

(** A non-empty string of slug characters that fits is its own slug. *)
Lemma slugify_fixed (r : string) (max_len : Z) :
  r <> "" ->
  Forall (fun c => slug_char c = true) (list_ascii_of_string r) ->
  Z.of_nat (String.length r) <= max_len ->
  slugify_ascii r max_len = r.
Proof.
  intros Hne Hchars Hlen. unfold slugify_ascii.
  assert (Forall (fun c => slug_keep c = true) (list_ascii_of_string r)) as Hkeep.
  { eapply Forall_impl; [exact Hchars|]. intros c Hc.
    by destruct (slug_char_kept c Hc). }
  assert (Forall (fun c => is_space c = false) (list_ascii_of_string r)) as Hsp.
  { eapply Forall_impl; [exact Hchars|]. intros c Hc.
    by destruct (slug_char_kept c Hc) as (_ & ? & _). }
  assert (lower r = r) as ->.
  { rewrite <- (string_of_list_ascii_of_string r) at 2.
    rewrite <- (string_of_list_ascii_of_string (lower r)).
    unfold lower. rewrite chars_map_string. f_equal. apply map_fixed.
    eapply Forall_impl; [exact Hchars|]. intros c Hc.
    apply lower_ascii_fixed. by destruct (slug_char_kept c Hc) as (_ & _ & ?). }
  rewrite filter_all by done. unfold strip.
  rewrite (lstrip_no_space _ Hsp).
  rewrite (lstrip_no_space (rev _)) by (by apply Forall_rev).
  rewrite rev_involutive, collapse_no_space by done.
  unfold slice_to. destruct (Z.leb_spec 0 max_len); [|lia].
  rewrite take_ge by (rewrite <- string_length_chars; lia).
  rewrite string_of_list_ascii_of_string.
  destruct r; [done|reflexivity].
Qed.

Lemma slugify_ascii_idempotent (s : string) (max_len : Z) :
  6 <= max_len ->
  slugify_ascii (slugify_ascii s max_len) max_len = slugify_ascii s max_len.
Proof.
  intros Hm. destruct (slugify_ascii_shape s max_len) as (Hne & Hchars & Hlen).
  apply slugify_fixed; [done|done|]. specialize (Hlen ltac:(lia)). lia.
Qed.

(** *** ASCII strings stay ASCII *)

Lemma slug_char_ascii c : slug_char c = true -> (nat_of_ascii c <? 128)%nat = true.
Proof. by_cases_on c. Qed.

Lemma upper_ascii_ascii c :
  (nat_of_ascii c <? 128)%nat = true ->
  (nat_of_ascii (upper_ascii c) <? 128)%nat = true.
Proof. by_cases_on c. Qed.

Lemma lower_ascii_ascii c :
  (nat_of_ascii c <? 128)%nat = true ->
  (nat_of_ascii (lower_ascii c) <? 128)%nat = true.
Proof. by_cases_on c. Qed.

Lemma is_ascii_Forall s :
  is_ascii s = true
  <-> Forall (fun c => (nat_of_ascii c <? 128)%nat = true) (list_ascii_of_string s).
Proof. unfold is_ascii. rewrite forallb_forall, Forall_forall.
  split; intros H c Hc; apply H; by apply list_elem_of_In. Qed.

Lemma is_ascii_map_string f s :
  (forall c, (nat_of_ascii c <? 128)%nat = true ->
             (nat_of_ascii (f c) <? 128)%nat = true) ->
  is_ascii s = true -> is_ascii (map_string f s) = true.
Proof.
  intros Hf. rewrite !is_ascii_Forall, chars_map_string, Forall_map.
  intros H. eapply Forall_impl; [exact H|]. exact Hf.
Qed.

Lemma is_ascii_slugify_ascii s max_len : is_ascii (slugify_ascii s max_len) = true.
Proof.
  destruct (slugify_ascii_shape s max_len) as (_ & Hchars & _).
  apply is_ascii_Forall. eapply Forall_impl; [exact Hchars|].
  apply slug_char_ascii.
Qed.

Section WithLibraries.

Variable slugify_unicode : string -> Z -> string.

Lemma slugify_on_ascii (s : string) (max_len : Z) :
  is_ascii s = true -> slugify slugify_unicode s max_len = slugify_ascii s max_len.
Proof. intros Hs. unfold slugify. by rewrite Hs. Qed.

(** X12. Every identifier [slugify] returns is non-empty.  For an ASCII
    name it is made only of lower-case word characters and hyphens, and
    with a non-negative [max_len] it is at most [max(max_len, 6)]
    characters long, 6 being the length of the fallback ["entity"]. *)
Theorem slugify_shape (s : string) (max_len : Z) :
  let r := slugify slugify_unicode s max_len in
  r <> "" /\
  (is_ascii s = true ->
     Forall (fun c => slug_char c = true) (list_ascii_of_string r) /\
     (0 <= max_len -> Z.of_nat (String.length r) <= Z.max max_len 6)).
Proof.
  intros r. subst r. split.
  - unfold slugify. destruct (is_ascii s).
    + apply slugify_ascii_shape.
    + destruct (slugify_unicode s max_len); [discriminate|done].
  - intros Hs. rewrite (slugify_on_ascii _ _ Hs).
    apply slugify_ascii_shape.
Qed.

(** X13. On ASCII names normalising is stable: with [max_len] at least 6,
    the slug of a slug is that slug; and slugs do not depend on letter
    case. *)
Theorem slugify_idempotent (s : string) (max_len : Z) :
  6 <= max_len ->
  is_ascii s = true ->
  slugify slugify_unicode (slugify slugify_unicode s max_len) max_len
  = slugify slugify_unicode s max_len /\
  slugify slugify_unicode (upper s) max_len = slugify slugify_unicode s max_len /\
  slugify slugify_unicode (lower s) max_len = slugify slugify_unicode s max_len.
Proof.
  intros Hm Hs. rewrite !(slugify_on_ascii s) by done. split; [|split].
  - rewrite slugify_on_ascii by apply is_ascii_slugify_ascii.
    by apply slugify_ascii_idempotent.
  - rewrite slugify_on_ascii
      by (by apply is_ascii_map_string; [apply upper_ascii_ascii|]).
    unfold slugify_ascii, lower, upper.
    by rewrite (map_string_compose _ _ s lower_upper_ascii).
  - rewrite slugify_on_ascii
      by (by apply is_ascii_map_string; [apply lower_ascii_ascii|]).
    unfold slugify_ascii, lower.
    by rewrite (map_string_compose _ _ s lower_lower_ascii).
Qed.

End WithLibraries.

End SlugProperties.

(** ** The write path *)

Module WriterProperties.
Import FirestoreRollup FirestoreWriter RollupNotions.
Import StoreProperties RollupProperties RollupMore.

Lemma names_field_field_set k k' fv (payload : list (string * field_value)) :
  k' <> k ->
  names_field k (field_set k' fv payload) = names_field k payload.
Proof.
  intros Hne. induction payload as [|[k0 fv0] rest IH]; simpl.
  - destruct (String.eqb_spec k' k); [done|reflexivity].
  - destruct (String.eqb_spec k0 k') as [->|Hk0]; simpl.
    + destruct (String.eqb_spec k' k); [done|reflexivity].
    + by rewrite IH.
Qed.

Lemma names_field_fields_update k (payload : list (string * field_value))
    (extras : list (string * pyval)) :
  k ∉ extras.*1 ->
  names_field k (fields_update payload extras) = names_field k payload.
Proof.
  unfold fields_update. revert payload.
  induction extras as [|[k' v] rest IH]; intros payload Hnot; simpl; [done|].
  rewrite IH.
  - apply names_field_field_set. intros ->. apply Hnot. simpl. left.
  - intros Hin. apply Hnot. simpl. by right.
Qed.

Section WithLibraries.

Variable slugify_unicode : string -> Z -> string.
Variable upper_unicode : string -> string.
Variable fromisoformat : string -> option Z.
Variable strftime : string -> Z -> string.
Variable sha256_hex : string -> string.
Variable collection : string.
Variable paths : RollupPaths.

Local Abbreviation apply :=
  (apply_for_article slugify_unicode upper_unicode fromisoformat strftime paths).
Local Abbreviation write :=
  (write_article slugify_unicode upper_unicode fromisoformat strftime
     sha256_hex collection paths).
Local Abbreviation parse := (_parse_time_to_utc fromisoformat).
Local Abbreviation named_id := (named_id slugify_unicode).
Local Abbreviation named_ids := (named_ids slugify_unicode).
Local Abbreviation slug_of := (slug_of slugify_unicode).
Local Abbreviation event_country := (event_country upper_unicode).
Local Abbreviation counted_country := (counted_country upper_unicode).
Local Abbreviation payload := (payload_of upper_unicode).
Local Abbreviation used_id := (used_doc_id strftime sha256_hex).

(** The payload never names the processed marker unless the extra fields
    do. *)
Lemma payload_no_marker (a : article_args) dt :
  "rollups_done" ∉ (default [] (extra_fields a)).*1 ->
  names_field "rollups_done" (payload a dt) = false.
Proof.
  intros Hnot. unfold payload_of.
  destruct (extra_fields a) as [[|x xs]|]; try reflexivity.
  by rewrite names_field_fields_update.
Qed.

(** A call that returns normally on an article that is there leaves it
    marked. *)
Lemma apply_Ok_marked (E : env) (s : db) (ref : path) (a : doc) :
  s !! ref = Some a ->
  (apply E s ref).2 = Ok tt ->
  exists d : doc,
    (apply E s ref).1 !! ref = Some d /\
    truthy (doc_get d "rollups_done") = true.
Proof.
  intros Hs Hok.
  destruct (read_error E) as [e|] eqn:Hr.
  { rewrite (apply_read_error _ _ _ _ _ E s ref e) in Hok by done. discriminate. }
  destruct (truthy (doc_get a "rollups_done")) eqn:Hm.
  { rewrite (apply_marked _ _ _ _ _ E s ref a) by done. eauto. }
  destruct (_txn slugify_unicode upper_unicode
      fromisoformat strftime paths E ref (Some a)) as [ws|e] eqn:Ht.
  - destruct (txn_Ok_inv _ _ _ _ _ E ref a ws Hm Ht)
      as (dt & c & h & ents & ent_ws & Hdt & Hc & Hh & Hi & Hl & ->).
    rewrite (apply_committed _ _ _ _ _ E s ref a dt c h ents ent_ws) by done.
    cbn [fst snd].
    destruct (committed_marker _ paths (commit_time E) s ref
                (event_hour strftime a dt) h c ents ent_ws Hl)
      as (d & Hd & Hmark).
    exists d. split; [done|]. unfold doc_get. by rewrite Hmark.
  - rewrite (apply_raises _ _ _ _ _ E s ref e) in Hok by (by rewrite ?Hs).
    discriminate.
Qed.

Lemma tx_write_lookup (ct : Z) (s : db) (ref : path) fields :
  is_Some (_tx_write ct s ref fields !! ref) /\
  forall p, p <> ref -> _tx_write ct s ref fields !! p = s !! p.
Proof.
  unfold _tx_write, apply_write. destruct (s !! ref); simpl;
    rewrite lookup_insert_eq; (split; [eauto|]);
    intros p Hp; by rewrite lookup_insert_ne.
Qed.

(** After [write_article] returned normally, the article is stored and
    marked as processed. *)
Lemma write_Ok_marked (W : wenv) (s : db) (a : article_args) id :
  (write W s a).2 = Ok id ->
  exists (dt : Z) (d : doc),
    parse (time_val a) = Ok dt /\ id = used_id a dt /\
    (write W s a).1 !! [collection; id] = Some d /\
    truthy (doc_get d "rollups_done") = true.
Proof.
  unfold write_article.
  destruct (parse (time_val a)) as [dt|] eqn:Hp; [|discriminate].
  destruct (write_read_error W); [discriminate|].
  set (ref := doc_ref_of strftime sha256_hex collection a dt).
  set (s1 := _tx_write _ s ref _).
  destruct (apply (rollup_env W) s1 ref).2 as [[]|] eqn:Hok; [|discriminate].
  cbn [fst snd]. intros [= <-].
  destruct (proj1 (tx_write_lookup (write_commit_time W) s ref (payload a dt)))
    as [a0 Ha0].
  destruct (apply_Ok_marked (rollup_env W) s1 ref a0 Ha0 Hok) as (d & Hd & Hm).
  exists dt, d. done.
Qed.

(** Counters read the same in two stores that agree outside one
    two-segment path. *)
Lemma counters_agree (s s' : db) (coll id : string) :
  (forall p, p <> [coll; id] -> s' !! p = s !! p) ->
  forall h c e,
    CountryTotal paths s' h c = CountryTotal paths s h c /\
    EntityTotal paths s' h e = EntityTotal paths s h e /\
    EntityCountryBreakdown paths s' h e c = EntityCountryBreakdown paths s h e c /\
    CountryEntityBreakdown paths s' h c e = CountryEntityBreakdown paths s h c e.
Proof.
  intros Hagree h c e.
  unfold CountryTotal, EntityTotal, EntityCountryBreakdown, CountryEntityBreakdown.
  rewrite !Hagree; [done|..];
    unfold country_entity_ref, ent_country_ref, country_ref, ent_ref, mentions_hour;
    simpl; discriminate.
Qed.

(** X14. Delivering an article again does not count it again.  After
    [write_article] returned normally for a document, a later call that
    resolves to the same document and whose extra fields do not name the
    processed marker changes no document but the article itself, so every
    counter reads as before; and it returns the document's id when the
    store serves its reads. *)
Theorem redelivery_counts_once
    (W1 W2 : wenv) (s : db) (a1 a2 : article_args) id dt2 :
  (write W1 s a1).2 = Ok id ->
  parse (time_val a2) = Ok dt2 ->
  used_id a2 dt2 = id ->
  "rollups_done" ∉ (default [] (extra_fields a2)).*1 ->
  let s1 := (write W1 s a1).1 in
  let r2 := write W2 s1 a2 in
  (forall p, p <> [collection; id] -> r2.1 !! p = s1 !! p) /\
  (forall h c e,
     CountryTotal paths r2.1 h c = CountryTotal paths s1 h c /\
     EntityTotal paths r2.1 h e = EntityTotal paths s1 h e /\
     EntityCountryBreakdown paths r2.1 h e c
     = EntityCountryBreakdown paths s1 h e c /\
     CountryEntityBreakdown paths r2.1 h c e
     = CountryEntityBreakdown paths s1 h c e) /\
  (write_read_error W2 = None -> read_error (rollup_env W2) = None ->
   r2.2 = Ok id).
Proof.
  intros Hok1 Hp2 Hid2 Hextra s1 r2.
  destruct (write_Ok_marked W1 s a1 id Hok1) as (dt1 & d & _ & _ & Hd & Hm).
  fold s1 in Hd.
  assert ((forall p, p <> [collection; id] -> r2.1 !! p = s1 !! p) /\
          (write_read_error W2 = None -> read_error (rollup_env W2) = None ->
           r2.2 = Ok id)) as [Hframe Hret].
  { subst r2. unfold write_article. rewrite Hp2.
    unfold doc_ref_of. rewrite Hid2.
    destruct (write_read_error W2) as [e|]; [split; [done|discriminate]|].
    set (s1' := _tx_write (write_commit_time W2) s1 [collection; id] (payload a2 dt2)).
    assert (exists d' : doc, s1' !! [collection; id] = Some d' /\
              truthy (doc_get d' "rollups_done") = true) as (d' & Hd' & Hm').
    { subst s1'. unfold _tx_write. rewrite Hd. unfold apply_write.
      cbn [w_ref w_fields]. rewrite lookup_insert_eq, Hd. simpl.
      eexists. split; [done|]. unfold doc_get in *.
      rewrite merge_fields_lookup_notin; [done|].
      apply names_field_false. by apply payload_no_marker. }
    assert ((apply (rollup_env W2) s1' [collection; id]).1 = s1') as Hs1'.
    { destruct (read_error (rollup_env W2)) as [e|] eqn:Hr.
      - by rewrite (apply_read_error _ _ _ _ _ _ s1' _ e).
      - by rewrite (apply_marked _ _ _ _ _ _ s1' _ d'). }
    split.
    - intros p Hne.
      destruct (apply (rollup_env W2) s1' [collection; id]) as [s2 [[]|e]] eqn:Hap;
        cbn [fst snd] in *; subst s2;
        apply (proj2 (tx_write_lookup _ s1 _ _)); done.
    - intros _ Hr. rewrite (apply_marked _ _ _ _ _ _ s1' _ d') by done. done. }
  split; [exact Hframe|]. split; [|exact Hret].
  by apply (counters_agree s1 r2.1 collection id).
Qed.

(** *** A first delivery *)

Lemma upper_ascii_idem ch : upper_ascii (upper_ascii ch) = upper_ascii ch.
Proof. destruct ch as [[] [] [] [] [] [] [] []]; reflexivity. Qed.

Lemma upper_idem x : upper (upper x) = upper x.
Proof.
  unfold upper. induction x as [|ch x IH]; simpl; [done|].
  by rewrite upper_ascii_idem, IH.
Qed.

Lemma str_truthy_upper x : str_truthy (upper x) = str_truthy x.
Proof. by destruct x. Qed.

(** For an ASCII country the code an article is counted under is the
    country in capitals, and ["XX"] when there is none. *)
Lemma counted_country_ascii (a : article_args) :
  is_ascii (opt_str (country a)) = true ->
  counted_country a
  = if opt_truthy (country a) then upper (opt_str (country a)) else "XX".
Proof.
  intros Ha. unfold FirestoreWriter.counted_country, str_upper, opt_truthy.
  rewrite Ha, str_truthy_upper.
  destruct (str_truthy (opt_str (country a))); [|reflexivity].
  pose proof (SlugProperties.is_ascii_map_string upper_ascii _
                SlugProperties.upper_ascii_ascii Ha) as Hup.
  fold (upper (opt_str (country a))) in Hup. rewrite Hup.
  apply upper_idem.
Qed.

Lemma normalize_entities_cons k meta rest :
  _normalize_entities ((k, meta) :: rest)
  = match normalize_entity meta with
    | Some e => e :: _normalize_entities rest
    | None => _normalize_entities rest
    end.
Proof. reflexivity. Qed.

Lemma canonical_names_cons k (meta : list (string * pyval)) rest :
  canonical_names ((k, meta) :: rest)
  = if truthy (assoc_get meta "name")
    then assoc_get meta "name" :: canonical_names rest
    else canonical_names rest.
Proof. reflexivity. Qed.

Lemma normalized_named (canonical : list (string * list (string * pyval))) :
  Forall (fun v => is_str v = true) (canonical_names canonical) ->
  named_ids (_normalize_entities canonical)
  = map slug_of (canonical_names canonical)
  /\ Forall (fun ent => passable_entity ent = true)
       (_normalize_entities canonical).
Proof.
  induction canonical as [|[k meta] rest IH].
  - intros _. split; [done|constructor].
  - rewrite normalize_entities_cons, canonical_names_cons.
    unfold normalize_entity.
    destruct (truthy (assoc_get meta "name")) eqn:Ht; cbn [negb].
    + intros Hall. inversion Hall as [|? ? Hstr Hrest]; subst.
      destruct (IH Hrest) as [IH1 IH2].
      destruct (assoc_get meta "name") as [| | |n| | |] eqn:Hn; try discriminate.
      simpl in Ht. split.
      * rewrite named_ids_cons. unfold named_id. cbn [assoc_get String.eqb].
        simpl. rewrite Ht. simpl. by rewrite IH1.
      * constructor; [|exact IH2]. unfold passable_entity. simpl.
        by rewrite !orb_true_r.
    + exact IH.
Qed.

(** X15. A first delivery is counted once and cannot fail on the shape of
    its data: for an article whose time parses, whose document is not in
    the store yet, that carries no extra fields and whose canonical
    entities have string names, [write_article] returns the document id,
    adds one to the country total of the article's hour and country (the
    code ["XX"] when there is none), and adds to each entity total the
    number of named entities that normalise to that identifier. *)
Theorem first_delivery_is_counted
    (W : wenv) (s : db) (a : article_args) dt :
  parse (time_val a) = Ok dt ->
  write_read_error W = None -> read_error (rollup_env W) = None ->
  s !! doc_ref_of strftime sha256_hex collection a dt = None ->
  extra_fields a = None ->
  Forall (fun v => is_str v = true) (canonical_names (entities_canonical a)) ->
  let r := write W s a in
  let h := hour_bucket strftime dt in
  let c := counted_country a in
  r.2 = Ok (used_id a dt) /\
  CountryTotal paths r.1 h c = CountryTotal paths s h c + 1 /\
  forall eid,
    EntityTotal paths r.1 h eid
    = EntityTotal paths s h eid
      + occurrences eid (map slug_of (canonical_names (entities_canonical a))).
Proof.
  intros Hp Hw Hr Hfresh Hextra Hnames r h c. subst r.
  destruct (normalized_named _ Hnames) as [Hids Hpass].
  apply (loop_Ok_iff slugify_unicode paths h c) in Hpass as [ent_ws Hl].
  unfold write_article. rewrite Hp, Hw.
  set (ref := doc_ref_of strftime sha256_hex collection a dt) in *.
  unfold _tx_write. rewrite Hfresh. unfold payload_of. rewrite Hextra.
  set (ents := _normalize_entities (entities_canonical a)) in *.
  set (a0 := create_doc _ _).
  set (s1 := <[ref := a0]> s).
  assert (s1 !! ref = Some a0) as Hs1 by apply lookup_insert_eq.
  assert (event_country a0 = Ok c) as Hc.
  { unfold FirestoreRollup.event_country, py_or. replace (doc_get a0 "country")
      with (PStr (str_upper upper_unicode (opt_str (country a))))
      by reflexivity.
    simpl. subst c. unfold FirestoreWriter.counted_country.
    by destruct (str_truthy (str_upper upper_unicode (opt_str (country a)))). }
  assert (py_iter (event_entities a0) = Ok ents) as Hi.
  { unfold event_entities, py_or. replace (doc_get a0 "entities")
      with (PList ents) by reflexivity.
    simpl. by destruct ents. }
  rewrite (apply_committed _ _ fromisoformat strftime paths (rollup_env W) s1 ref
             a0 dt c h ents ent_ws Hr Hs1 eq_refl eq_refl Hc eq_refl Hi Hl).
  cbn [fst snd].
  assert (forall p, p <> [collection; used_id a dt] -> s1 !! p = s !! p) as Hagree.
  { intros p Hne. subst s1. by rewrite lookup_insert_ne. }
  split; [done|]. split.
  - rewrite (committed_CountryTotal _ paths ref _ h c ents ent_ws Hl).
    by rewrite (proj1 (counters_agree s s1 _ _ Hagree h c "")).
  - intros eid.
    rewrite (committed_EntityTotal _ paths ref _ h c ents ent_ws Hl).
    rewrite bool_decide_eq_true_2 by done.
    rewrite (proj1 (proj2 (counters_agree s s1 _ _ Hagree h c eid))).
    by rewrite Hids.
Qed.

End WithLibraries.

End WriterProperties.

(** ** More on the query layer *)

Module QueryProperties.
Import SmartArticleCache FirestoreRollup NewsDataLoader NewsDataLoaderQueries.
Import RollupNotions.
Import StoreProperties RollupProperties RollupMore LoaderProperties CacheMore.

(** *** The documents of a collection *)

Lemma in_collection_snoc (coll : path) (id : string) :
  in_collection coll (coll ++ [id]) = Some id.
Proof.
  unfold in_collection. rewrite last_snoc. by rewrite bool_decide_eq_true_2.
Qed.

Lemma in_collection_Some (coll p : path) (id : string) :
  in_collection coll p = Some id -> p = (coll ++ [id])%list.
Proof.
  unfold in_collection. destruct (last p) as [id'|]; [|discriminate].
  case_bool_decide as Hp; [|discriminate]. by intros [= <-].
Qed.

Lemma collection_docs_elem (s : db) (coll : path) (id : string) (d : doc) :
  (id, d) ∈ collection_docs s coll <-> s !! (coll ++ [id])%list = Some d.
Proof.
  split; [apply collection_docs_lookup|]. intros Hs.
  unfold collection_docs. apply list_elem_of_omap.
  exists ((coll ++ [id])%list, d). split.
  - by apply elem_of_map_to_list.
  - simpl. by rewrite in_collection_snoc.
Qed.

Lemma collection_docs_NoDup (s : db) (coll : path) :
  NoDup (collection_docs s coll).*1.
Proof.
  unfold collection_docs.
  pose proof (NoDup_fst_map_to_list s) as Hnd.
  induction (map_to_list s) as [|[p d] l IH]; simpl; [constructor|].
  inversion Hnd as [|? ? Hp Hl]; subst.
  destruct (in_collection coll p) as [id|] eqn:Hid; simpl; [|by apply IH].
  constructor; [|by apply IH]. intros Hin.
  apply list_elem_of_fmap in Hin as ([id' d'] & Heq & Hin). simpl in Heq. subst id'.
  apply list_elem_of_omap in Hin as ([p' d''] & Hin & Hsome). simpl in Hsome.
  destruct (in_collection coll p') as [id''|] eqn:Hid'; [|discriminate].
  injection Hsome as -> ->.
  apply in_collection_Some in Hid. apply in_collection_Some in Hid'. subst p p'.
  apply Hp. apply list_elem_of_fmap. by exists ((coll ++ [id])%list, d').
Qed.

(** *** Ascending sorts *)

Lemma sorted_asc_by_Permutation {A} (lt : A -> A -> bool) (l : list A) :
  sorted_asc_by lt l ≡ₚ l.
Proof. apply sorted_desc_by_Permutation. Qed.

Lemma insert_asc_Sorted {A} (lt : A -> A -> bool) (x : A) (l : list A) :
  (forall a b, lt a b = true -> lt b a = false) ->
  Sorted (fun a b => lt b a = false) l ->
  Sorted (fun a b => lt b a = false) (insert_desc (fun a b => lt b a) x l).
Proof.
  intros Hasym. induction l as [|y r IH]; simpl; intros Hs.
  - by repeat constructor.
  - inversion Hs as [|? ? Hr Hhd]; subst.
    destruct (lt y x) eqn:Hyx.
    + constructor; [by apply IH|].
      destruct r as [|z r']; simpl.
      * constructor. by apply Hasym.
      * destruct (lt z x); constructor; [by inversion Hhd|by apply Hasym].
    + constructor; [done|]. by constructor.
Qed.

(** An ascending sort leaves no element in front of a smaller one. *)
Lemma sorted_asc_by_Sorted {A} (lt : A -> A -> bool) (l : list A) :
  (forall a b, lt a b = true -> lt b a = false) ->
  Sorted (fun a b => lt b a = false) (sorted_asc_by lt l).
Proof.
  intros Hasym. unfold sorted_asc_by, sorted_desc_by.
  induction l as [|x l IH]; simpl; [constructor|].
  by apply insert_asc_Sorted.
Qed.

Lemma string_ltb_asym a b : String.ltb a b = true -> String.ltb b a = false.
Proof.
  unfold String.ltb. rewrite (String.compare_antisym a b).
  by destruct (String.compare b a).
Qed.

(** *** [list_hours] *)

Section Hours.

Variable ten_digits_unicode : string -> bool.
Variable slugify_unicode : string -> Z -> string.
Variable upper_unicode : string -> string.
Variable fromisoformat : string -> option Z.
Variable strftime : string -> Z -> string.

Local Abbreviation is_hour_id := (is_hour_id ten_digits_unicode).
Local Abbreviation list_hours := (list_hours ten_digits_unicode).

Lemma list_hours_elem (s : db) (h : string) :
  h ∈ list_hours s <-> is_hour_id h = true /\ is_Some (s !! ["mentions"; h]).
Proof.
  unfold list_hours. rewrite sorted_asc_by_Permutation.
  rewrite list_elem_of_In, filter_In, <- list_elem_of_In.
  rewrite list_elem_of_fmap. split.
  - intros [([id d] & -> & Hin) Hh]. split; [done|].
    apply collection_docs_elem in Hin. simpl in *. eauto.
  - intros [Hh [d Hd]]. split; [|done]. exists (h, d). split; [done|].
    by apply collection_docs_elem.
Qed.

(** X16. [list_hours] returns exactly the identifiers of the documents
    of [/mentions] that [\d{10}] matches in full -- ten decimal digits,
    ASCII ones or those of another script --, each once, in ascending
    order; an ASCII identifier is returned exactly when it is ten
    characters from [0] to [9] and names a document of [/mentions]. *)
Theorem list_hours_spec (s : db) :
  (forall h, h ∈ list_hours s
             <-> is_hour_id h = true /\ is_Some (s !! ["mentions"; h]))
  /\ (forall h, is_ascii h = true ->
        (h ∈ list_hours s
         <-> String.length h = 10%nat
             /\ Forall (fun c => is_digit c = true) (list_ascii_of_string h)
             /\ is_Some (s !! ["mentions"; h])))
  /\ NoDup (list_hours s)
  /\ Sorted (fun a b => String.ltb b a = false) (list_hours s).
Proof.
  split; [|split; [|split]].
  - apply list_hours_elem.
  - intros h Hascii. rewrite list_hours_elem.
    unfold NewsDataLoaderQueries.is_hour_id. rewrite Hascii.
    rewrite andb_true_iff, Nat.eqb_eq, forallb_forall, Forall_forall.
    split.
    + intros [[Hlen Hdigits] Hdoc]. split; [done|]. split; [|done].
      intros c Hc. by apply Hdigits, list_elem_of_In.
    + intros (Hlen & Hdigits & Hdoc). split; [|done]. split; [done|].
      intros c Hc. by apply Hdigits, list_elem_of_In.
  - unfold list_hours.
    rewrite sorted_asc_by_Permutation. apply NoDup_ListNoDup, List.NoDup_filter.
    apply NoDup_ListNoDup, collection_docs_NoDup.
  - apply sorted_asc_by_Sorted, string_ltb_asym.
Qed.

Lemma apply_write_keeps_doc (ct : Z) (s : db) (w : write) (p : path) :
  is_Some (s !! p) -> is_Some (apply_write ct s w !! p).
Proof.
  intros Hs. unfold apply_write. destruct (decide (w_ref w = p)) as [->|Hne].
  - rewrite lookup_insert_eq. eauto.
  - by rewrite lookup_insert_ne.
Qed.

Lemma commit_keeps_doc (ct : Z) (ws : list write) (s : db) (p : path) :
  is_Some (s !! p) -> is_Some (commit ct s ws !! p).
Proof.
  unfold commit. revert s. induction ws as [|w ws IH]; intros s Hs; [done|].
  simpl. apply IH. by apply apply_write_keeps_doc.
Qed.

Lemma commit_writes_doc (ct : Z) (ws : list write) (s : db) (w : write) :
  w ∈ ws -> is_Some (commit ct s ws !! w_ref w).
Proof.
  revert s. induction ws as [|w' ws IH]; intros s Hin.
  - by apply elem_of_nil in Hin.
  - rewrite commit_cons. apply elem_of_cons in Hin as [<-|Hin].
    + apply commit_keeps_doc. unfold apply_write. rewrite lookup_insert_eq. eauto.
    + by apply IH.
Qed.

Local Abbreviation apply :=
  (apply_for_article slugify_unicode upper_unicode
      fromisoformat strftime default_paths).
Local Abbreviation loop := (entities_loop slugify_unicode default_paths).
Local Abbreviation named_id := (named_id slugify_unicode).
Local Abbreviation named_ids := (named_ids slugify_unicode).
Local Abbreviation slugify := (slugify slugify_unicode).
Local Abbreviation event_country := (event_country upper_unicode).

Lemma apply_keeps_doc (E : env) (s : db) (ref p : path) :
  is_Some (s !! p) -> is_Some ((apply E s ref).1 !! p).
Proof.
  intros Hs.
  destruct (apply_cases slugify_unicode upper_unicode
      fromisoformat strftime default_paths E s ref)
    as [->|(a & dt & c & h & ents & ent_ws & Hl & ->)]; [done|].
  by apply commit_keeps_doc.
Qed.

(** X17. An hour that was rolled into is on the list, and the list never
    loses an hour: a call that commits for a bucket named by ten digits
    makes [list_hours] return that bucket, and whatever [list_hours]
    returns it still returns after any sequence of calls. *)
Theorem rolled_up_hour_is_listed :
  (forall (E : env) (s : db) (ref : path) (a : doc) dt c h ents ent_ws,
     read_error E = None -> s !! ref = Some a ->
     truthy (doc_get a "rollups_done") = false ->
     event_time fromisoformat E a = Ok dt -> event_country a = Ok c ->
     document_id (event_hour strftime a dt) = Ok h ->
     py_iter (event_entities a) = Ok ents ->
     loop h c ents = Ok ent_ws ->
     is_hour_id h = true ->
     h ∈ list_hours (apply E s ref).1)
  /\ (forall (calls : list (env * path)) (s : db) h,
        h ∈ list_hours s ->
        h ∈ list_hours
              (apply_all slugify_unicode upper_unicode
                  fromisoformat strftime default_paths calls s)).
Proof.
  split.
  - intros E s ref a dt c h ents ent_ws Hr Hs Hm Hdt Hc Hh Hi Hl Hid.
    rewrite (apply_committed _ _ _ _ _ E s ref a dt c h ents ent_ws) by done.
    cbn [fst snd]. apply list_hours_elem. split; [done|].
    apply (commit_writes_doc _ _ _
             (Write (mentions_hour default_paths h)
                [("hour", Value (event_hour strftime a dt))])).
    unfold head_writes. simpl. right. left.
  - intros calls. unfold apply_all.
    induction calls as [|[E ref] calls IH]; intros s h Hin; [done|].
    simpl. apply IH.
    apply list_hours_elem in Hin as [Hid Hdoc].
    apply list_hours_elem. split; [done|].
    by apply apply_keeps_doc.
Qed.

End Hours.

(** *** [load_articles] *)

Lemma row_field (dd : doc) (id k : string) :
  k <> "id" -> doc_get (dd ∪ {[ "id" := PStr id ]}) k = doc_get dd k.
Proof.
  intros Hk. unfold doc_get. rewrite lookup_union_l; [done|].
  by apply lookup_singleton_ne.
Qed.

Lemma row_filters (dd : doc) (id : string) :
  (forall v, field_is "hour" v (dd ∪ {[ "id" := PStr id ]}) = field_is "hour" v dd)
  /\ (forall v, field_is "country" v (dd ∪ {[ "id" := PStr id ]})
               = field_is "country" v dd)
  /\ (forall v, array_contains "entityNameSlug" v (dd ∪ {[ "id" := PStr id ]})
               = array_contains "entityNameSlug" v dd).
Proof.
  unfold field_is, array_contains. by rewrite !row_field.
Qed.

(** The documents the three filters of the query let through. *)
Lemma query_filtered (s : db) hour country entity (x : string * doc) :
  let q := List.filter (fun x => field_is "hour" hour x.2)
             (collection_docs s ["articles"]) in
  let q := if opt_truthy country
           then List.filter (fun x => field_is "country" (opt_str country) x.2) q
           else q in
  let q := if opt_truthy entity
           then List.filter
                  (fun x => array_contains "entityNameSlug" (opt_str entity) x.2) q
           else q in
  x ∈ q <->
  s !! ["articles"; x.1] = Some x.2 /\
  field_is "hour" hour x.2 = true /\
  (opt_truthy country = true -> field_is "country" (opt_str country) x.2 = true) /\
  (opt_truthy entity = true ->
   array_contains "entityNameSlug" (opt_str entity) x.2 = true).
Proof.
  simpl. destruct x as [id dd]. simpl.
  rewrite <- (collection_docs_elem s ["articles"] id dd).
  destruct (opt_truthy country), (opt_truthy entity);
    rewrite !list_elem_of_In, ?filter_In; simpl;
    (split; [intros H; repeat split; try tauto; discriminate | tauto]).
Qed.

Lemma load_articles_sound (s : db) hour country entity limit rows :
  load_articles s hour country entity limit = Ok rows ->
  forall r, r ∈ rows ->
    exists id (dd : doc),
      s !! ["articles"; id] = Some dd /\
      r = dd ∪ {[ "id" := PStr id ]} /\
      field_is "hour" hour r = true /\
      (opt_truthy country = true ->
       field_is "country" (opt_str country) r = true) /\
      (opt_truthy entity = true ->
       array_contains "entityNameSlug" (opt_str entity) r = true).
Proof.
  unfold load_articles.
  pose proof (query_filtered s hour country entity) as Hq. cbv zeta in Hq.
  set (q := if opt_truthy entity then _ else _) in *.
  destruct (limited limit q) as [docs|] eqn:Hl; simpl; [|discriminate].
  intros [= <-] r Hr.
  assert (docs ⊆ q) as Hsub.
  { unfold limited in Hl. destruct limit as [n|].
    - destruct (n <? 0); [discriminate|]. injection Hl as <-.
      apply subseteq_take.
    - by injection Hl as <-. }
  apply list_elem_of_fmap in Hr as ([id dd] & -> & Hin).
  apply Hsub, Hq in Hin as (Hs & Hh & Hc & He). simpl in *.
  destruct (row_filters dd id) as (R1 & R2 & R3).
  exists id, dd. rewrite R1, R2, R3. done.
Qed.

(** X18. [load_articles] is exact when it is not limited and sound when
    it is: every row it returns is an article document of the store, with
    its identifier added, that has the hour asked for, the country asked
    for when one is, and the entity asked for among its names when one is;
    a limit bounds the number of rows; and without a limit every such
    document is returned. *)
Theorem load_articles_spec (s : db) hour country entity limit :
  (forall rows, load_articles s hour country entity limit = Ok rows ->
     (forall r, r ∈ rows ->
        exists id (dd : doc),
          s !! ["articles"; id] = Some dd /\
          r = dd ∪ {[ "id" := PStr id ]} /\
          field_is "hour" hour r = true /\
          (opt_truthy country = true ->
           field_is "country" (opt_str country) r = true) /\
          (opt_truthy entity = true ->
           array_contains "entityNameSlug" (opt_str entity) r = true))
     /\ (forall n, limit = Some n -> Z.of_nat (length rows) <= n))
  /\ (limit = None ->
      exists rows, load_articles s hour country entity limit = Ok rows /\
        forall id (dd : doc),
          s !! ["articles"; id] = Some dd ->
          field_is "hour" hour dd = true ->
          (opt_truthy country = true ->
           field_is "country" (opt_str country) dd = true) ->
          (opt_truthy entity = true ->
           array_contains "entityNameSlug" (opt_str entity) dd = true) ->
          dd ∪ {[ "id" := PStr id ]} ∈ rows).
Proof.
  split.
  - intros rows Hload. split; [by eapply load_articles_sound|].
    intros n ->. revert Hload. unfold load_articles, limited.
    destruct (Z.ltb_spec n 0); simpl; [discriminate|]. intros [= <-].
    rewrite length_map, length_take. lia.
  - intros ->. unfold load_articles.
    pose proof (query_filtered s hour country entity) as Hq. cbv zeta in Hq.
    set (q := if opt_truthy entity then _ else _) in *.
    simpl. eexists. split; [done|].
    intros id dd Hs Hh Hc He. apply list_elem_of_fmap. exists (id, dd).
    split; [done|]. by apply Hq.
Qed.

Section CacheOverStore.

Variable str_other : pyval -> string.
Variable lower_unicode : string -> string.
Variable pd_to_datetime : pyval -> option sort_key.
Variable unordered_sort : list sort_key -> result (list Z).

(** X19. With the loader reading the store, what the cache answers on a
    miss always passes its own filter: whether the rows come from a
    broader entry or from the fetch, each of them matches the country and
    the entity asked for. *)
Theorem cache_miss_rows_match (s : db) (store : cache)
    hour country entity totals breakdown tops per_page rows :
  str_truthy hour = true ->
  store !! _key hour country entity = None ->
  ret (get str_other lower_unicode pd_to_datetime unordered_sort (loader_of s)
         store hour country entity totals breakdown tops per_page) = Ok rows ->
  forall r, r ∈ rows -> _matches str_other lower_unicode r country entity = true.
Proof.
  intros Hhour Hmiss. unfold get. rewrite Hhour, Hmiss. simpl.
  destruct (reuse_parent str_other lower_unicode store _ country entity _)
    as [filtered|] eqn:Hr; simpl.
  - intros Hret r Hin. apply (sort_trim_subseteq _ _ _ _ _ Hret) in Hin.
    apply CacheProperties.reuse_parent_Some in Hr
      as (n & pkey & parent_rows & _ & _ & _ & -> & _).
    unfold filtered_rows in Hin. by apply list_elem_of_In, filter_In in Hin as [_ ?].
  - unfold loader_of, fallback_fetch. cbn [f_hour f_country f_entity f_limit].
    destruct (load_articles s hour (or_None country) (or_None entity)
                (Some per_page)) as [fetched|] eqn:Hload; simpl; [|discriminate].
    intros Hret r Hin. apply (sort_trim_subseteq _ _ _ _ _ Hret) in Hin.
    destruct (load_articles_sound s hour (or_None country) (or_None entity)
                (Some per_page) fetched Hload r Hin)
      as (id & dd & _ & _ & _ & Hc & He).
    assert (forall o, opt_truthy o = true -> or_None o = o) as Hor.
    { intros o Ho. unfold or_None. by rewrite Ho. }
    assert (opt_truthy country = true ->
            py_eq_str (doc_get r "country") (opt_str country) = true) as Hc'.
    { intros Htc. rewrite (Hor _ Htc) in Hc. exact (Hc Htc). }
    assert (opt_truthy entity = true ->
            array_contains "entityNameSlug" (opt_str entity) r = true) as He'.
    { intros Hte. rewrite (Hor _ Hte) in He. exact (He Hte). }
    clear Hc He. unfold _matches, array_contains in *.
    destruct (opt_truthy country).
    + rewrite (Hc' eq_refl). simpl. destruct (opt_truthy entity); [|done].
      specialize (He' eq_refl).
      destruct (doc_get r "entityNameSlug") as [| | | | |l|]; try discriminate.
      rewrite He'. simpl. by rewrite andb_false_r.
    + simpl. destruct (opt_truthy entity); [|done].
      specialize (He' eq_refl).
      destruct (doc_get r "entityNameSlug") as [| | | | |l|]; try discriminate.
      rewrite He'. simpl. by rewrite andb_false_r.
Qed.

End CacheOverStore.

(** *** The series of the query layer *)

Lemma sdict_set_fresh (k : string) (v : Z) (data : list (string * Z)) :
  k ∉ data.*1 -> sdict_set k v data = (data ++ [(k, v)])%list.
Proof.
  induction data as [|[k' v'] rest IH]; simpl; intros Hk; [done|].
  apply not_elem_of_cons in Hk as [Hne Hk].
  destruct (String.eqb_spec k' k) as [->|_]; [done|]. by rewrite IH.
Qed.

(** A row of a series indexed by strings, as a row of one indexed by
    values. *)
Local Abbreviation as_key := (fun x : string * Z => (PStr x.1, x.2)).

Lemma dict_set_fresh (k : string) (v : Z) (data : list (string * Z)) :
  k ∉ data.*1 ->
  dict_set (PStr k) v (map as_key data) = map as_key (data ++ [(k, v)])%list.
Proof.
  induction data as [|[k' v'] rest IH]; simpl; intros Hk; [done|].
  apply not_elem_of_cons in Hk as [Hne Hk].
  destruct (String.eqb_spec k' k) as [->|_]; [done|]. by rewrite IH.
Qed.

Lemma dict_set_elem name total data (x : pyval * Z) :
  x ∈ dict_set name total data -> x.2 = total \/ x ∈ data.
Proof.
  induction data as [|[k v] rest IH]; simpl.
  - intros ->%list_elem_of_singleton. by left.
  - destruct (key_eqb k name).
    + intros [->|Hin]%elem_of_cons; [by left|]. right. by right.
    + intros [->|Hin]%elem_of_cons; [right; by left|].
      destruct (IH Hin); [by left|]. right. by right.
Qed.

Lemma key_ltb_asym (a b : pyval) : key_ltb a b = true -> key_ltb b a = false.
Proof.
  destruct a, b; simpl; intros H;
    first [ by apply string_ltb_asym
          | apply Z.ltb_ge; apply Z.ltb_lt in H; lia ].
Qed.

Lemma string_keys_one_kind (l : list (string * Z)) :
  forallb (fun x : pyval * Z => kind_eqb (kind_of x.1) KStr) (map as_key l)
  = true.
Proof. induction l as [|a l IH]; simpl; [done|]. exact IH. Qed.

Lemma sort_index_strings (l : list (string * Z)) :
  sort_index (map as_key l)
  = Ok (sorted_asc_by (fun x y => key_ltb x.1 y.1) (map as_key l)).
Proof.
  destruct l as [|a [|b l]]; [done..|].
  pose proof (string_keys_one_kind l) as Hall.
  unfold sort_index. simpl in *. by rewrite Hall.
Qed.

Section Series.

Variable slugify_unicode : string -> Z -> string.
Variable int_of_str : string -> option Z.
Variable fs_ltb : pyval -> pyval -> bool.

Local Abbreviation slugify := (slugify slugify_unicode).

(** [int(dd.get(k, 0) or 0)] on a counter field. *)
Lemma py_int_counter (k : string) (dd : doc) :
  match dd !! k with Some (PInt _) | None => true | _ => false end = true ->
  py_int int_of_str (py_or (doc_get dd k) (PInt 0)) = Ok (int_field k dd).
Proof.
  unfold doc_get, int_field, py_or.
  destruct (dd !! k) as [[| |z| | | |]|]; try discriminate; simpl; [|done].
  intros _. by destruct (Z.eqb_spec z 0) as [->|].
Qed.

(** **** [country_totals] *)

Lemma fill_totals_rows (docs : list (string * doc)) (data : list (string * Z)) :
  Forall (fun x => total_shaped x = true) docs ->
  NoDup (data.*1 ++ docs.*1)%list ->
  fill_totals int_of_str docs data
  = Ok (data ++ map (fun x => (x.1, int_field "total" x.2)) docs)%list.
Proof.
  revert data. induction docs as [|[id dd] rest IH]; intros data Hall Hnd; simpl.
  - by rewrite app_nil_r.
  - inversion Hall as [|? ? Hd Hrest]; subst.
    rewrite (py_int_counter "total" dd Hd). simpl.
    rewrite sdict_set_fresh.
    + rewrite IH; [by rewrite <- app_assoc|done|].
      by rewrite fmap_app, <- app_assoc.
    + apply NoDup_app in Hnd as (_ & Hnot & _). intros Hin.
      apply (Hnot _ Hin). simpl. by left.
Qed.

(** X20. Over country documents whose [total] is an integer or absent,
    [country_totals] returns one row for each country document of the
    hour and no other, carrying that country's total, the rows in
    ascending order of the country code. *)
Theorem country_totals_spec (s : db) (hour : string) :
  (forall iso dd, s !! country_ref default_paths hour iso = Some dd ->
                  total_shaped (iso, dd) = true) ->
  exists rows,
    country_totals int_of_str s hour = Ok rows
    /\ (forall iso z, (iso, z) ∈ rows <->
          is_Some (s !! country_ref default_paths hour iso)
          /\ z = CountryTotal default_paths s hour iso)
    /\ NoDup rows.*1
    /\ Sorted (fun a b => String.ltb b.1 a.1 = false) rows.
Proof.
  intros Hshape. unfold country_totals.
  set (docs := collection_docs s ["mentions"; hour; "countries"]).
  rewrite fill_totals_rows.
  - simpl. eexists. split; [done|]. split; [|split].
    + intros iso z. rewrite sorted_asc_by_Permutation, list_elem_of_fmap.
      unfold CountryTotal. split.
      * intros ([id dd] & [= -> ->] & Hin). apply collection_docs_elem in Hin.
        simpl in *. change (country_ref default_paths hour id)
          with ["mentions"; hour; "countries"; id]. rewrite Hin. eauto.
      * intros [[dd Hdd] ->]. exists (iso, dd). rewrite Hdd. split; [done|].
        by apply collection_docs_elem.
    + rewrite sorted_asc_by_Permutation, <- list_fmap_compose.
      apply (collection_docs_NoDup s ["mentions"; hour; "countries"]).
    + apply (sorted_asc_by_Sorted (fun x y : string * Z => String.ltb x.1 y.1)).
      intros a b. apply string_ltb_asym.
  - apply Forall_forall. intros [id dd] Hin. apply (Hshape id).
    by apply collection_docs_elem in Hin.
  - apply collection_docs_NoDup.
Qed.

(** **** [top_entities_by_country] *)

Lemma fill_counts_length docs data r :
  fill_counts int_of_str docs data = Ok r ->
  (length r <= length data + length docs)%nat.
Proof.
  revert data. induction docs as [|[id dd] rest IH]; intros data; simpl.
  - intros [= <-]. lia.
  - destruct (py_int int_of_str _) as [count|]; simpl; [|discriminate].
    destruct (0 <? count).
    + destruct (hashable _); [|discriminate].
      intros H. apply IH in H.
      pose proof (dict_set_length
        (py_or (doc_get dd "entity") (py_or (doc_get dd "entityId") (PStr id)))
        count data). lia.
    + intros H. apply IH in H. lia.
Qed.

Lemma fill_counts_positive docs data r :
  fill_counts int_of_str docs data = Ok r ->
  Forall (fun x => 0 < x.2) data -> Forall (fun x => 0 < x.2) r.
Proof.
  revert data. induction docs as [|[id dd] rest IH]; intros data; simpl.
  - by intros [= <-].
  - destruct (py_int int_of_str _) as [count|]; simpl; [|discriminate].
    destruct (Z.ltb_spec 0 count) as [Hpos|_].
    + destruct (hashable _); [|discriminate].
      intros H Hdata. apply (IH _ H). apply Forall_forall. intros x Hx.
      apply dict_set_elem in Hx as [->|Hx]; [done|].
      rewrite Forall_forall in Hdata. by apply Hdata.
    + apply IH.
Qed.

Lemma fill_counts_shaped docs data :
  Forall (fun x => count_shaped x = true) docs ->
  exists r, fill_counts int_of_str docs data = Ok r.
Proof.
  revert data. induction docs as [|[id dd] rest IH]; intros data Hall; simpl.
  - eauto.
  - inversion Hall as [|? ? Hd Hrest]; subst.
    unfold count_shaped in Hd. simpl in Hd.
    apply andb_true_iff in Hd as [Hd Hid].
    apply andb_true_iff in Hd as [Hcount Hent].
    rewrite (py_int_counter "count" dd Hcount). simpl.
    destruct (0 <? int_field "count" dd); [|by apply IH].
    replace (hashable _) with true; [by apply IH|].
    unfold doc_get, py_or.
    destruct (dd !! "entity") as [[| | | n | | |]|]; try discriminate;
      destruct (dd !! "entityId") as [[| | | m | | |]|]; try discriminate;
      simpl; repeat (match goal with |- context [str_truthy ?x] =>
                       destruct (str_truthy x) end; simpl); done.
Qed.

Lemma by_country_returns (s : db) (hour iso3 : string) (limit : Z) :
  0 <= limit ->
  (forall eid dd,
     s !! country_entity_ref default_paths hour iso3 eid = Some dd ->
     count_shaped (eid, dd) = true) ->
  exists rows,
    top_entities_by_country int_of_str fs_ltb s hour iso3 limit = Ok rows.
Proof.
  unfold top_entities_by_country, entities_by_count.
  intros Hlimit Hshape. destruct (Z.ltb_spec limit 0); [lia|]. simpl.
  edestruct fill_counts_shaped as [data ->]; [|simpl; eauto].
  apply Forall_take. rewrite sorted_desc_by_Permutation.
  apply Forall_forall. intros [eid dd] Hx.
  apply list_elem_of_In, filter_In in Hx as [Hx _].
  apply list_elem_of_In, collection_docs_elem in Hx. by apply (Hshape eid).
Qed.

(** X21. [top_entities_by_country] answers only a non-negative limit;
    the series it returns has at most [limit] rows, every count in it is
    positive, and the counts never increase from one row to the next.  It
    does return one when the limit is not negative and the breakdown
    documents of the country are as the rollup writes them. *)
Theorem top_entities_by_country_spec (s : db) (hour iso3 : string) (limit : Z) :
  (forall rows,
     top_entities_by_country int_of_str fs_ltb s hour iso3 limit = Ok rows ->
     0 <= limit
     /\ Z.of_nat (length rows) <= limit
     /\ Forall (fun x => 0 < x.2) rows
     /\ Sorted Z.ge (map snd rows))
  /\ (0 <= limit ->
      (forall eid dd,
         s !! country_entity_ref default_paths hour iso3 eid = Some dd ->
         count_shaped (eid, dd) = true) ->
      exists rows,
        top_entities_by_country int_of_str fs_ltb s hour iso3 limit = Ok rows).
Proof.
  split; [|apply by_country_returns].
  unfold top_entities_by_country, entities_by_count.
  intros rows. destruct (Z.ltb_spec limit 0); simpl; [discriminate|].
  destruct (fill_counts int_of_str _ []) as [data|] eqn:Hf; simpl;
    [|discriminate].
  intros [= <-]. split; [done|]. split; [|split].
  - rewrite sorted_desc_length. apply fill_counts_length in Hf.
    rewrite length_take in Hf. simpl in Hf. lia.
  - apply fill_counts_positive in Hf; [|by constructor].
    unfold sorted_desc. by rewrite sorted_desc_by_Permutation.
  - apply sorted_desc_Sorted.
Qed.

(** **** [country_breakdown_for_entity] *)

Lemma fill_breakdown_rows (docs : list (string * doc)) (data : list (string * Z)) :
  Forall (fun x => breakdown_shaped x = true) docs ->
  NoDup (data.*1 ++ docs.*1)%list ->
  fill_breakdown int_of_str docs (map as_key data)
  = Ok (map as_key
         (data ++ map (fun x => (x.1, int_field "count" x.2)) docs)%list).
Proof.
  revert data. induction docs as [|[id dd] rest IH]; intros data Hall Hnd.
  - simpl. by rewrite app_nil_r.
  - inversion Hall as [|? ? Hd Hrest]; subst.
    unfold breakdown_shaped in Hd. simpl in Hd.
    apply andb_true_iff in Hd as [Hcount Hcountry].
    cbn [fill_breakdown]. rewrite (py_int_counter "count" dd Hcount). simpl.
    assert (py_or (doc_get dd "country") (PStr id) = PStr id) as ->.
    { unfold doc_get, py_or.
      destruct (dd !! "country") as [[| | | c | | |]|]; try discriminate;
        simpl; [|done].
      apply String.eqb_eq in Hcountry as ->. by destruct (str_truthy id). }
    simpl. rewrite dict_set_fresh.
    + rewrite IH; [by rewrite <- app_assoc|done|].
      by rewrite fmap_app, <- app_assoc.
    + apply NoDup_app in Hnd as (_ & Hnot & _). intros Hin.
      apply (Hnot _ Hin). simpl. by left.
Qed.

(** X22. Over breakdown documents as the rollup writes them,
    [country_breakdown_for_entity] returns one row for each country that
    has a breakdown document under the entity's slug and no other,
    carrying that breakdown cell, in ascending order of the country code;
    the counts of the series add up to the sum of the entity's breakdown
    cells, which is the entity's total in a store where the counters are
    conserved. *)
Theorem country_breakdown_spec (s : db) (hour entity_name : string) :
  let eid := slugify entity_name 128 in
  (forall iso dd, s !! ent_country_ref default_paths hour eid iso = Some dd ->
                  breakdown_shaped (iso, dd) = true) ->
  exists rows,
    country_breakdown_for_entity slugify_unicode int_of_str s hour entity_name
    = Ok rows
    /\ (forall k z, (k, z) ∈ rows <->
          exists iso, k = PStr iso
            /\ is_Some (s !! ent_country_ref default_paths hour eid iso)
            /\ z = EntityCountryBreakdown default_paths s hour eid iso)
    /\ Sorted (fun a b => key_ltb b.1 a.1 = false) rows
    /\ sum_Z rows.*2 = EntityCountrySum default_paths s hour eid
    /\ (conserved default_paths s ->
        sum_Z rows.*2 = EntityTotal default_paths s hour eid).
Proof.
  intros eid Hshape. unfold country_breakdown_for_entity. fold eid.
  set (coll := ["mentions"; hour; "entities"; eid; "countries"]).
  assert (forall iso, ent_country_ref default_paths hour eid iso
                      = (coll ++ [iso])%list) as Href by done.
  pose proof (fill_breakdown_rows (collection_docs s coll) []) as Hfill.
  simpl in Hfill. rewrite Hfill; clear Hfill.
  - simpl. rewrite sort_index_strings. eexists. split; [done|].
    assert (sum_Z (sorted_asc_by (fun x y : pyval * Z => key_ltb x.1 y.1)
                     (map as_key
                        (map (fun x : string * doc =>
                                (x.1, int_field "count" x.2))
                           (collection_docs s coll)))).*2
            = EntityCountrySum default_paths s hour eid) as Hsum.
    { rewrite (EntityCountrySum_collection default_paths).
      unfold collection_sum. apply sum_Z_Permutation.
      rewrite sorted_asc_by_Permutation.
      by rewrite <- !list_fmap_compose. }
    split; [|split; [|split]].
    + intros k z. rewrite sorted_asc_by_Permutation.
      rewrite <- list_fmap_compose, list_elem_of_fmap.
      unfold EntityCountryBreakdown. split.
      * intros ([id dd] & [= -> ->] & Hin). apply collection_docs_elem in Hin.
        exists id. rewrite Href. simpl in *. rewrite Hin. eauto.
      * intros (iso & -> & [dd Hdd] & ->). exists (iso, dd). rewrite Hdd.
        split; [done|]. apply collection_docs_elem. by rewrite <- Href.
    + apply (sorted_asc_by_Sorted (fun x y : pyval * Z => key_ltb x.1 y.1)).
      intros a b. apply key_ltb_asym.
    + exact Hsum.
    + intros Hcons. rewrite Hsum. apply Hcons.
  - apply Forall_forall. intros [id dd] Hin. apply (Hshape id).
    rewrite Href. by apply collection_docs_elem in Hin.
  - apply collection_docs_NoDup.
Qed.

End Series.

(** *** The documents the rollup leaves behind *)

Lemma merge_fields_field (ct : Z) (k : string) (P : option pyval -> Prop)
    (fields : list (string * field_value)) (d : doc) :
  P (d !! k) ->
  (forall fv o, (k, fv) ∈ fields -> P o -> P (Some (transform ct o fv))) ->
  P (merge_fields ct d fields !! k).
Proof.
  unfold merge_fields. revert d.
  induction fields as [|[k' fv] rest IH]; intros d Hd Hstep; [done|].
  simpl. apply IH.
  - destruct (decide (k' = k)) as [->|Hne].
    + rewrite lookup_insert_eq. apply Hstep; [left|done].
    + by rewrite lookup_insert_ne.
  - intros fv' o Hin. apply Hstep. by right.
Qed.

Lemma typed_field_elem (p : path) (fields : list (string * field_value))
    (k : string) (fv : field_value) :
  forallb (typed_field p) fields = true -> (k, fv) ∈ fields ->
  typed_field p (k, fv) = true.
Proof.
  intros Hall Hin. rewrite forallb_forall in Hall.
  by apply Hall, list_elem_of_In.
Qed.

Lemma merge_fields_typed (ct : Z) (p : path) (d : doc)
    (fields : list (string * field_value)) :
  forallb (typed_field p) fields = true ->
  doc_typed p d = true -> doc_typed p (merge_fields ct d fields) = true.
Proof.
  intros Hw. unfold doc_typed. rewrite !andb_true_iff.
  intros [[[[Ht Hc] He] Hi] Hy].
  repeat split.
  - apply (merge_fields_field ct "total" (fun o => int_or_absent o = true));
      [done|]. intros fv o Hin _.
    pose proof (typed_field_elem p fields _ _ Hw Hin) as Hf.
    destruct fv as [v|n|]; try discriminate. by destruct o as [[]|].
  - apply (merge_fields_field ct "count" (fun o => int_or_absent o = true));
      [done|]. intros fv o Hin _.
    pose proof (typed_field_elem p fields _ _ Hw Hin) as Hf.
    destruct fv as [v|n|]; try discriminate. by destruct o as [[]|].
  - apply (merge_fields_field ct "entity" (fun o => str_or_absent o = true));
      [done|]. intros fv o Hin _.
    pose proof (typed_field_elem p fields _ _ Hw Hin) as Hf.
    by destruct fv as [[]|n|].
  - apply (merge_fields_field ct "entityId" (fun o => str_or_absent o = true));
      [done|]. intros fv o Hin _.
    pose proof (typed_field_elem p fields _ _ Hw Hin) as Hf.
    by destruct fv as [[]|n|].
  - apply (merge_fields_field ct "country" (fun o => country_is_id p o = true));
      [done|]. intros fv o Hin _.
    pose proof (typed_field_elem p fields _ _ Hw Hin) as Hf.
    by destruct fv as [[]|n|].
Qed.

Section Typed.

Variable slugify_unicode : string -> Z -> string.
Variable upper_unicode : string -> string.
Variable fromisoformat : string -> option Z.
Variable strftime : string -> Z -> string.
Variable paths : RollupPaths.

Local Abbreviation apply := (apply_for_article slugify_unicode upper_unicode
    fromisoformat strftime paths).
Local Abbreviation loop := (entities_loop slugify_unicode paths).
Local Abbreviation named_id := (named_id slugify_unicode).
Local Abbreviation named_ids := (named_ids slugify_unicode).
Local Abbreviation slugify := (slugify slugify_unicode).
Local Abbreviation event_country := (event_country upper_unicode).

Lemma apply_write_typed (ct : Z) (s : db) (w : write) :
  typed_write w = true -> rollup_typed paths s ->
  rollup_typed paths (apply_write ct s w).
Proof.
  intros Hw Hs p d. unfold apply_write.
  destruct (decide (w_ref w = p)) as [<-|Hne].
  - rewrite lookup_insert_eq. intros [= <-] Hroot.
    apply merge_fields_typed; [done|].
    destruct (s !! w_ref w) as [d0|] eqn:Hd0; [by apply (Hs _ _ Hd0)|done].
  - rewrite lookup_insert_ne by done. apply Hs.
Qed.

Lemma commit_typed (ct : Z) (ws : list write) (s : db) :
  Forall (fun w => typed_write w = true) ws -> rollup_typed paths s ->
  rollup_typed paths (commit ct s ws).
Proof.
  unfold commit. revert s. induction ws as [|w ws IH]; intros s Hall Hs; [done|].
  inversion Hall; subst. simpl. apply IH; [done|]. by apply apply_write_typed.
Qed.

Lemma head_writes_typed (ref : path) (hv : pyval) (h c : string) :
  Forall (fun w => typed_write w = true) (head_writes paths ref hv h c).
Proof.
  unfold head_writes, typed_write, typed_field. repeat constructor; simpl;
    rewrite ?andb_true_r; by apply bool_decide_eq_true.
Qed.

Lemma entity_writes_typed (h c eid n : string) (etype : pyval) :
  Forall (fun w => typed_write w = true)
    (entity_writes paths h c eid (PStr n) etype).
Proof.
  unfold entity_writes, typed_write, typed_field. repeat constructor; simpl;
    rewrite ?andb_true_r; by apply bool_decide_eq_true.
Qed.

Lemma loop_typed (h c : string) (ents : list pyval) (ws : list write) :
  loop h c ents = Ok ws -> Forall (fun w => typed_write w = true) ws.
Proof.
  revert ws. induction ents as [|ent rest IH]; intros ws.
  - simpl. intros [= <-]. constructor.
  - rewrite loop_cons. destruct (named_id ent) as [eid|] eqn:Hn.
    + destruct (loop h c rest) as [ws'|]; cbn [bind]; [|discriminate].
      intros Heq.
      assert (ws = (entity_writes paths h c eid
                (match ent with PDict d => assoc_get d "name" | _ => PNone end)
                (py_or (match ent with PDict d => assoc_get d "type" | _ => PNone end)
                       (PStr "OTHER")) ++ ws')%list) as -> by congruence.
      apply Forall_app. split; [|by apply IH].
      unfold named_id in Hn. destruct ent as [| | | | | |d]; try discriminate.
      destruct (assoc_get d "name") as [| | |n| | |]; try discriminate.
      apply entity_writes_typed.
    + destruct (negb (truthy ent)); [apply IH|].
      destruct ent; try discriminate.
      destruct (negb (truthy _)); [apply IH|discriminate].
Qed.

Lemma apply_typed (E : env) (s : db) (ref : path) :
  rollup_typed paths s -> rollup_typed paths (apply E s ref).1.
Proof.
  intros Hs.
  destruct (apply_cases slugify_unicode upper_unicode
      fromisoformat strftime paths E s ref)
    as [->|(a & dt & c & h & ents & ent_ws & Hl & ->)]; [done|].
  apply commit_typed; [|done]. apply Forall_app. split.
  - apply head_writes_typed.
  - by eapply loop_typed.
Qed.

Lemma apply_all_typed (calls : list (env * path)) (s : db) :
  rollup_typed paths s ->
  rollup_typed paths (apply_all slugify_unicode upper_unicode
      fromisoformat strftime paths calls s).
Proof.
  unfold apply_all. revert s.
  induction calls as [|[E ref] calls IH]; intros s Hs; [done|].
  simpl. apply IH. by apply apply_typed.
Qed.

End Typed.

(** What [doc_typed] gives the queries under the default root. *)
Lemma typed_store_is_shaped (s : db) (hour : string) :
  rollup_typed default_paths s ->
  (forall iso dd, s !! country_ref default_paths hour iso = Some dd ->
                  total_shaped (iso, dd) = true)
  /\ (forall eid iso dd,
        s !! ent_country_ref default_paths hour eid iso = Some dd ->
        breakdown_shaped (iso, dd) = true)
  /\ (forall iso eid dd,
        s !! country_entity_ref default_paths hour iso eid = Some dd ->
        count_shaped (eid, dd) = true)
  /\ (forall eid dd, s !! ent_ref default_paths hour eid = Some dd ->
                     rollup_shaped dd = true).
Proof.
  intros Hs.
  assert (forall p dd, s !! p = Some dd ->
            under_root "mentions" p = true ->
            int_or_absent (dd !! "total") = true
            /\ int_or_absent (dd !! "count") = true
            /\ str_or_absent (dd !! "entity") = true
            /\ str_or_absent (dd !! "entityId") = true
            /\ country_is_id p (dd !! "country") = true) as Hdoc.
  { intros p dd Hp Hroot. specialize (Hs p dd Hp Hroot).
    unfold doc_typed in Hs. rewrite !andb_true_iff in Hs. tauto. }
  repeat split.
  - intros iso dd Hdd. by destruct (Hdoc _ _ Hdd eq_refl) as (? & _).
  - intros eid iso dd Hdd.
    destruct (Hdoc _ _ Hdd eq_refl) as (_ & Hc & _ & _ & Hy).
    unfold breakdown_shaped. simpl. apply andb_true_iff. split; [done|].
    unfold country_is_id in Hy.
    destruct (dd !! "country") as [[| | | c | | |]|]; try done.
    apply bool_decide_eq_true in Hy. simpl in Hy. injection Hy as <-.
    apply String.eqb_refl.
  - intros iso eid dd Hdd.
    destruct (Hdoc _ _ Hdd eq_refl) as (_ & Hc & He & Hi & _).
    unfold count_shaped. simpl. by rewrite !andb_true_iff.
  - intros eid dd Hdd.
    destruct (Hdoc _ _ Hdd eq_refl) as (Ht & _ & He & _).
    unfold rollup_shaped. by rewrite andb_true_iff.
Qed.

Section RollupThenQuery.

Variable slugify_unicode : string -> Z -> string.
Variable upper_unicode : string -> string.
Variable fromisoformat : string -> option Z.
Variable strftime : string -> Z -> string.
Variable int_of_str : string -> option Z.
Variable fs_ltb : pyval -> pyval -> bool.

Local Abbreviation slugify := (slugify slugify_unicode).

(** X23. The rollup keeps the documents below its root in the shape the
    query layer reads, so the queries answer on what it wrote.  If every
    document below the root has integer counters, string names and a
    [country] equal to its identifier (each possibly absent) -- as when no
    document lies there yet -- then so has every one after any sequence of
    calls, and on the resulting store [country_totals], [top_entities],
    [top_entities_by_country] and [country_breakdown_for_entity] return a
    series for every hour, country, entity name and non-negative limit. *)
Theorem queries_answer_after_rollups (calls : list (env * path)) (s : db)
    (hour iso3 entity_name : string) (limit : Z) :
  rollup_typed default_paths s ->
  0 <= limit ->
  let s' := apply_all slugify_unicode upper_unicode
      fromisoformat strftime default_paths calls s in
  rollup_typed default_paths s'
  /\ (exists rows, country_totals int_of_str s' hour = Ok rows)
  /\ (exists rows, top_entities int_of_str fs_ltb s' hour limit = Ok rows)
  /\ (exists rows,
        top_entities_by_country int_of_str fs_ltb s' hour iso3 limit = Ok rows)
  /\ (exists rows,
        country_breakdown_for_entity slugify_unicode int_of_str s' hour
          entity_name = Ok rows).
Proof.
  intros Hs Hlimit s'.
  assert (rollup_typed default_paths s') as Hs'
    by by apply apply_all_typed.
  destruct (typed_store_is_shaped s' hour Hs') as (Htot & Hbr & Hcnt & Hent).
  split; [done|]. split; [|split; [|split]].
  - unfold country_totals. rewrite fill_totals_rows.
    + simpl. eauto.
    + apply Forall_forall. intros [id dd] Hin. apply (Htot id).
      by apply collection_docs_elem in Hin.
    + apply collection_docs_NoDup.
  - unfold top_entities.
    destruct (entities_by_total fs_ltb s' hour limit) as [docs|e] eqn:Hq; simpl.
    + edestruct (fill_data_shaped int_of_str docs []) as [data ->];
        [|simpl; eauto].
      eapply query_subset; [|exact Hq].
      apply Forall_forall. intros [id dd] Hin. apply (Hent id).
      by apply collection_docs_elem in Hin.
    + unfold entities_by_total in Hq.
      destruct (Z.ltb_spec limit 0); [lia|discriminate].
  - apply by_country_returns; [done|]. intros eid dd. apply Hcnt.
  - unfold country_breakdown_for_entity.
    pose proof (fill_breakdown_rows int_of_str
      (collection_docs s'
         ["mentions"; hour; "entities"; slugify entity_name 128; "countries"])
      []) as Hfill.
    simpl in Hfill. rewrite Hfill; clear Hfill.
    + simpl. rewrite sort_index_strings. eauto.
    + apply Forall_forall. intros [id dd] Hin.
      apply (Hbr (slugify entity_name 128) id).
      by apply collection_docs_elem in Hin.
    + apply collection_docs_NoDup.
Qed.

End RollupThenQuery.

End QueryProperties.

(** ** The further scenarios, run *)

Module MoreChecks.
Import Py Firestore.
Import Scenarios MoreScenarios SmartArticleCache CacheKeys FirestoreRollup.
Import RollupNotions NewsDataLoader FirestoreWriter NewsDataLoaderQueries.
Import StoreProperties RollupProperties RollupMore LoaderProperties CacheMore.
Import SlugProperties WriterProperties QueryProperties.

(** *** The cache *)

(** X1 on three rows of scenario B, cut at two. *)
Lemma sort_trim_most_recent_witness :
  exists top,
    _sort_trim no_datetime no_unordered [r1; r2; r3] 2 = Ok top /\
    length top = 2%nat /\
    StronglySorted
      (fun a b => time_of (row_key no_datetime b)
                  <= time_of (row_key no_datetime a))
      top.
Proof.
  destruct (sort_trim_most_recent no_datetime no_unordered [r1; r2; r3] 2
              ltac:(lia) ltac:(vm_compute; reflexivity))
    as (top & Htop & Hlen & Hsorted & _).
  exists top. split; [exact Htop|]. split; [exact Hlen|exact Hsorted].
Defined.

(** A row whose time is a text pandas cannot read gets the naive
    [datetime.min] for a key, which does not compare with the aware times
    of the other rows: sorting raises, and so does [get], after it has
    written the fetched rows to the cache. *)
Example unreadable_time_raises :
  let g := <["time" := PStr "soon"]> r2 in
  let loader := fun _ : fetch => Ok [r1; g] in
  let o := get str_plain lower_plain no_datetime no_unordered loader ∅ bucket
             (Some "USA") (Some "NASA") None None None 3 in
  _sort_trim no_datetime no_unordered [r1; g] 3 = Raise TypeError /\
  ret o = Raise TypeError /\
  store' o !! _key bucket (Some "USA") (Some "NASA") = Some [r1; g].
Proof. vm_compute. repeat split. Qed.

(** X2 at scenario C: the rows the loader gave are served again with the
    loader down. *)
Lemma get_repeat_is_served_from_cache_witness :
  let o1 := cache_get loader_ok store_C bucket (Some "USA") (Some "NASA")
              (Some breakdown_nasa) in
  exists rows,
    ret o1 = Ok rows /\
    cache_get loader_down (store' o1) bucket (Some "USA") (Some "NASA")
      (Some breakdown_nasa)
    = Outcome (Ok rows) (store' o1) [].
Proof.
  intros o1.
  assert (match ret o1 with Ok _ => True | Raise _ => False end) as Hok
    by (vm_compute; exact I).
  destruct (ret o1) as [rows|e] eqn:Hret; [|destruct Hok].
  exists rows. split; [reflexivity|].
  exact (get_repeat_is_served_from_cache str_plain lower_plain
      no_datetime no_unordered loader_ok
           loader_down store_C bucket (Some "USA") (Some "NASA")
           None (Some breakdown_nasa) (Some global_tops)
           None (Some breakdown_nasa) (Some global_tops) 3 rows
           eq_refl Hret).
Defined.

(** X3 at scenario C. *)
Lemma get_touches_only_exact_key_witness :
  let o := cache_get loader_ok store_C bucket (Some "USA") (Some "NASA")
             (Some breakdown_nasa) in
  is_Some (store' o !! _key bucket (Some "USA") (Some "NASA")).
Proof.
  intros o.
  apply (proj2 (get_touches_only_exact_key str_plain lower_plain
      no_datetime no_unordered loader_ok
                  store_C bucket (Some "USA") (Some "NASA") None
                  (Some breakdown_nasa) (Some global_tops) 3)).
  - reflexivity.
  - eexists. reflexivity.
Defined.

(** X4: without snapshots the loader is asked, whatever the cache holds. *)
Lemma get_unknown_expected_fetches_witness :
  let o := get str_plain lower_plain
      no_datetime no_unordered loader_ok store_B bucket (Some "USA")
             (Some "NASA") None None None 3 in
  fetches o = [fallback_fetch bucket (Some "USA") (Some "NASA") 3] /\
  ret o = bind (loader_ok (fallback_fetch bucket (Some "USA") (Some "NASA") 3))
            (fun fetched => _sort_trim no_datetime no_unordered fetched 3).
Proof.
  apply (get_unknown_expected_fetches str_plain lower_plain
      no_datetime no_unordered loader_ok store_B
           bucket (Some "USA") (Some "NASA") None None None 3);
    reflexivity.
Defined.

(** X5 at scenario B. *)
Lemma get_reused_rows_match_witness :
  let o := cache_get loader_down store_B bucket (Some "USA") (Some "NASA")
             (Some breakdown_nasa) in
  exists rows,
    ret o = Ok rows /\
    forall r, r ∈ rows -> _matches str_plain lower_plain r (Some "USA") (Some "NASA") = true.
Proof.
  intros o.
  assert (match ret o with Ok _ => True | Raise _ => False end) as Hok
    by (vm_compute; exact I).
  destruct (ret o) as [rows|e] eqn:Hret; [|destruct Hok].
  exists rows. split; [reflexivity|].
  destruct (get_reused_rows_match str_plain lower_plain
      no_datetime no_unordered loader_down store_B
              bucket (Some "USA") (Some "NASA") None (Some breakdown_nasa)
              (Some global_tops) 3 rows eq_refl eq_refl eq_refl Hret)
    as (pkey & parent_rows & _ & _ & _ & Hrows).
  intros r Hr. exact (proj2 (Hrows r Hr)).
Defined.

(** X6: a country given as nothing and one given as the empty string
    share their key, and their texts are indeed equal. *)
Lemma key_injective_witness :
  bucket = bucket /\ opt_str None = opt_str (Some "")
  /\ opt_str (Some "NASA") = opt_str (Some "NASA").
Proof.
  apply (key_injective bucket None (Some "NASA") bucket (Some "") (Some "NASA"));
    reflexivity.
Defined.

(** *** The rollup *)

Lemma no_counters_mirrored (paths : RollupPaths) (s : db) :
  map_Forall (fun _ (d : doc) => d !! "count" = None) s -> mirrored paths s.
Proof.
  intros Hall h e c. unfold EntityCountryBreakdown, CountryEntityBreakdown.
  assert (forall p, int_field "count" (default ∅ (s !! p)) = 0) as Hzero.
  { intros p. unfold int_field. destruct (s !! p) as [d|] eqn:Hd; simpl.
    - by rewrite (Hall _ _ Hd).
    - by rewrite lookup_empty. }
  by rewrite !Hzero.
Qed.

Lemma db_A_no_counts : map_Forall (fun _ (d : doc) => d !! "count" = None) db_A.
Proof.
  unfold db_A. apply map_Forall_insert_2; [reflexivity|].
  apply map_Forall_singleton. reflexivity.
Qed.

(** X7 on scenario A. *)
Lemma breakdowns_stay_mirrored_witness :
  mirrored default_paths
    (apply_all slug_plain upper_plain
        no_isoformat strftime_hour default_paths calls_A db_A).
Proof.
  apply breakdowns_stay_mirrored, no_counters_mirrored, db_A_no_counts.
Defined.

(** X9 on the first event of scenario A. *)
Lemma rollup_stays_in_its_bucket_witness :
  let s' := (rollup E0 db_A ref_1).1 in
  CountryTotal default_paths s' bucket "USA"
  = CountryTotal default_paths db_A bucket "USA" + 1 /\
  forall h' c' e,
    (h' <> bucket \/ c' <> "USA" ->
       CountryTotal default_paths s' h' c' = CountryTotal default_paths db_A h' c' /\
       EntityCountryBreakdown default_paths s' h' e c'
       = EntityCountryBreakdown default_paths db_A h' e c' /\
       CountryEntityBreakdown default_paths s' h' c' e
       = CountryEntityBreakdown default_paths db_A h' c' e) /\
    (h' <> bucket ->
       EntityTotal default_paths s' h' e = EntityTotal default_paths db_A h' e).
Proof.
  eapply (rollup_stays_in_its_bucket slug_plain upper_plain
      no_isoformat strftime_hour default_paths
            E0 db_A ref_1 event_1 t0 "USA" bucket
            [entity "NASA" "ORGANIZATION"]); reflexivity.
Defined.

(** X10: rolling up the first event leaves the second article alone. *)
Lemma rollup_writes_article_and_mentions_only_witness :
  (rollup E0 db_A ref_1).1 !! ref_2 = db_A !! ref_2.
Proof.
  apply (rollup_writes_article_and_mentions_only slug_plain upper_plain
      no_isoformat strftime_hour
           default_paths E0 db_A ref_1 ref_2).
  - discriminate.
  - reflexivity.
Defined.

(** X11: an event whose second entity is a number is not rolled up. *)
Lemma malformed_entity_aborts_event_witness :
  exists e, rollup E0 db_malformed ref_1 = (db_malformed, Raise e).
Proof.
  apply (malformed_entity_aborts_event slug_plain upper_plain
      no_isoformat strftime_hour default_paths
           E0 db_malformed ref_1 event_malformed
           [entity "NASA" "ORGANIZATION"; PInt 7]); try reflexivity.
  apply Exists_cons_tl, Exists_cons_hd. reflexivity.
Defined.

(** *** Identifiers *)

(** X12 on a name with a capital, a space and a full stop. *)
Lemma slugify_shape_witness :
  slugify slug_plain "St. Louis" 128 = "st-louis" /\
  slugify slug_plain "St. Louis" 128 <> "" /\
  Forall (fun c => slug_char c = true)
    (list_ascii_of_string (slugify slug_plain "St. Louis" 128)) /\
  Z.of_nat (String.length (slugify slug_plain "St. Louis" 128)) <= Z.max 128 6.
Proof.
  split; [reflexivity|].
  destruct (slugify_shape slug_plain "St. Louis" 128) as [Hne Hascii].
  destruct (Hascii eq_refl) as [Hchars Hlen].
  split; [exact Hne|]. split; [exact Hchars|]. apply Hlen. lia.
Defined.

(** X13 on the same name. *)
Lemma slugify_idempotent_witness :
  slugify slug_plain (slugify slug_plain "St. Louis" 128) 128
  = slugify slug_plain "St. Louis" 128 /\
  slugify slug_plain (upper "St. Louis") 128 = slugify slug_plain "St. Louis" 128 /\
  slugify slug_plain (lower "St. Louis") 128 = slugify slug_plain "St. Louis" 128.
Proof.
  apply (slugify_idempotent slug_plain "St. Louis" 128); [lia|reflexivity].
Defined.

(** *** The write path *)

(** X14: the delivery, delivered twice. *)
Lemma redelivery_counts_once_witness :
  let s1 := (deliver W0 ∅ delivery).1 in
  let r2 := deliver W1 s1 delivery in
  (forall p, p <> ["articles"; "a1"] -> r2.1 !! p = s1 !! p) /\
  (forall h c e,
     CountryTotal default_paths r2.1 h c = CountryTotal default_paths s1 h c /\
     EntityTotal default_paths r2.1 h e = EntityTotal default_paths s1 h e /\
     EntityCountryBreakdown default_paths r2.1 h e c
     = EntityCountryBreakdown default_paths s1 h e c /\
     CountryEntityBreakdown default_paths r2.1 h c e
     = CountryEntityBreakdown default_paths s1 h c e) /\
  (write_read_error W1 = None -> read_error (rollup_env W1) = None ->
   r2.2 = Ok "a1").
Proof.
  apply (redelivery_counts_once slug_plain upper_plain
      no_isoformat strftime_hour sha_plain "articles"
           default_paths W0 W1 ∅ delivery delivery "a1" t0).
  - vm_compute. reflexivity.
  - reflexivity.
  - reflexivity.
  - simpl. apply not_elem_of_nil.
Defined.

(** X15: the delivery into an empty store. *)
Lemma first_delivery_is_counted_witness :
  let r := deliver W0 ∅ delivery in
  r.2 = Ok "a1" /\
  CountryTotal default_paths r.1 bucket "USA"
  = CountryTotal default_paths ∅ bucket "USA" + 1 /\
  forall eid,
    EntityTotal default_paths r.1 bucket eid
    = EntityTotal default_paths ∅ bucket eid
      + occurrences eid [slugify slug_plain "NASA" 128].
Proof.
  apply (first_delivery_is_counted slug_plain upper_plain
      no_isoformat strftime_hour sha_plain
           "articles" default_paths W0 ∅ delivery t0); try reflexivity.
  repeat constructor.
Defined.

(** *** The query layer *)

(** X17: the bucket of scenario A is listed once its first event is
    rolled up. *)
Lemma rolled_up_hour_is_listed_witness :
  bucket ∈ list_hours no_unicode_digits (rollup E0 db_A ref_1).1.
Proof.
  eapply (proj1 (rolled_up_hour_is_listed no_unicode_digits slug_plain upper_plain
      no_isoformat strftime_hour)
            E0 db_A ref_1 event_1 t0 "USA" bucket
            [entity "NASA" "ORGANIZATION"]); reflexivity.
Defined.

(** X18: the delivered article is found by hour, country and entity. *)
Lemma load_articles_spec_witness :
  exists rows,
    load_articles db_delivered bucket (Some "USA") (Some "NASA") None = Ok rows /\
    forall id (dd : doc),
      db_delivered !! ["articles"; id] = Some dd ->
      field_is "hour" bucket dd = true ->
      (opt_truthy (Some "USA") = true ->
       field_is "country" (opt_str (Some "USA")) dd = true) ->
      (opt_truthy (Some "NASA") = true ->
       array_contains "entityNameSlug" (opt_str (Some "NASA")) dd = true) ->
      dd ∪ {[ "id" := PStr id ]} ∈ rows.
Proof.
  apply (proj2 (load_articles_spec db_delivered bucket (Some "USA")
                  (Some "NASA") None)).
  reflexivity.
Defined.

(** X19: the cache, empty, asked for NASA in the USA over the store after
    the delivery. *)
Lemma cache_miss_rows_match_witness :
  let o := cache_over db_delivered ∅ bucket (Some "USA") (Some "NASA") in
  exists rows,
    ret o = Ok rows /\
    forall r, r ∈ rows -> _matches str_plain lower_plain r (Some "USA") (Some "NASA") = true.
Proof.
  intros o.
  assert (match ret o with Ok _ => True | Raise _ => False end) as Hok
    by (vm_compute; exact I).
  destruct (ret o) as [rows|e] eqn:Hret; [|destruct Hok].
  exists rows. split; [reflexivity|].
  exact (cache_miss_rows_match str_plain lower_plain
      no_datetime no_unordered db_delivered ∅ bucket
           (Some "USA") (Some "NASA") None None None 3 rows
           eq_refl eq_refl Hret).
Defined.

Lemma db_A_typed : rollup_typed default_paths db_A.
Proof.
  intros p d Hp Hroot. unfold db_A in Hp.
  apply lookup_insert_Some in Hp as [[<- _]|[_ Hp]]; [discriminate|].
  apply lookup_singleton_Some in Hp as [<- _]. discriminate.
Qed.

Lemma db_A_rolled_typed : rollup_typed default_paths db_A_rolled.
Proof.
  apply (apply_all_typed slug_plain upper_plain
      no_isoformat strftime_hour default_paths calls_A db_A).
  exact db_A_typed.
Qed.

(** X20 on scenario A. *)
Lemma country_totals_spec_witness :
  exists rows,
    country_totals no_int db_A_rolled bucket = Ok rows
    /\ (forall iso z, (iso, z) ∈ rows <->
          is_Some (db_A_rolled !! country_ref default_paths bucket iso)
          /\ z = CountryTotal default_paths db_A_rolled bucket iso)
    /\ NoDup rows.*1
    /\ Sorted (fun a b => String.ltb b.1 a.1 = false) rows.
Proof.
  apply country_totals_spec.
  exact (proj1 (typed_store_is_shaped db_A_rolled bucket db_A_rolled_typed)).
Defined.

(** X21 on scenario A. *)
Lemma top_entities_by_country_spec_witness :
  exists rows,
    top_entities_by_country no_int int_ltb db_A_rolled bucket "USA" 5 = Ok rows.
Proof.
  apply (proj2 (top_entities_by_country_spec no_int int_ltb db_A_rolled bucket
                  "USA" 5)); [lia|].
  intros eid dd.
  apply (proj1 (proj2 (proj2 (typed_store_is_shaped db_A_rolled bucket
                                db_A_rolled_typed)))).
Defined.

(** X22 on scenario A. *)
Lemma country_breakdown_spec_witness :
  exists rows,
    country_breakdown_for_entity slug_plain no_int db_A_rolled bucket "NASA" = Ok rows
    /\ (forall k z, (k, z) ∈ rows <->
          exists iso, k = PStr iso
            /\ is_Some (db_A_rolled
                          !! ent_country_ref default_paths bucket
                               (slugify slug_plain "NASA" 128) iso)
            /\ z = EntityCountryBreakdown default_paths db_A_rolled bucket
                     (slugify slug_plain "NASA" 128) iso)
    /\ Sorted (fun a b => key_ltb b.1 a.1 = false) rows
    /\ sum_Z rows.*2
       = EntityCountrySum default_paths db_A_rolled bucket (slugify slug_plain "NASA" 128)
    /\ (conserved default_paths db_A_rolled ->
        sum_Z rows.*2
        = EntityTotal default_paths db_A_rolled bucket (slugify slug_plain "NASA" 128)).
Proof.
  apply (country_breakdown_spec slug_plain no_int db_A_rolled bucket "NASA").
  exact (proj1 (proj2 (typed_store_is_shaped db_A_rolled bucket
                         db_A_rolled_typed)) (slugify slug_plain "NASA" 128)).
Defined.

(** X23 on scenario A. *)
Lemma queries_answer_after_rollups_witness :
  let s' := apply_all slug_plain upper_plain
      no_isoformat strftime_hour default_paths calls_A db_A in
  rollup_typed default_paths s'
  /\ (exists rows, country_totals no_int s' bucket = Ok rows)
  /\ (exists rows, top_entities no_int int_ltb s' bucket 5 = Ok rows)
  /\ (exists rows,
        top_entities_by_country no_int int_ltb s' bucket "USA" 5 = Ok rows)
  /\ (exists rows,
        country_breakdown_for_entity slug_plain no_int s' bucket "NASA" = Ok rows).
Proof.
  apply (queries_answer_after_rollups slug_plain upper_plain
      no_isoformat strftime_hour no_int int_ltb
           calls_A db_A bucket "USA" "NASA" 5).
  - exact db_A_typed.
  - lia.
Defined.

(** What the queries return on scenario A. *)
Example scenario_A_queries :
  list_hours no_unicode_digits db_A_rolled = [bucket] /\
  country_totals no_int db_A_rolled bucket = Ok [("USA", 2)] /\
  top_entities_by_country no_int int_ltb db_A_rolled bucket "USA" 5
  = Ok [(PStr "NASA", 2); (PStr "FAA", 1)] /\
  country_breakdown_for_entity slug_plain no_int db_A_rolled bucket "NASA"
  = Ok [(PStr "USA", 2)] /\
  ids (load_articles db_delivered bucket (Some "USA") (Some "NASA") None)
  = Ok [PStr "a1"].
Proof. vm_compute. repeat split. Qed.

End MoreChecks.

(** ** The entity extractor *)

Module ExtractorProperties.
Import NewsDataLoader EntityExtractor FirestoreWriter.

Lemma key_eqb_sym (a b : pyval) : key_eqb a b = key_eqb b a.
Proof.
  destruct a as [|x|x|x|x|x|x], b as [|y|y|y|y|y|y]; simpl; try reflexivity;
    try apply Z.eqb_sym; try apply String.eqb_sym.
  by destruct x, y.
Qed.

Lemma key_eqb_trans (a b c : pyval) :
  key_eqb a b = true -> key_eqb b c = true -> key_eqb a c = true.
Proof.
  destruct a as [|x|x|x|x|x|x], b as [|y|y|y|y|y|y], c as [|z|z|z|z|z|z];
    simpl; try discriminate; try reflexivity;
    rewrite ?Z.eqb_eq, ?String.eqb_eq, ?Bool.eqb_true_iff; intros; subst;
    try reflexivity; try congruence;
    repeat match goal with b : bool |- _ => destruct b end;
    try discriminate; try reflexivity; try lia.
Qed.

Lemma key_eqb_refl (a : pyval) : hashable a = true -> key_eqb a a = true.
Proof.
  destruct a as [|x|x|x|x|x|x]; simpl; try done; intros _.
  - by destruct x.
  - apply Z.eqb_refl.
  - apply String.eqb_refl.
  - apply Z.eqb_refl.
Qed.

Lemma has_key_app (n : pyval) (c c' : list (pyval * meta)) :
  has_key n (c ++ c')%list = has_key n c || has_key n c'.
Proof. apply existsb_app. Qed.

Lemma has_key_eqb (n n' : pyval) (c : list (pyval * meta)) :
  key_eqb n n' = true -> has_key n c = has_key n' c.
Proof.
  intros Hnn. induction c as [|kv r IH]; simpl; [done|]. rewrite IH. f_equal.
  destruct (key_eqb kv.1 n) eqn:H1, (key_eqb kv.1 n') eqn:H2; try done.
  - by rewrite (key_eqb_trans _ _ _ H1 Hnn) in H2.
  - rewrite key_eqb_sym in Hnn. by rewrite (key_eqb_trans _ _ _ H2 Hnn) in H1.
Qed.

Lemma distinct_keys_snoc (c : list (pyval * meta)) (n : pyval) (m : meta) :
  distinct_keys c = true -> has_key n c = false ->
  distinct_keys (c ++ [(n, m)])%list = true.
Proof.
  induction c as [|kv r IH]; simpl; [done|].
  intros [Hkv Hr]%andb_true_iff [Hn Hnr]%orb_false_iff.
  rewrite has_key_app, IH by done. simpl.
  rewrite (key_eqb_sym n), Hn. apply negb_true_iff in Hkv. by rewrite Hkv.
Qed.

(** The condition of the comprehension as a test. *)
Local Abbreviation passes :=
  (fun e => match accepted e with Done true => true | _ => false end).

Lemma accepted_ents_filter (l r : list pyval) :
  accepted_ents l = Done r -> r = List.filter passes l.
Proof.
  revert r. induction l as [|e l IH]; intros r; simpl.
  - by intros [= <-].
  - destruct (accepted e) as [ok|]; simpl; [|discriminate].
    destruct (accepted_ents l) as [r'|]; simpl; [|discriminate].
    intros [= <-]. rewrite (IH r' eq_refl). by destruct ok.
Qed.

Lemma filter_split {A} (f : A -> bool) (l f1 f2 : list A) (x : A) :
  List.filter f l = (f1 ++ x :: f2)%list ->
  exists l1 l2, l = (l1 ++ x :: l2)%list /\ List.filter f l1 = f1.
Proof.
  revert f1. induction l as [|a l IH]; intros f1; simpl.
  - by destruct f1.
  - destruct (f a) eqn:Hfa.
    + destruct f1 as [|b f1]; simpl; intros [= -> Hrest].
      * exists [], l. done.
      * destruct (IH _ Hrest) as (l1 & l2 & -> & <-).
        exists (b :: l1), l2. simpl. by rewrite Hfa.
    + intros Hrest. destruct (IH _ Hrest) as (l1 & l2 & -> & <-).
      exists (a :: l1), l2. simpl. by rewrite Hfa.
Qed.

(** What passing the condition says of an entity. *)
Lemma accepted_true_inv (e : pyval) :
  accepted e = Done true ->
  exists d t m,
    e = PDict d /\ assoc_get d "type" = PStr t /\
    In t ENTITY_TYPE_FILTER /\ assoc_find d "metadata" = Some m /\
    (contains "wikipedia_url" m = Done true \/ contains "mid" m = Done true).
Proof.
  unfold accepted, e_get, e_item, in_filter.
  destruct e as [| | | | | |d]; try discriminate. cbn [and_then].
  destruct (hashable (assoc_get d "type")); [|discriminate]. cbn [and_then].
  destruct (assoc_get d "type") as [| | |t| | |] eqn:Ht; try discriminate.
  destruct (existsb (String.eqb t) ENTITY_TYPE_FILTER) eqn:Hin;
    [|discriminate]. cbn [negb].
  destruct (assoc_find d "metadata") as [m|] eqn:Hm; [|discriminate].
  cbn [and_then].
  intros H. exists d, t, m. repeat split; try done.
  - apply existsb_exists in Hin as (t' & Hin & ->%String.eqb_eq). done.
  - destruct (contains "wikipedia_url" m) as [[]|]; simpl in H;
      [by left|by right|discriminate].
Qed.

(** The entry the loop adds for an entity. *)
Local Abbreviation entry_of d name :=
  (name, [("type", py_or (assoc_get d "type") (PStr "OTHER")); ("name", name)])
  (only parsing).

Lemma fill_canonical_spec (ents : list pyval) (c c' : list (pyval * meta)) :
  fill_canonical ents c = Done c' ->
  (distinct_keys c = true -> distinct_keys c' = true)
  /\ (forall n, has_key n c = true -> has_key n c' = true)
  /\ (forall e, e ∈ ents ->
        exists name, e_item e "name" = Done name /\ has_key name c' = true)
  /\ (forall km, km ∈ c' ->
        km ∈ c \/
        has_key km.1 c = false /\
        exists l1 d l2,
          ents = (l1 ++ PDict d :: l2)%list /\
          assoc_find d "name" = Some km.1 /\
          km.2 = [("type", py_or (assoc_get d "type") (PStr "OTHER"));
                  ("name", km.1)] /\
          Forall (fun e => forall n, e_item e "name" = Done n ->
                                     key_eqb n km.1 = false) l1).
Proof.
  revert c. induction ents as [|e rest IH]; intros c; simpl.
  - intros [= <-]. repeat split; try done.
    + intros e He. by apply elem_of_nil in He.
    + intros km Hkm. by left.
  - destruct (e_item e "name") as [name|] eqn:Hname; simpl; [|discriminate].
    destruct (hashable name) eqn:Hhash; simpl; [|discriminate].
    assert (exists d, e = PDict d /\ assoc_find d "name" = Some name)
      as (d & -> & Hd).
    { unfold e_item in Hname. destruct e as [| | | | | |d]; try discriminate.
      exists d. split; [done|].
      destruct (assoc_find d "name"); [congruence|discriminate]. }
    destruct (has_key name c) eqn:Hhas.
    + intros Hfill. destruct (IH c Hfill) as (Hd1 & Hmono & Hall & Hent).
      repeat split; try done.
      * intros e [->|He]%elem_of_cons; [|by apply Hall].
        exists name. split; [done|]. by apply Hmono.
      * intros km Hkm. destruct (Hent km Hkm)
          as [Hin|(Hno & l1 & d' & l2 & -> & Hn' & Hm & Hl1)]; [by left|].
        right. split; [done|]. exists (PDict d :: l1), d', l2.
        repeat split; try done. constructor; [|done].
        intros n Hn. rewrite Hname in Hn. injection Hn as <-.
        destruct (key_eqb name km.1) eqn:Hk; [|done].
        by rewrite (has_key_eqb _ _ c Hk), Hno in Hhas.
    + simpl. intros Hfill.
      destruct (IH _ Hfill) as (Hd1 & Hmono & Hall & Hent).
      assert (has_key name c' = true) as Hnew.
      { apply Hmono. rewrite has_key_app. simpl.
        rewrite (key_eqb_refl name Hhash). by rewrite orb_true_r. }
      repeat split.
      * intros Hc. apply Hd1. by apply distinct_keys_snoc.
      * intros n Hn. apply Hmono. rewrite has_key_app, Hn. done.
      * intros e [->|He]%elem_of_cons; [|by apply Hall].
        exists name. done.
      * intros km Hkm. destruct (Hent km Hkm)
          as [Hin|(Hno & l1 & d' & l2 & -> & Hn' & Hm & Hl1)].
        -- apply elem_of_app in Hin as [Hin|Hin]; [by left|].
           apply list_elem_of_singleton in Hin as ->. right. split; [done|].
           exists [], d, rest. simpl. repeat split; try done.
        -- rewrite has_key_app in Hno. apply orb_false_iff in Hno as [Hno Hk].
           right. split; [done|]. exists (PDict d :: l1), d', l2.
           repeat split; try done. constructor; [|done].
           intros n Hn. rewrite Hname in Hn. injection Hn as <-.
           simpl in Hk. by apply orb_false_iff in Hk as [Hk _].
Qed.

(** Where an entry of the table comes from. *)
Lemma build_entry (api_ents : list pyval) (canonical : list (pyval * meta))
    (name : pyval) (m : meta) :
  build api_ents = Done canonical -> (name, m) ∈ canonical ->
  exists t l1 d l2,
    m = [("type", PStr t); ("name", name)] /\
    In t ENTITY_TYPE_FILTER /\
    api_ents = (l1 ++ PDict d :: l2)%list /\
    accepted (PDict d) = Done true /\
    assoc_find d "name" = Some name /\
    assoc_get d "type" = PStr t /\
    Forall (fun e => accepted e = Done true ->
                     forall n, e_item e "name" = Done n ->
                               key_eqb n name = false) l1.
Proof.
  unfold build.
  destruct (accepted_ents api_ents) as [ents|] eqn:Hacc; simpl; [|discriminate].
  apply accepted_ents_filter in Hacc. intros Hfill Hin.
  destruct (fill_canonical_spec ents [] canonical Hfill) as (_ & _ & _ & Hent).
  destruct (Hent _ Hin) as [Hnil|(_ & f1 & d & f2 & Hents & Hn & Hm & Hf1)];
    [by apply elem_of_nil in Hnil|].
  simpl in *. rewrite Hacc in Hents.
  destruct (filter_split _ _ _ _ _ Hents) as (l1 & l2 & -> & Hl1).
  assert (accepted (PDict d) = Done true) as Hd.
  { assert (In (PDict d) (List.filter passes (l1 ++ PDict d :: l2))) as Hi.
    { rewrite Hents. apply in_elt. }
    apply filter_In in Hi as [_ Hi].
    by destruct (accepted (PDict d)) as [[]|]. }
  destruct (accepted_true_inv _ Hd) as (d' & t & m' & [= <-] & Ht & Hin' & _).
  assert (py_or (PStr t) (PStr "OTHER") = PStr t) as Hor.
  { simpl in Hin'. by destruct Hin' as [<-|[<-|[<-|[]]]]. }
  exists t, l1, d, l2. rewrite Hm, Ht, Hor. repeat split; try done.
  apply Forall_forall. intros e He Hpass.
  rewrite Forall_forall in Hf1. apply Hf1. rewrite <- Hl1.
  apply list_elem_of_In, filter_In. split; [by apply list_elem_of_In|].
  by rewrite Hpass.
Qed.

(** X24. The table [build] returns has one entry for each name among the
    entities that pass its condition, the first of a name deciding the
    type: no two keys are equal; every entry is [{"type": t, "name": name}]
    for the first passing entity of the list that carries the name, with
    [t] one of the three types of the filter (so ["OTHER"] never
    appears); and the name of every passing entity is a key. *)
Theorem build_table (api_ents : list pyval) (canonical : list (pyval * meta)) :
  build api_ents = Done canonical ->
  distinct_keys canonical = true
  /\ (forall name m, (name, m) ∈ canonical ->
        exists t l1 d l2,
          m = [("type", PStr t); ("name", name)] /\
          In t ENTITY_TYPE_FILTER /\
          api_ents = (l1 ++ PDict d :: l2)%list /\
          accepted (PDict d) = Done true /\
          assoc_find d "name" = Some name /\
          assoc_get d "type" = PStr t /\
          Forall (fun e => accepted e = Done true ->
                           forall n, e_item e "name" = Done n ->
                                     key_eqb n name = false) l1)
  /\ (forall e, e ∈ api_ents -> accepted e = Done true ->
        exists name, e_item e "name" = Done name /\
                     has_key name canonical = true).
Proof.
  intros Hbuild. split; [|split].
  - revert Hbuild. unfold build.
    destruct (accepted_ents api_ents) as [ents|]; simpl; [|discriminate].
    intros Hfill.
    by apply (proj1 (fill_canonical_spec ents [] canonical Hfill)).
  - intros name m. by apply build_entry.
  - revert Hbuild. unfold build.
    destruct (accepted_ents api_ents) as [ents|] eqn:Hacc; simpl;
      [|discriminate].
    apply accepted_ents_filter in Hacc. intros Hfill e He Hpass.
    destruct (fill_canonical_spec ents [] canonical Hfill) as (_ & _ & Hall & _).
    apply Hall. rewrite Hacc.
    apply list_elem_of_In, filter_In. split; [by apply list_elem_of_In|].
    by rewrite Hpass.
Qed.

Lemma well_formed_accepted (e : pyval) :
  well_formed e = true -> exists b, accepted e = Done b.
Proof.
  unfold well_formed, accepted, e_get, e_item, in_filter.
  destruct e as [| | | | | |d]; try discriminate. cbn [and_then].
  intros [Hh Hrest]%andb_true_iff. rewrite Hh. cbn [and_then].
  destruct (match assoc_get d "type" with
            | PStr t => existsb (String.eqb t) ENTITY_TYPE_FILTER
            | _ => false
            end); cbn [negb]; [|eauto].
  simpl in Hrest. apply andb_true_iff in Hrest as [Hm _].
  destruct (assoc_find d "metadata") as [[| | |s| |l|m]|]; try discriminate;
    cbn [and_then contains];
    match goal with |- context [if ?w then _ else _] => destruct w end; eauto.
Qed.

Lemma well_formed_named (e : pyval) :
  well_formed e = true -> accepted e = Done true ->
  exists d name,
    e = PDict d /\ assoc_find d "name" = Some name /\ hashable name = true.
Proof.
  intros Hwf Hacc.
  destruct (accepted_true_inv e Hacc) as (d & t & m & -> & Ht & Hin & _).
  unfold well_formed in Hwf. rewrite Ht in Hwf.
  assert (existsb (String.eqb t) ENTITY_TYPE_FILTER = true) as Hex.
  { apply existsb_exists. exists t. split; [done|apply String.eqb_refl]. }
  rewrite Hex in Hwf. simpl in Hwf. apply andb_true_iff in Hwf as [_ Hn].
  destruct (assoc_find d "name") as [name|] eqn:Hname; [|discriminate].
  by exists d, name.
Qed.

Lemma fill_canonical_returns (ents : list pyval) (c : list (pyval * meta)) :
  Forall (fun e => exists d name,
            e = PDict d /\ assoc_find d "name" = Some name /\
            hashable name = true) ents ->
  exists c', fill_canonical ents c = Done c'.
Proof.
  intros Hall. revert c.
  induction Hall as [|e rest (d & name & -> & Hn & Hh) _ IH]; intros c; simpl.
  - eauto.
  - rewrite Hn. simpl. rewrite Hh. simpl. destruct (has_key name c); apply IH.
Qed.

Lemma accepted_ents_Fails (l : list pyval) :
  Exists (fun e => exists err, accepted e = Fails err) l ->
  exists err, accepted_ents l = Fails err.
Proof.
  induction l as [|e l IH]; intros Hex; [by inversion Hex|]. simpl.
  destruct (accepted e) as [ok|err] eqn:He; simpl; [|eauto].
  inversion Hex as [? ? [err' Herr]|? ? Htail]; subst; [congruence|].
  destruct (IH Htail) as [err ->]. simpl. eauto.
Qed.

Lemma fill_canonical_Fails (ents : list pyval) (c : list (pyval * meta)) :
  Exists (fun e => exists err, e_item e "name" = Fails err) ents ->
  exists err, fill_canonical ents c = Fails err.
Proof.
  revert c. induction ents as [|e rest IH]; intros c Hex; [by inversion Hex|].
  simpl. destruct (e_item e "name") as [name|err] eqn:He; simpl; [|eauto].
  inversion Hex as [? ? [err' Herr]|? ? Htail]; subst; [congruence|].
  destruct (hashable name); simpl; [|eauto].
  destruct (has_key name c); [by apply IH|].
  unfold e_item in He. destruct e as [| | | | | |d]; try discriminate.
  simpl. by apply IH.
Qed.

(** X25. [build] returns a table or raises, never part of a table.  It
    returns one when every entity is a dict with a hashable type and,
    if its type is in the filter, with metadata that can be searched and a
    hashable name.  It raises when the condition raises on one entity --
    as it does with [KeyError] on an entity of a filtered type without
    [metadata], and with [AttributeError] on an entity that is not a dict
    -- and when an entity that passes the condition has no [name]. *)
Theorem build_all_or_nothing (api_ents : list pyval) :
  (Forall (fun e => well_formed e = true) api_ents ->
   exists canonical, build api_ents = Done canonical)
  /\ (Exists (fun e => exists err, accepted e = Fails err) api_ents ->
      exists err, build api_ents = Fails err)
  /\ (Exists (fun e => accepted e = Done true /\
                       exists err, e_item e "name" = Fails err) api_ents ->
      exists err, build api_ents = Fails err)
  /\ (forall d t, assoc_get d "type" = PStr t -> In t ENTITY_TYPE_FILTER ->
        assoc_find d "metadata" = None ->
        accepted (PDict d) = Fails (KeyError "metadata"))
  /\ (forall e, match e with PDict _ => False | _ => True end ->
        accepted e = Fails (Builtin AttributeError)).
Proof.
  unfold build. split; [|split; [|split; [|split]]].
  - intros Hwf.
    destruct (accepted_ents api_ents) as [ents|err] eqn:Hacc.
    + pose proof (accepted_ents_filter _ _ Hacc) as ->. simpl.
      apply fill_canonical_returns. apply Forall_forall. intros e He.
      apply list_elem_of_In, filter_In in He as [He Hpass].
      rewrite Forall_forall in Hwf. apply well_formed_named.
      * by apply Hwf, list_elem_of_In.
      * by destruct (accepted e) as [[]|].
    + exfalso. revert err Hacc.
      induction Hwf as [|e l He _ IH]; intros err; simpl; [discriminate|].
      destruct (well_formed_accepted e He) as [b ->]. simpl.
      destruct (accepted_ents l) as [r|err'] eqn:Hl; simpl; [discriminate|].
      intros _. by apply (IH err').
  - intros Hex. destruct (accepted_ents_Fails _ Hex) as [err ->]. simpl. eauto.
  - intros Hex.
    destruct (accepted_ents api_ents) as [ents|err] eqn:Hacc; simpl; [|eauto].
    pose proof (accepted_ents_filter _ _ Hacc) as ->.
    apply fill_canonical_Fails. apply Exists_exists in Hex as (e & He & Hp & Hn).
    apply Exists_exists. exists e. split; [|done].
    apply list_elem_of_In, filter_In. split; [by apply list_elem_of_In|].
    by rewrite Hp.
  - intros d t Ht Hin Hm. unfold accepted, e_get, e_item, in_filter.
    cbn [and_then]. rewrite Ht. cbn [hashable and_then].
    assert (existsb (String.eqb t) ENTITY_TYPE_FILTER = true) as ->.
    { apply existsb_exists. exists t. split; [done|apply String.eqb_refl]. }
    cbn [negb]. by rewrite Hm.
  - intros e He. by destruct e.
Qed.

(** *** From the extractor to the writer *)

Lemma normalize_entry (name ty : pyval) :
  truthy ty = true ->
  normalize_entity [("type", ty); ("name", name)]
  = if truthy name then Some (PDict [("name", name); ("type", ty)]) else None.
Proof.
  intros Hty. unfold normalize_entity. simpl. unfold py_or. rewrite Hty.
  by destruct (truthy name).
Qed.

(** X26. What the writer makes of a table [build] returned: the entities
    it stores are the entries of the table whose name is truthy, in the
    order of the table, each with the type the extractor recorded -- the
    writer's default ["OTHER"] is never used, and an entry whose name is
    empty is dropped. *)
Theorem built_table_normalizes (api_ents : list pyval)
    (canonical : list (pyval * meta)) (table : list (string * meta)) :
  build api_ents = Done canonical ->
  map snd table = map snd canonical ->
  _normalize_entities table
  = omap (fun km : pyval * meta =>
            if truthy km.1
            then Some (PDict [("name", km.1); ("type", assoc_get km.2 "type")])
            else None) canonical.
Proof.
  intros Hbuild.
  assert (Forall (fun km : pyval * meta =>
                    exists t, km.2 = [("type", PStr t); ("name", km.1)] /\
                              In t ENTITY_TYPE_FILTER) canonical) as Hshape.
  { apply Forall_forall. intros [name m] Hin.
    destruct (build_entry _ _ _ _ Hbuild Hin) as (t & _ & _ & _ & -> & Ht & _).
    by exists t. }
  clear Hbuild. revert table. unfold _normalize_entities.
  induction Hshape as [|[name m] rest (t & Hm & Ht) _ IH]; intros table Htable.
  - by destruct table.
  - destruct table as [|[k m'] table]; [discriminate|].
    simpl in Htable, Hm. injection Htable as -> Hrest. subst m.
    cbn [omap list_omap]. rewrite (IH table Hrest). cbn [fst snd].
    rewrite normalize_entry.
    + simpl. by destruct (truthy name).
    + simpl in Ht. by destruct Ht as [<-|[<-|[<-|[]]]].
Qed.

End ExtractorProperties.

(** ** The extractor's scenarios *)

Module ExtractorChecks.
Import NewsDataLoader EntityExtractor FirestoreWriter ExtractorProperties.

(** X24 on a list that names NASA twice: the first type is kept, the
    common noun is left out. *)
Lemma build_table_witness :
  build api_ents_1 = Done table_1 /\ distinct_keys table_1 = true.
Proof.
  split; [reflexivity|].
  apply (proj1 (build_table api_ents_1 table_1 eq_refl)).
Defined.

(** X25: the first list is taken; the second, with an organisation
    that has no metadata, is refused. *)
Lemma build_all_or_nothing_witness :
  (exists canonical, build api_ents_1 = Done canonical)
  /\ (exists err, build api_ents_2 = Fails err).
Proof.
  split.
  - apply (proj1 (build_all_or_nothing api_ents_1)). repeat constructor.
  - apply (proj1 (proj2 (build_all_or_nothing api_ents_2))).
    apply Exists_cons_tl, Exists_cons_hd. eexists. reflexivity.
Defined.

(** X26 on the first list. *)
Lemma built_table_normalizes_witness :
  _normalize_entities canonical_1
  = [ PDict [("name", PStr "NASA"); ("type", PStr "ORGANIZATION")];
      PDict [("name", PStr "Bill Nelson"); ("type", PStr "PERSON")] ].
Proof.
  apply (built_table_normalizes api_ents_1 table_1 canonical_1); reflexivity.
Defined.

End ExtractorChecks.

(** ** The cache's filter *)

Module FilterProperties.
Import SmartArticleCache.

Section WithLibraries.

Variable str_other : pyval -> string.
Variable lower_unicode : string -> string.

Lemma matches_splits (r : article) (country entity : option string) :
  _matches str_other lower_unicode r country entity
  = _matches str_other lower_unicode r country None
      && _matches str_other lower_unicode r None entity.
Proof.
  unfold _matches. simpl.
  destruct (opt_truthy country && _); [done|].
  by destruct (opt_truthy entity).
Qed.

Lemma filter_filter_and {A} (f g : A -> bool) (l : list A) :
  List.filter f (List.filter g l) = List.filter (fun x => g x && f x) l.
Proof.
  induction l as [|x l IH]; simpl; [done|].
  destruct (g x); simpl; [|done]. destruct (f x); by rewrite IH.
Qed.

(** X27. Filtering a broader entry loses nothing and adds nothing: the
    rows of a list that match the country, filtered for country and
    entity, are the rows of the list that match both, and so are the rows
    that match the entity, filtered for both; with no filter set every row
    matches. *)
Theorem reuse_filter_is_exact (rows : list article)
    (country entity : option string) :
  filtered_rows str_other lower_unicode
      (filtered_rows str_other lower_unicode rows country None)
    country entity
  = filtered_rows str_other lower_unicode rows country entity
  /\ filtered_rows str_other lower_unicode
      (filtered_rows str_other lower_unicode rows None entity)
       country entity
     = filtered_rows str_other lower_unicode rows country entity
  /\ filtered_rows str_other lower_unicode rows None None = rows.
Proof.
  unfold filtered_rows. split; [|split].
  - rewrite filter_filter_and. apply filter_ext. intros r.
    rewrite (matches_splits r country entity).
    by destruct (_matches str_other lower_unicode r country None).
  - rewrite filter_filter_and. apply filter_ext. intros r.
    rewrite (matches_splits r country entity).
    destruct (_matches str_other lower_unicode r country None),
             (_matches str_other lower_unicode r None entity); done.
  - induction rows as [|r rows IH]; simpl; [done|]. by rewrite IH.
Qed.

End WithLibraries.

End FilterProperties.

(** ** The plaintext entities *)

Module ParserProperties.
Import NewsDataLoader EntityExtractor AIAPILoader ExtractorProperties.

Lemma assoc_find_set_eq (k : string) (v : pyval) (d : list (string * pyval)) :
  assoc_find (assoc_set k v d) k = Some v.
Proof.
  induction d as [|[k' v'] rest IH]; simpl.
  - by rewrite String.eqb_refl.
  - destruct (String.eqb_spec k' k) as [->|Hne]; simpl.
    + by rewrite String.eqb_refl.
    + by destruct (String.eqb_spec k' k).
Qed.

Lemma assoc_find_set_ne (k k' : string) (v : pyval) (d : list (string * pyval)) :
  k <> k' -> assoc_find (assoc_set k v d) k' = assoc_find d k'.
Proof.
  intros Hne. induction d as [|[k0 v0] rest IH]; simpl.
  - by destruct (String.eqb_spec k k').
  - destruct (String.eqb_spec k0 k) as [->|Hk0]; simpl.
    + destruct (String.eqb_spec k k'); done.
    + by rewrite IH.
Qed.

Lemma assoc_get_find (d : list (string * pyval)) (k : string) :
  assoc_get d k = default PNone (assoc_find d k).
Proof.
  induction d as [|[k' v] rest IH]; simpl; [done|].
  by destruct (String.eqb k' k).
Qed.

Lemma assoc_set_nonempty (k : string) (v : pyval) (d : list (string * pyval)) :
  assoc_set k v d <> [].
Proof.
  destruct d as [|[k' v'] rest]; simpl; [done|]. by destruct (String.eqb k' k).
Qed.

Lemma prefix_app (p s : string) :
  String.prefix p s = true -> exists r, s = p ++ r.
Proof.
  revert s. induction p as [|a p IH]; intros s.
  - intros _. by exists s.
  - destruct s as [|b s]; simpl; [discriminate|].
    destruct (ascii_dec a b) as [->|]; [|discriminate].
    intros [r ->]%IH. by exists r.
Qed.

Lemma after_colon_app (p q r : string) :
  after_colon p = Some q -> after_colon (p ++ r) = Some (q ++ r).
Proof.
  induction p as [|c p IH]; simpl; [discriminate|].
  destruct (Ascii.eqb c ":"); [by intros [= ->]|done].
Qed.

(** A line that starts with one of the five labels has a field. *)
Lemma field_text_labelled (strip_unicode : string -> string) (p ln : string) :
  is_Some (after_colon p) -> String.prefix p ln = true ->
  is_Some (field_text strip_unicode ln).
Proof.
  intros [q Hq] [r ->]%prefix_app. unfold field_text.
  rewrite (after_colon_app _ _ r Hq). simpl. eauto.
Qed.

Lemma cur_ok_nil : cur_ok [].
Proof. by repeat split. Qed.

Lemma cur_ok_set (c : list (string * pyval)) (k : string) (v : pyval) :
  cur_ok c ->
  k <> "metadata" -> k <> "name" ->
  (k = "type" -> exists t, v = PStr t) ->
  (k = "mentions" ->
   exists l, v = PList l /\ Forall (fun m => exists d, m = PDict d) l) ->
  cur_ok (assoc_set k v c).
Proof.
  intros (Hm & Hn & Ht & Hl) Hk1 Hk2 Hty Hme. repeat split.
  - by rewrite assoc_find_set_ne.
  - by rewrite assoc_find_set_ne.
  - destruct (decide (k = "type")) as [->|Hne].
    + rewrite assoc_find_set_eq. by destruct (Hty eq_refl) as [t ->].
    + by rewrite assoc_find_set_ne.
  - destruct (decide (k = "mentions")) as [->|Hne].
    + rewrite assoc_find_set_eq. by destruct (Hme eq_refl) as (l & -> & Hall).
    + by rewrite assoc_find_set_ne.
Qed.

Lemma set_last_type_dicts (l l' : list pyval) (t : string) :
  Forall (fun m => exists d, m = PDict d) l ->
  set_last_type l t = Some l' ->
  Forall (fun m => exists d, m = PDict d) l'.
Proof.
  intros Hall. unfold set_last_type.
  destruct (last l) as [[| | | | | |d]|]; try discriminate. intros [= <-].
  apply Forall_app. split.
  - apply Forall_forall. intros x Hx. rewrite Forall_forall in Hall.
    apply Hall. apply list_elem_of_In. apply list_elem_of_In in Hx.
    clear -Hx. induction l as [|a [|b l] IH]; simpl in *; [done..|].
    destruct Hx as [<-|Hx]; [by left|right; by apply IH].
  - repeat constructor. eauto.
Qed.

Lemma set_last_type_Some (l : list pyval) (t : string) :
  Forall (fun m => exists d, m = PDict d) l -> l <> [] ->
  is_Some (set_last_type l t).
Proof.
  intros Hall Hne. unfold set_last_type.
  destruct (last l) as [m|] eqn:Hlast.
  - apply last_Some in Hlast as [l0 ->].
    apply Forall_app in Hall as [_ Hm]. inversion Hm as [|? ? [d ->] _]; subst.
    eauto.
  - by apply last_None in Hlast.
Qed.

(** The entities emitted so far. *)
Local Abbreviation ents_ok es := (Forall (fun e => parsed_entity e = true) es).

Lemma cur_ok_parsed (c : list (string * pyval)) :
  cur_ok c -> c <> [] -> parsed_entity (PDict c) = true.
Proof.
  intros (Hm & Hn & Ht & _) Hne. unfold parsed_entity.
  rewrite !bool_decide_eq_true_2 by done.
  destruct (assoc_find c "type") as [[]|]; try done; by destruct c.
Qed.

Lemma flush_ok (st : state) :
  ents_ok (ents st) -> cur_ok (cur st) ->
  ents_ok (ents (flush st)) /\ cur (flush st) = [].
Proof.
  intros He Hc. unfold flush. destruct (cur st) as [|kv c] eqn:Hcur; [done|].
  simpl. split; [|done]. apply Forall_app. split; [done|].
  repeat constructor. by apply cur_ok_parsed.
Qed.

Section WithLibraries.

Variable strip_unicode : string -> string.
Variable float_or_None : string -> pyval.

Local Abbreviation step := (step strip_unicode float_or_None).
Local Abbreviation run := (run strip_unicode float_or_None).

Lemma step_ok (st : state) (ln : string) :
  ents_ok (ents st) -> cur_ok (cur st) ->
  exists st', step st ln = Some st' /\ ents_ok (ents st') /\ cur_ok (cur st').
Proof.
  intros He Hc. unfold step.
  destruct (String.prefix "Representative name for the entity:" ln) eqn:H1.
  { destruct (field_text_labelled strip_unicode "Representative name for the entity:" ln
                ltac:(by eexists) H1) as [t ->].
    destruct (flush_ok st He Hc) as [He' Hc'].
    simpl. eexists. split; [done|]. simpl. split; [done|]. rewrite Hc'.
    apply cur_ok_set; [apply cur_ok_nil|done..]. }
  destruct (String.prefix "Entity type:" ln) eqn:H2.
  { destruct (field_text_labelled strip_unicode "Entity type:" ln
                ltac:(by eexists) H2) as [t ->].
    simpl. eexists. split; [done|]. simpl. split; [done|].
    apply cur_ok_set; [done|done|done| |done]. eauto. }
  destruct (String.prefix "Salience score:" ln) eqn:H3.
  { eexists. split; [done|]. simpl. split; [done|].
    by apply cur_ok_set. }
  destruct (String.prefix "Mention text:" ln) eqn:H4.
  { destruct (field_text_labelled strip_unicode "Mention text:" ln
                ltac:(by eexists) H4) as [t ->].
    pose proof Hc as (_ & _ & _ & Hl).
    destruct (assoc_find (cur st) "mentions") as [[| | | | |l|]|]; try done;
      simpl; (eexists; split; [done|]); simpl; (split; [done|]);
      (apply cur_ok_set; [done|done|done|done|]); intros _; eexists;
      (split; [done|]).
    - apply Forall_app. split; [done|]. repeat constructor. eauto.
    - repeat constructor. eauto. }
  destruct (String.prefix "Mention type:" ln) eqn:H5.
  { destruct (field_text_labelled strip_unicode "Mention type:" ln
                ltac:(by eexists) H5) as [t ->].
    pose proof Hc as (_ & _ & _ & Hl).
    destruct (assoc_find (cur st) "mentions") as [[| | | | |l|]|]; try done;
      [|by eauto].
    destruct l as [|m l]; simpl; [by eauto|].
    destruct (set_last_type_Some (m :: l) t Hl ltac:(done)) as [l' Hl'].
    rewrite Hl'. simpl. eexists. split; [done|]. simpl. split; [done|].
    apply cur_ok_set; [done|done|done|done|]. intros _. exists l'.
    split; [done|]. by eapply set_last_type_dicts. }
  eauto.
Qed.

Lemma run_ok (lines : list string) (st : state) :
  ents_ok (ents st) -> cur_ok (cur st) ->
  exists st', run st lines = Some st' /\ ents_ok (ents st') /\ cur_ok (cur st').
Proof.
  revert st. induction lines as [|ln rest IH]; intros st He Hc; simpl.
  - eauto.
  - destruct (step_ok st ln He Hc) as (st1 & -> & He1 & Hc1). simpl.
    by apply IH.
Qed.

(** X28. The plaintext branch of [extract_entities] never raises, and
    every entity it returns is a non-empty dict that has neither a [name]
    nor a [metadata] key and whose [type], when there is one, is a
    string. *)
Theorem parse_entities_shape (lines : list string) :
  exists es,
    parse_entities strip_unicode float_or_None lines = Some es /\
    Forall (fun e => parsed_entity e = true) es.
Proof.
  unfold parse_entities.
  destruct (run_ok (clean strip_unicode lines) {| ents := []; cur := [] |})
    as (st & -> & He & Hc); [constructor|apply cur_ok_nil|].
  simpl. eexists. split; [done|]. by apply flush_ok.
Qed.

End WithLibraries.

(** What the extractor's condition makes of a parsed entity. *)
Lemma accepted_parsed (e : pyval) :
  parsed_entity e = true ->
  accepted e = if filtered_type e then Fails (KeyError "metadata")
               else Done false.
Proof.
  unfold parsed_entity, accepted, filtered_type, e_get, e_item, in_filter.
  destruct e as [| | | | | |d]; try discriminate. cbn [and_then].
  rewrite !andb_true_iff. intros [[[_ Hm] _] Ht].
  apply bool_decide_eq_true in Hm. rewrite Hm.
  rewrite (assoc_get_find d "type").
  destruct (assoc_find d "type") as [[| | |t| | |]|]; try discriminate;
    simpl; [|done].
  by destruct (_ || _).
Qed.

Lemma accepted_ents_parsed (es : list pyval) :
  Forall (fun e => parsed_entity e = true) es ->
  accepted_ents es = if existsb filtered_type es
                     then Fails (KeyError "metadata") else Done [].
Proof.
  induction 1 as [|e es He _ IH]; simpl; [done|].
  rewrite (accepted_parsed e He).
  destruct (filtered_type e); simpl; [done|]. rewrite IH.
  by destruct (existsb filtered_type es).
Qed.

Section Composition.

Variable strip_unicode : string -> string.
Variable float_or_None : string -> pyval.

(** X29. The extractor cannot use what the plaintext branch returns:
    [build] on the parsed entities raises [KeyError('metadata')] as soon as
    one of them has a type of the filter, and otherwise returns the empty
    table. *)
Theorem plaintext_entities_never_build (lines : list string) (es : list pyval) :
  parse_entities strip_unicode float_or_None lines = Some es ->
  build es = if existsb filtered_type es
             then Fails (KeyError "metadata") else Done [].
Proof.
  intros Hparse.
  assert (Forall (fun e => parsed_entity e = true) es) as Hok.
  { revert Hparse. unfold parse_entities.
    destruct (run_ok strip_unicode float_or_None (clean strip_unicode lines)
        {| ents := []; cur := [] |})
      as (st & -> & He & Hc); [constructor|apply cur_ok_nil|].
    simpl. intros [= <-]. by apply flush_ok. }
  unfold build. rewrite (accepted_ents_parsed es Hok).
  by destruct (existsb filtered_type es).
Qed.

End Composition.

End ParserProperties.

(** ** The parser's scenarios *)

Module ParserChecks.
Import EntityExtractor AIAPILoader ParserProperties.

(** X29 on an answer that names an organisation, and on one that names
    only an event. *)
Lemma plaintext_entities_never_build_witness :
  (exists es, parse_entities strip_plain no_float answer_1 = Some es /\
              build es = Fails (KeyError "metadata"))
  /\ (exists es, parse_entities strip_plain no_float answer_2 = Some es /\
                 build es = Done []).
Proof.
  split.
  - destruct (parse_entities strip_plain no_float answer_1) as [es|] eqn:Hes;
      [|vm_compute in Hes; discriminate].
    exists es. split; [reflexivity|].
    rewrite (plaintext_entities_never_build strip_plain no_float answer_1 es Hes).
    revert Hes. vm_compute. intros [= <-]. reflexivity.
  - destruct (parse_entities strip_plain no_float answer_2) as [es|] eqn:Hes;
      [|vm_compute in Hes; discriminate].
    exists es. split; [reflexivity|].
    rewrite (plaintext_entities_never_build strip_plain no_float answer_2 es Hes).
    revert Hes. vm_compute. intros [= <-]. reflexivity.
Defined.

End ParserChecks.
